(** * pyotodom: [otodom/utils.py]

    A shallow embedding of the helper module of the otodom client: text
    normalisation, region resolution (from the filters or from the
    autosuggest endpoint), search-URL assembly and CSRF-token extraction,
    followed by the properties established about them.

    Python values are modelled as they are at run time: a [str] is a
    sequence of Unicode code points, a [dict] keeps insertion order, a
    failing lookup raises.  Collaborators that live outside the module (the
    Unicode character database, the HTTP client, the JSON decoder, the
    package constant [BASE_URL]) are fields of an environment record. *)

From Stdlib Require Import List String Ascii NArith ZArith Bool Lia DecimalString.
Import ListNotations.

(* ===================================================================== *)
(** * Part I.  Definitions                                                *)
(* ===================================================================== *)

(** ** Python strings *)

Module PyStr.

(** A [str] is a sequence of code points. *)
Definition pystr := list N.

(** Lenient UTF-8 decoder.  It is used for two things: reading the string
    literals of this file (which are stored as UTF-8 bytes), and
    [bytes.decode("utf-8")] on the output of [encode('ascii', 'ignore')],
    where every byte is below 128 and the decoder is the identity. *)
Fixpoint utf8_decode (bs : list N) : pystr :=
  match bs with
  | [] => []
  | b0 :: t0 =>
    if (b0 <? 0x80)%N then b0 :: utf8_decode t0
    else if (b0 <? 0xE0)%N then
      match t0 with
      | b1 :: t1 => ((b0 - 0xC0) * 64 + (b1 - 0x80))%N :: utf8_decode t1
      | [] => [0xFFFD%N]
      end
    else if (b0 <? 0xF0)%N then
      match t0 with
      | b1 :: b2 :: t2 =>
        ((b0 - 0xE0) * 4096 + (b1 - 0x80) * 64 + (b2 - 0x80))%N :: utf8_decode t2
      | _ => [0xFFFD%N]
      end
    else
      match t0 with
      | b1 :: b2 :: b3 :: t3 =>
        ((b0 - 0xF0) * 262144 + (b1 - 0x80) * 4096 + (b2 - 0x80) * 64 + (b3 - 0x80))%N
          :: utf8_decode t3
      | _ => [0xFFFD%N]
      end
  end.

(** [u "..."] is the Python string written by the literal. *)
Definition u (s : string) : pystr :=
  utf8_decode (map N_of_ascii (list_ascii_of_string s)).

Fixpoint str_eqb (a b : pystr) : bool :=
  match a, b with
  | [], [] => true
  | x :: a', y :: b' => (x =? y)%N && str_eqb a' b'
  | _, _ => false
  end.

(** [s.startswith(p)]. *)
Fixpoint startswith (p s : pystr) : bool :=
  match p, s with
  | [], _ => true
  | x :: p', y :: s' => (x =? y)%N && startswith p' s'
  | _ :: _, [] => false
  end.

(** [sep.join(parts)]. *)
Fixpoint join (sep : pystr) (parts : list pystr) : pystr :=
  match parts with
  | [] => []
  | [p] => p
  | p :: rest => p ++ sep ++ join sep rest
  end.

(** [s.replace(old, new)] for a non-empty [old]: occurrences are replaced
    left to right and do not overlap.  [skip] counts the characters of an
    occurrence that are still to be dropped. *)
Fixpoint replace_from (old new s : pystr) (skip : nat) : pystr :=
  match s with
  | [] => []
  | c :: t =>
    match skip with
    | S k => replace_from old new t k
    | O =>
      if startswith old s then new ++ replace_from old new t (List.length old - 1)
      else c :: replace_from old new t 0
    end
  end.

(** [s.replace(old, new)]; with an empty [old], Python inserts [new]
    before every character and at the end. *)
Definition replace (old new s : pystr) : pystr :=
  match old with
  | [] => new ++ flat_map (fun c => c :: new) s
  | _ :: _ => replace_from old new s 0
  end.

(** [s.split(sep)] for a non-empty [sep]; [cur] is the current piece,
    reversed. *)
Fixpoint split_from (sep s : pystr) (skip : nat) (cur : pystr) : list pystr :=
  match s with
  | [] => [rev cur]
  | c :: t =>
    match skip with
    | S k => split_from sep t k cur
    | O =>
      if startswith sep s then rev cur :: split_from sep t (List.length sep - 1) []
      else split_from sep t 0 (c :: cur)
    end
  end.

Definition split (sep s : pystr) : list pystr := split_from sep s 0 [].

(** [Py_UNICODE_ISSPACE]: the code points on which [str.split()] splits and
    which the regular-expression class [\s] matches. *)
Definition isspace (c : N) : bool :=
  ((0x09 <=? c) && (c <=? 0x0D) || (0x1C <=? c) && (c <=? 0x20)
   || (c =? 0x85) || (c =? 0xA0) || (c =? 0x1680)
   || (0x2000 <=? c) && (c <=? 0x200A)
   || (c =? 0x2028) || (c =? 0x2029) || (c =? 0x202F) || (c =? 0x205F)
   || (c =? 0x3000))%N.

(** [s.split()]: the maximal runs of non-space characters. *)
Fixpoint split_ws_from (s : pystr) (cur : pystr) : list pystr :=
  match s with
  | [] => match cur with [] => [] | _ => [rev cur] end
  | c :: t =>
    if isspace c then
      match cur with
      | [] => split_ws_from t []
      | _ => rev cur :: split_ws_from t []
      end
    else split_ws_from t (c :: cur)
  end.

Definition split_ws (s : pystr) : list pystr := split_ws_from s [].

(** Decimal digits of an integer, as [str(int)] prints them. *)
Definition str_of_Z (z : Z) : pystr :=
  u (NilZero.string_of_int (Z.to_int z)).

Definition hex_digit (upper : bool) (d : N) : N :=
  if (d <? 10)%N then (0x30 + d)%N
  else if upper then (0x41 + (d - 10))%N else (0x61 + (d - 10))%N.

(** [width] hexadecimal digits of [n], most significant first. *)
Fixpoint hex_fixed (upper : bool) (width : nat) (n : N) : pystr :=
  match width with
  | O => []
  | S w => hex_fixed upper w (n / 16) ++ [hex_digit upper (n mod 16)]
  end.

End PyStr.
Export PyStr.

(** ** The Unicode character database *)

Module Unicode.

(** The part of the Unicode character database that the module reaches
    through [str.lower], [unicodedata.normalize], [repr] and the
    regular-expression class [\w]. *)
Record UnicodeData := {
  (** full lowercase mapping of one code point ([str.lower]) *)
  lowercase : N -> list N;
  (** full compatibility decomposition of one code point, the code point
      itself when it has none *)
  decomposition : N -> list N;
  (** canonical combining class *)
  combining : N -> N;
  (** [str.isalnum] on one code point *)
  isalnum : N -> bool;
  (** [str.isprintable] on one code point *)
  isprintable : N -> bool
}.

Section Normalization.
Variable db : UnicodeData.

(** [text.lower()].  (The context rule Final_Sigma of [str.lower] chooses
    between two Greek code points only.) *)
Definition lower (text : pystr) : pystr := flat_map (lowercase db) text.

(** Canonical ordering: a character of non-zero combining class moves
    left past every character of greater class.  [racc] is the ordered
    prefix, reversed. *)
Fixpoint insert_mark (c : N) (racc : pystr) : pystr :=
  match racc with
  | [] => [c]
  | p :: rest =>
    if (combining db c <? combining db p)%N && negb (combining db c =? 0)%N
    then p :: insert_mark c rest
    else c :: racc
  end.

Definition canonical_order (s : pystr) : pystr :=
  rev (fold_left (fun racc c => insert_mark c racc) s []).

(** [unicodedata.normalize('NFKD', s)]. *)
Definition nfkd (s : pystr) : pystr :=
  canonical_order (flat_map (decomposition db) s).
End Normalization.

(** [s.encode('ascii', 'ignore')]: the code points below 128, as bytes. *)
Definition encode_ascii_ignore (s : pystr) : list N :=
  filter (fun c => (c <? 128)%N) s.

Definition lookup_table {A} (tbl : list (N * A)) (c : N) : option A :=
  match find (fun e => (fst e =? c)%N) tbl with
  | Some e => Some (snd e)
  | None => None
  end.

Definition in_ranges (rs : list (N * N)) (c : N) : bool :=
  existsb (fun r => (fst r <=? c)%N && (c <=? snd r)%N) rs.

(** *** An excerpt of the database

    Unicode 14.0 on U+0000..U+017F (Basic Latin, Latin-1 Supplement,
    Latin Extended-A), U+0300..U+036F (combining diacritical marks) and
    U+2100..U+214F (letterlike symbols).  The tables list the code points
    of these blocks whose property differs from the default. *)
Definition excerpt_blocks : list (N * N) :=
  [(0x0, 0x17F); (0x300, 0x36F); (0x2100, 0x214F)]%N.

Definition covered (s : pystr) : bool := forallb (in_ranges excerpt_blocks) s.

Definition lowercase_table : list (N * list N) :=
  [(0xC0, [0xE0]); (0xC1, [0xE1]); (0xC2, [0xE2]); (0xC3, [0xE3]); (0xC4, [0xE4]);
   (0xC5, [0xE5]); (0xC6, [0xE6]); (0xC7, [0xE7]); (0xC8, [0xE8]); (0xC9, [0xE9]);
   (0xCA, [0xEA]); (0xCB, [0xEB]); (0xCC, [0xEC]); (0xCD, [0xED]); (0xCE, [0xEE]);
   (0xCF, [0xEF]); (0xD0, [0xF0]); (0xD1, [0xF1]); (0xD2, [0xF2]); (0xD3, [0xF3]);
   (0xD4, [0xF4]); (0xD5, [0xF5]); (0xD6, [0xF6]); (0xD8, [0xF8]); (0xD9, [0xF9]);
   (0xDA, [0xFA]); (0xDB, [0xFB]); (0xDC, [0xFC]); (0xDD, [0xFD]); (0xDE, [0xFE]);
   (0x100, [0x101]); (0x102, [0x103]); (0x104, [0x105]); (0x106, [0x107]); (0x108, [0x109]);
   (0x10A, [0x10B]); (0x10C, [0x10D]); (0x10E, [0x10F]); (0x110, [0x111]); (0x112, [0x113]);
   (0x114, [0x115]); (0x116, [0x117]); (0x118, [0x119]); (0x11A, [0x11B]); (0x11C, [0x11D]);
   (0x11E, [0x11F]); (0x120, [0x121]); (0x122, [0x123]); (0x124, [0x125]); (0x126, [0x127]);
   (0x128, [0x129]); (0x12A, [0x12B]); (0x12C, [0x12D]); (0x12E, [0x12F]); (0x130, [0x69; 0x307]);
   (0x132, [0x133]); (0x134, [0x135]); (0x136, [0x137]); (0x139, [0x13A]); (0x13B, [0x13C]);
   (0x13D, [0x13E]); (0x13F, [0x140]); (0x141, [0x142]); (0x143, [0x144]); (0x145, [0x146]);
   (0x147, [0x148]); (0x14A, [0x14B]); (0x14C, [0x14D]); (0x14E, [0x14F]); (0x150, [0x151]);
   (0x152, [0x153]); (0x154, [0x155]); (0x156, [0x157]); (0x158, [0x159]); (0x15A, [0x15B]);
   (0x15C, [0x15D]); (0x15E, [0x15F]); (0x160, [0x161]); (0x162, [0x163]); (0x164, [0x165]);
   (0x166, [0x167]); (0x168, [0x169]); (0x16A, [0x16B]); (0x16C, [0x16D]); (0x16E, [0x16F]);
   (0x170, [0x171]); (0x172, [0x173]); (0x174, [0x175]); (0x176, [0x177]); (0x178, [0xFF]);
   (0x179, [0x17A]); (0x17B, [0x17C]); (0x17D, [0x17E]); (0x2126, [0x3C9]); (0x212A, [0x6B]);
   (0x212B, [0xE5]); (0x2132, [0x214E])]%N.

Definition decomposition_table : list (N * list N) :=
  [(0xA0, [0x20]); (0xA8, [0x20; 0x308]); (0xAA, [0x61]); (0xAF, [0x20; 0x304]);
   (0xB2, [0x32]); (0xB3, [0x33]); (0xB4, [0x20; 0x301]); (0xB5, [0x3BC]);
   (0xB8, [0x20; 0x327]); (0xB9, [0x31]); (0xBA, [0x6F]); (0xBC, [0x31; 0x2044; 0x34]);
   (0xBD, [0x31; 0x2044; 0x32]); (0xBE, [0x33; 0x2044; 0x34]); (0xC0, [0x41; 0x300]); (0xC1, [0x41; 0x301]);
   (0xC2, [0x41; 0x302]); (0xC3, [0x41; 0x303]); (0xC4, [0x41; 0x308]); (0xC5, [0x41; 0x30A]);
   (0xC7, [0x43; 0x327]); (0xC8, [0x45; 0x300]); (0xC9, [0x45; 0x301]); (0xCA, [0x45; 0x302]);
   (0xCB, [0x45; 0x308]); (0xCC, [0x49; 0x300]); (0xCD, [0x49; 0x301]); (0xCE, [0x49; 0x302]);
   (0xCF, [0x49; 0x308]); (0xD1, [0x4E; 0x303]); (0xD2, [0x4F; 0x300]); (0xD3, [0x4F; 0x301]);
   (0xD4, [0x4F; 0x302]); (0xD5, [0x4F; 0x303]); (0xD6, [0x4F; 0x308]); (0xD9, [0x55; 0x300]);
   (0xDA, [0x55; 0x301]); (0xDB, [0x55; 0x302]); (0xDC, [0x55; 0x308]); (0xDD, [0x59; 0x301]);
   (0xE0, [0x61; 0x300]); (0xE1, [0x61; 0x301]); (0xE2, [0x61; 0x302]); (0xE3, [0x61; 0x303]);
   (0xE4, [0x61; 0x308]); (0xE5, [0x61; 0x30A]); (0xE7, [0x63; 0x327]); (0xE8, [0x65; 0x300]);
   (0xE9, [0x65; 0x301]); (0xEA, [0x65; 0x302]); (0xEB, [0x65; 0x308]); (0xEC, [0x69; 0x300]);
   (0xED, [0x69; 0x301]); (0xEE, [0x69; 0x302]); (0xEF, [0x69; 0x308]); (0xF1, [0x6E; 0x303]);
   (0xF2, [0x6F; 0x300]); (0xF3, [0x6F; 0x301]); (0xF4, [0x6F; 0x302]); (0xF5, [0x6F; 0x303]);
   (0xF6, [0x6F; 0x308]); (0xF9, [0x75; 0x300]); (0xFA, [0x75; 0x301]); (0xFB, [0x75; 0x302]);
   (0xFC, [0x75; 0x308]); (0xFD, [0x79; 0x301]); (0xFF, [0x79; 0x308]); (0x100, [0x41; 0x304]);
   (0x101, [0x61; 0x304]); (0x102, [0x41; 0x306]); (0x103, [0x61; 0x306]); (0x104, [0x41; 0x328]);
   (0x105, [0x61; 0x328]); (0x106, [0x43; 0x301]); (0x107, [0x63; 0x301]); (0x108, [0x43; 0x302]);
   (0x109, [0x63; 0x302]); (0x10A, [0x43; 0x307]); (0x10B, [0x63; 0x307]); (0x10C, [0x43; 0x30C]);
   (0x10D, [0x63; 0x30C]); (0x10E, [0x44; 0x30C]); (0x10F, [0x64; 0x30C]); (0x112, [0x45; 0x304]);
   (0x113, [0x65; 0x304]); (0x114, [0x45; 0x306]); (0x115, [0x65; 0x306]); (0x116, [0x45; 0x307]);
   (0x117, [0x65; 0x307]); (0x118, [0x45; 0x328]); (0x119, [0x65; 0x328]); (0x11A, [0x45; 0x30C]);
   (0x11B, [0x65; 0x30C]); (0x11C, [0x47; 0x302]); (0x11D, [0x67; 0x302]); (0x11E, [0x47; 0x306]);
   (0x11F, [0x67; 0x306]); (0x120, [0x47; 0x307]); (0x121, [0x67; 0x307]); (0x122, [0x47; 0x327]);
   (0x123, [0x67; 0x327]); (0x124, [0x48; 0x302]); (0x125, [0x68; 0x302]); (0x128, [0x49; 0x303]);
   (0x129, [0x69; 0x303]); (0x12A, [0x49; 0x304]); (0x12B, [0x69; 0x304]); (0x12C, [0x49; 0x306]);
   (0x12D, [0x69; 0x306]); (0x12E, [0x49; 0x328]); (0x12F, [0x69; 0x328]); (0x130, [0x49; 0x307]);
   (0x132, [0x49; 0x4A]); (0x133, [0x69; 0x6A]); (0x134, [0x4A; 0x302]); (0x135, [0x6A; 0x302]);
   (0x136, [0x4B; 0x327]); (0x137, [0x6B; 0x327]); (0x139, [0x4C; 0x301]); (0x13A, [0x6C; 0x301]);
   (0x13B, [0x4C; 0x327]); (0x13C, [0x6C; 0x327]); (0x13D, [0x4C; 0x30C]); (0x13E, [0x6C; 0x30C]);
   (0x13F, [0x4C; 0xB7]); (0x140, [0x6C; 0xB7]); (0x143, [0x4E; 0x301]); (0x144, [0x6E; 0x301]);
   (0x145, [0x4E; 0x327]); (0x146, [0x6E; 0x327]); (0x147, [0x4E; 0x30C]); (0x148, [0x6E; 0x30C]);
   (0x149, [0x2BC; 0x6E]); (0x14C, [0x4F; 0x304]); (0x14D, [0x6F; 0x304]); (0x14E, [0x4F; 0x306]);
   (0x14F, [0x6F; 0x306]); (0x150, [0x4F; 0x30B]); (0x151, [0x6F; 0x30B]); (0x154, [0x52; 0x301]);
   (0x155, [0x72; 0x301]); (0x156, [0x52; 0x327]); (0x157, [0x72; 0x327]); (0x158, [0x52; 0x30C]);
   (0x159, [0x72; 0x30C]); (0x15A, [0x53; 0x301]); (0x15B, [0x73; 0x301]); (0x15C, [0x53; 0x302]);
   (0x15D, [0x73; 0x302]); (0x15E, [0x53; 0x327]); (0x15F, [0x73; 0x327]); (0x160, [0x53; 0x30C]);
   (0x161, [0x73; 0x30C]); (0x162, [0x54; 0x327]); (0x163, [0x74; 0x327]); (0x164, [0x54; 0x30C]);
   (0x165, [0x74; 0x30C]); (0x168, [0x55; 0x303]); (0x169, [0x75; 0x303]); (0x16A, [0x55; 0x304]);
   (0x16B, [0x75; 0x304]); (0x16C, [0x55; 0x306]); (0x16D, [0x75; 0x306]); (0x16E, [0x55; 0x30A]);
   (0x16F, [0x75; 0x30A]); (0x170, [0x55; 0x30B]); (0x171, [0x75; 0x30B]); (0x172, [0x55; 0x328]);
   (0x173, [0x75; 0x328]); (0x174, [0x57; 0x302]); (0x175, [0x77; 0x302]); (0x176, [0x59; 0x302]);
   (0x177, [0x79; 0x302]); (0x178, [0x59; 0x308]); (0x179, [0x5A; 0x301]); (0x17A, [0x7A; 0x301]);
   (0x17B, [0x5A; 0x307]); (0x17C, [0x7A; 0x307]); (0x17D, [0x5A; 0x30C]); (0x17E, [0x7A; 0x30C]);
   (0x17F, [0x73]); (0x340, [0x300]); (0x341, [0x301]); (0x343, [0x313]);
   (0x344, [0x308; 0x301]); (0x2100, [0x61; 0x2F; 0x63]); (0x2101, [0x61; 0x2F; 0x73]); (0x2102, [0x43]);
   (0x2103, [0xB0; 0x43]); (0x2105, [0x63; 0x2F; 0x6F]); (0x2106, [0x63; 0x2F; 0x75]); (0x2107, [0x190]);
   (0x2109, [0xB0; 0x46]); (0x210A, [0x67]); (0x210B, [0x48]); (0x210C, [0x48]);
   (0x210D, [0x48]); (0x210E, [0x68]); (0x210F, [0x127]); (0x2110, [0x49]);
   (0x2111, [0x49]); (0x2112, [0x4C]); (0x2113, [0x6C]); (0x2115, [0x4E]);
   (0x2116, [0x4E; 0x6F]); (0x2119, [0x50]); (0x211A, [0x51]); (0x211B, [0x52]);
   (0x211C, [0x52]); (0x211D, [0x52]); (0x2120, [0x53; 0x4D]); (0x2121, [0x54; 0x45; 0x4C]);
   (0x2122, [0x54; 0x4D]); (0x2124, [0x5A]); (0x2126, [0x3A9]); (0x2128, [0x5A]);
   (0x212A, [0x4B]); (0x212B, [0x41; 0x30A]); (0x212C, [0x42]); (0x212D, [0x43]);
   (0x212F, [0x65]); (0x2130, [0x45]); (0x2131, [0x46]); (0x2133, [0x4D]);
   (0x2134, [0x6F]); (0x2135, [0x5D0]); (0x2136, [0x5D1]); (0x2137, [0x5D2]);
   (0x2138, [0x5D3]); (0x2139, [0x69]); (0x213B, [0x46; 0x41; 0x58]); (0x213C, [0x3C0]);
   (0x213D, [0x3B3]); (0x213E, [0x393]); (0x213F, [0x3A0]); (0x2140, [0x2211]);
   (0x2145, [0x44]); (0x2146, [0x64]); (0x2147, [0x65]); (0x2148, [0x69]);
   (0x2149, [0x6A])]%N.

Definition combining_table : list (N * N * N) :=
  [(0x300, 0x314, 230); (0x315, 0x315, 232); (0x316, 0x319, 220); (0x31A, 0x31A, 232); (0x31B, 0x31B, 216);
   (0x31C, 0x320, 220); (0x321, 0x322, 202); (0x323, 0x326, 220); (0x327, 0x328, 202); (0x329, 0x333, 220);
   (0x334, 0x338, 1); (0x339, 0x33C, 220); (0x33D, 0x344, 230); (0x345, 0x345, 240); (0x346, 0x346, 230);
   (0x347, 0x349, 220); (0x34A, 0x34C, 230); (0x34D, 0x34E, 220); (0x350, 0x352, 230); (0x353, 0x356, 220);
   (0x357, 0x357, 230); (0x358, 0x358, 232); (0x359, 0x35A, 220); (0x35B, 0x35B, 230); (0x35C, 0x35C, 233);
   (0x35D, 0x35E, 234); (0x35F, 0x35F, 233); (0x360, 0x361, 234); (0x362, 0x362, 233); (0x363, 0x36F, 230)]%N.

Definition alnum_table : list (N * N) :=
  [(0xAA, 0xAA); (0xB2, 0xB3); (0xB5, 0xB5); (0xB9, 0xBA); (0xBC, 0xBE); (0xC0, 0xD6);
   (0xD8, 0xF6); (0xF8, 0x17F); (0x2102, 0x2102); (0x2107, 0x2107); (0x210A, 0x2113); (0x2115, 0x2115);
   (0x2119, 0x211D); (0x2124, 0x2124); (0x2126, 0x2126); (0x2128, 0x2128); (0x212A, 0x212D); (0x212F, 0x2139);
   (0x213C, 0x213F); (0x2145, 0x2149); (0x214E, 0x214E)]%N.

Definition nonprintable_table : list (N * N) :=
  [(0x80, 0xA0); (0xAD, 0xAD)]%N.

Definition ascii_alnum (c : N) : bool :=
  ((0x30 <=? c) && (c <=? 0x39) || (0x41 <=? c) && (c <=? 0x5A)
   || (0x61 <=? c) && (c <=? 0x7A))%N.

(** The database restricted to [excerpt_blocks]; a code point outside the
    blocks is given the default of every property. *)
Definition ucd_excerpt : UnicodeData := {|
  lowercase c :=
    if (0x41 <=? c)%N && (c <=? 0x5A)%N then [(c + 32)%N]
    else match lookup_table lowercase_table c with Some l => l | None => [c] end;
  decomposition c :=
    match lookup_table decomposition_table c with Some l => l | None => [c] end;
  combining c :=
    match find (fun e => (fst (fst e) <=? c)%N && (c <=? snd (fst e))%N)
               combining_table with
    | Some e => snd e
    | None => 0%N
    end;
  isalnum c := ascii_alnum c || in_ranges alnum_table c;
  isprintable c :=
    negb ((c <? 0x20)%N || (c =? 0x7F)%N || in_ranges nonprintable_table c)
|}.

End Unicode.
Export Unicode.

(** ** Python values, exceptions and effects *)

Module Py.

#[local] Set Warnings "-register-all".

(** The values that reach the module: what [json.loads] produces and what
    a caller passes as a filter.  A float is carried by its [repr], since
    it is only ever printed. *)
Inductive pyval :=
| VNone
| VBool (b : bool)
| VInt (z : Z)
| VFloat (repr : pystr)
| VStr (s : pystr)
| VList (items : list pyval)
| VDict (entries : list (pystr * pyval)).

(** A [dict] with [str] keys, in insertion order. *)
Definition pydict := list (pystr * pyval).

Inductive exn :=
| KeyError
| IndexError
| TypeError
| AttributeError
| UnicodeEncodeError
| JSONDecodeError
| RequestException.

Inductive result (A : Type) :=
| Ok (a : A)
| Raise (e : exn).
Arguments Ok {A} a.
Arguments Raise {A} e.

Definition rbind {A B} (r : result A) (k : A -> result B) : result B :=
  match r with
  | Ok a => k a
  | Raise e => Raise e
  end.

(** What a call does besides returning: entering the autosuggest resolver,
    asking for a URL, writing a log line. *)
Inductive event :=
| EvAutosuggest (region_part : pystr)
| EvHttpGet (url : pystr)
| EvLog (msg : pystr).

(** A computation: the events it performed, then its value or the
    exception it raised. *)
Definition M (A : Type) : Type := list event * result A.

Definition ret {A} (a : A) : M A := ([], Ok a).
Definition lift {A} (r : result A) : M A := ([], r).
Definition emit (e : event) : M unit := ([e], Ok tt).

Definition bind {A B} (m : M A) (k : A -> M B) : M B :=
  match m with
  | (t, Ok a) => let (t', r) := k a in (t ++ t', r)
  | (t, Raise e) => (t, Raise e)
  end.

Definition trace {A} (m : M A) : list event := fst m.
Definition outcome {A} (m : M A) : result A := snd m.

(** *** dict operations *)

(** [key in d]. *)
Definition dict_mem (key : pystr) (d : pydict) : bool :=
  existsb (fun e => str_eqb (fst e) key) d.

(** [d.get(key)] as an option; Python's [None] default is added by
    [dict_get]. *)
Definition dict_lookup (key : pystr) (d : pydict) : option pyval :=
  match find (fun e => str_eqb (fst e) key) d with
  | Some e => Some (snd e)
  | None => None
  end.

Definition dict_get (key : pystr) (d : pydict) : pyval :=
  match dict_lookup key d with
  | Some v => v
  | None => VNone
  end.

(** [d[key]]. *)
Definition dict_getitem (key : pystr) (d : pydict) : result pyval :=
  match dict_lookup key d with
  | Some v => Ok v
  | None => Raise KeyError
  end.

(** [d[key] = v]: an existing key keeps its position, a new one goes last. *)
Fixpoint dict_set (key : pystr) (v : pyval) (d : pydict) : pydict :=
  match d with
  | [] => [(key, v)]
  | (k, w) :: rest =>
    if str_eqb k key then (k, v) :: rest else (k, w) :: dict_set key v rest
  end.

(** *** Subscripts *)

(** [v[0]]. *)
Definition getitem_0 (v : pyval) : result pyval :=
  match v with
  | VList (x :: _) => Ok x
  | VList [] => Raise IndexError
  | VStr (c :: _) => Ok (VStr [c])
  | VStr [] => Raise IndexError
  | VDict _ => Raise KeyError
  | _ => Raise TypeError
  end.

(** [v[key]] for a [str] key. *)
Definition getitem_str (v : pyval) (key : pystr) : result pyval :=
  match v with
  | VDict d => dict_getitem key d
  | _ => Raise TypeError
  end.

(** [l[i]] on a list. *)
Definition list_getitem {A} (l : list A) (i : nat) : result A :=
  match nth_error l i with
  | Some x => Ok x
  | None => Raise IndexError
  end.

(** [v == s] for a [str] literal [s]. *)
Definition eq_str (v : pyval) (s : pystr) : bool :=
  match v with
  | VStr t => str_eqb t s
  | _ => false
  end.

(** *** Printing *)

Section Printing.
Variable db : UnicodeData.

Definition quote_mark (s : pystr) : N :=
  if existsb (N.eqb 39) s && negb (existsb (N.eqb 34) s) then 34%N else 39%N.

Definition repr_char (q c : N) : pystr :=
  if (c =? q)%N || (c =? 92)%N then [92%N; c]
  else if (c =? 9)%N then u "\t"
  else if (c =? 10)%N then u "\n"
  else if (c =? 13)%N then u "\r"
  else if (c <? 0x20)%N || (c =? 0x7F)%N then u "\x" ++ hex_fixed false 2 c
  else if (c <? 0x7F)%N then [c]
  else if isprintable db c then [c]
  else if (c <=? 0xFF)%N then u "\x" ++ hex_fixed false 2 c
  else if (c <=? 0xFFFF)%N then u "\u" ++ hex_fixed false 4 c
  else u "\U" ++ hex_fixed false 8 c.

(** [repr(s)] of a [str]. *)
Definition repr_str (s : pystr) : pystr :=
  let q := quote_mark s in q :: flat_map (repr_char q) s ++ [q].

(** [repr(v)]. *)
Fixpoint py_repr (v : pyval) : pystr :=
  match v with
  | VNone => u "None"
  | VBool true => u "True"
  | VBool false => u "False"
  | VInt z => str_of_Z z
  | VFloat r => r
  | VStr s => repr_str s
  | VList items => u "[" ++ join (u ", ") (map py_repr items) ++ u "]"
  | VDict entries =>
    u "{" ++ join (u ", ")
               (map (fun e => match e with
                              | (k, w) => repr_str k ++ u ": " ++ py_repr w
                              end) entries)
      ++ u "}"
  end.

(** [str(v)], which is also ["{}".format(v)]. *)
Definition py_str (v : pyval) : pystr :=
  match v with
  | VStr s => s
  | _ => py_repr v
  end.

(** [repr(b)] of a [bytes] object, which is what [str(b)] returns. *)
Definition repr_byte (q c : N) : pystr :=
  if (c =? q)%N || (c =? 92)%N then [92%N; c]
  else if (c =? 9)%N then u "\t"
  else if (c =? 10)%N then u "\n"
  else if (c =? 13)%N then u "\r"
  else if (c <? 0x20)%N || (0x7F <=? c)%N then u "\x" ++ hex_fixed false 2 c
  else [c].

Definition repr_bytes (b : list N) : pystr :=
  let q := quote_mark b in 98%N :: q :: flat_map (repr_byte q) b ++ [q].
End Printing.

End Py.
Export Py.

Declare Scope py_scope.
Delimit Scope py_scope with py.
Notation "x <- m ;; k" := (bind m (fun x => k))
  (at level 61, m at next level, right associativity) : py_scope.
Notation "m ;; k" := (bind m (fun _ => k))
  (at level 61, right associativity) : py_scope.
Notation "'let?' x ':=' r 'in' k" := (rbind r (fun x => k))
  (at level 10, x name, k at level 200) : py_scope.
Open Scope py_scope.

(** ** Regular expressions

    The fragment of [re] that the CSRF pattern uses, with the backtracking
    semantics of the [re] engine: alternatives are tried left to right,
    repetition is greedy, a group remembers its last match. *)

Module Re.

Inductive regex :=
| Eps
| Class (p : N -> bool)
| Seq (a b : regex)
| Alt (a b : regex)
| Star (a : regex)
| Group (index : nat) (a : regex).

Definition Plus (a : regex) : regex := Seq a (Star a).

Definition Lit (s : pystr) : regex :=
  fold_right (fun c r => Seq (Class (N.eqb c)) r) Eps s.

(** The groups matched so far, latest first. *)
Definition captures := list (nat * pystr).

Definition cont := pystr -> captures -> option captures.

(** Greedy repetition of [step]: one more iteration first, then the rest
    of the pattern.  An iteration has to consume input, so [fuel], the
    length of the remaining input, is never exhausted. *)
Fixpoint star_loop (step : pystr -> captures -> cont -> option captures)
    (fuel : nat) (s : pystr) (cs : captures) (k : cont) : option captures :=
  match fuel with
  | O => k s cs
  | S n =>
    match step s cs (fun s' cs' =>
            if List.length s' <? List.length s
            then star_loop step n s' cs' k else None) with
    | Some m => Some m
    | None => k s cs
    end
  end.

Fixpoint run (r : regex) (s : pystr) (cs : captures) (k : cont)
    {struct r} : option captures :=
  match r with
  | Eps => k s cs
  | Class p =>
    match s with
    | c :: t => if p c then k t cs else None
    | [] => None
    end
  | Seq a b => run a s cs (fun s' cs' => run b s' cs' k)
  | Alt a b =>
    match run a s cs k with
    | Some m => Some m
    | None => run b s cs k
    end
  | Star a => star_loop (run a) (List.length s) s cs k
  | Group i a =>
    run a s cs (fun s' cs' =>
      k s' ((i, firstn (List.length s - List.length s') s) :: cs'))
  end.

(** [re.match(r, s)]: a match anchored at the start of [s]. *)
Definition re_match (r : regex) (s : pystr) : option captures :=
  run r s [] (fun _ cs => Some cs).

(** [m.group(i)], [None] for a group that took no part in the match. *)
Definition group (i : nat) (m : captures) : option pystr :=
  match find (fun e => Nat.eqb (fst e) i) m with
  | Some e => Some (snd e)
  | None => None
  end.

End Re.
Export Re.

(** ** [otodom/utils.py] *)

(** The collaborators of the module. *)
Record Env := {
  (** the Unicode character database of the interpreter *)
  ucd : UnicodeData;
  (** [otodom.BASE_URL] *)
  BASE_URL : pystr;
  (** [requests.get(url).text], or the exception the request raises *)
  http_get : pystr -> result pystr;
  (** [json.loads] *)
  json_loads : pystr -> result pyval
}.

Definition REGION_DATA_KEYS : list pystr :=
  [u "city"; u "voivodeship"; u "[district_id]"; u "[street_id]"].

(** [replace_all(text, dic)]. *)
Definition replace_all (text : pystr) (dic : list (pystr * pystr)) : pystr :=
  fold_left (fun text e => replace (fst e) (snd e) text) dic text.

(** [normalize_text(text)]. *)
Definition normalize_text (db : UnicodeData) (text : pystr) : pystr :=
  replace (u " ") (u "-")
    (utf8_decode (encode_ascii_ignore (nfkd db (lower db text)))).

(** [get_response_for_url(url)].  The [caching] decorator belongs to
    another package; the call is recorded whether or not it is served from
    a cache. *)
Definition get_response_for_url (E : Env) (url : pystr) : M pystr :=
  emit (EvHttpGet url) ;; lift (http_get E url).

Definition autosuggest_url : pystr :=
  u "https://www.otodom.pl/ajax/geo6/autosuggest/?data=".

(** Line 55: both [strong] tags are replaced by the empty string in
    [response["text"]], and the result is split at [", "]. *)
Definition strip_and_split (v : pyval) : result (list pystr) :=
  match v with
  | VStr s =>
    Ok (split (u ", ") (replace (u "</strong>") [] (replace (u "<strong>") [] s)))
  | _ => Raise AttributeError
  end.

(** ["{0}{1}{2}".format(normalize_text(text[i]), "_", response["city_id"])]. *)
Definition city_slug (E : Env) (response : pyval) (text : list pystr) (i : nat)
    : result pyval :=
  let? name := list_getitem text i in
  let? city_id := getitem_str response (u "city_id") in
  Ok (VStr (normalize_text (ucd E) name ++ u "_" ++ py_str (ucd E) city_id)).

(** Lines 54 to 70 of [get_region_from_autosuggest]: the region read off
    the first suggestion. *)
Definition region_of_response (E : Env) (response : pyval) : result pydict :=
  let? region_type := getitem_str response (u "level") in
  let? raw := getitem_str response (u "text") in
  let? text := strip_and_split raw in
  let region_dict : pydict := [] in
  if eq_str region_type (u "CITY") then
    let? city := city_slug E response text 0 in
    Ok (dict_set (u "city") city region_dict)
  else if eq_str region_type (u "DISTRICT") then
    let? city := city_slug E response text 1 in
    let region_dict := dict_set (u "city") city region_dict in
    let? district_id := getitem_str response (u "district_id") in
    Ok (dict_set (u "[district_id]") district_id region_dict)
  else if eq_str region_type (u "REGION") then
    let? name := list_getitem text 0 in
    Ok (dict_set (u "voivodeship") (VStr (normalize_text (ucd E) name))
                 region_dict)
  else if eq_str region_type (u "STREET") then
    let? city := city_slug E response text 0 in
    let region_dict := dict_set (u "city") city region_dict in
    let? street_id := getitem_str response (u "street_id") in
    Ok (dict_set (u "[street_id]") street_id region_dict)
  else Ok region_dict.

(** [get_region_from_autosuggest(region_part)]. *)
Definition get_region_from_autosuggest (E : Env) (region_part : pystr)
    : M pydict :=
  emit (EvAutosuggest region_part) ;;
  match region_part with
  | [] => ret []
  | _ :: _ =>
    let url := autosuggest_url ++ region_part in
    body <- get_response_for_url E url ;;
    lift (
      let? doc := json_loads E body in
      let? response := getitem_0 doc in
      region_of_response E response)
  end.

(** [get_region_from_filters(filters)]: the dict comprehension inserts the
    recognised keys in the order of [REGION_DATA_KEYS]. *)
Definition get_region_from_filters (filters : pydict) : pydict :=
  fold_left
    (fun region_dict region_data =>
       if dict_mem region_data filters
       then dict_set region_data (dict_get region_data filters) region_dict
       else region_dict)
    REGION_DATA_KEYS [].

(** *** [urllib.parse.quote] *)

(** [s.encode('utf-8')]; a surrogate cannot be encoded. *)
Definition utf8_encode_char (c : N) : result (list N) :=
  if (c <? 0x80)%N then Ok [c]
  else if (c <? 0x800)%N then Ok [0xC0 + c / 64; 0x80 + c mod 64]%N
  else if (c <? 0x10000)%N then
    if (0xD800 <=? c)%N && (c <=? 0xDFFF)%N then Raise UnicodeEncodeError
    else Ok [0xE0 + c / 4096; 0x80 + (c / 64) mod 64; 0x80 + c mod 64]%N
  else Ok [0xF0 + c / 262144; 0x80 + (c / 4096) mod 64;
           0x80 + (c / 64) mod 64; 0x80 + c mod 64]%N.

Fixpoint utf8_encode (s : pystr) : result (list N) :=
  match s with
  | [] => Ok []
  | c :: t =>
    let? bs := utf8_encode_char c in
    let? rest := utf8_encode t in
    Ok (bs ++ rest)
  end.

(** The bytes [quote] leaves alone: letters, digits, [_.-~] and the
    default [safe='/']. *)
Definition quote_safe (b : N) : bool :=
  ascii_alnum b || existsb (N.eqb b) (u "_.-~/").

Definition quote_byte (b : N) : pystr :=
  if quote_safe b then [b] else 37%N :: hex_fixed true 2 b.

(** [quote(s)]. *)
Definition quote (s : pystr) : result pystr :=
  let? bs := utf8_encode s in Ok (flat_map quote_byte bs).

(** *** [get_url] *)

(** The inner loop [for item in value: filter_list.append(...)]. *)
Fixpoint append_items (db : UnicodeData) (key : pystr) (items : list pyval)
    (filter_list : list pystr) : result (list pystr) :=
  match items with
  | [] => Ok filter_list
  | item :: rest =>
    let? k := quote key in
    append_items db key rest
      (filter_list ++ [u "search" ++ k ++ u "=" ++ py_str db item])
  end.

(** The loop [for key, value in filters.items()]. *)
Fixpoint append_filters (db : UnicodeData) (entries : pydict)
    (filter_list : list pystr) : result (list pystr) :=
  match entries with
  | [] => Ok filter_list
  | (key, value) :: rest =>
    match value with
    | VList items =>
      let? filter_list := append_items db key items filter_list in
      append_filters db rest filter_list
    | _ =>
      let? k := quote key in
      append_filters db rest
        (filter_list ++ [u "search" ++ k ++ u "=" ++ py_str db value])
    end
  end.

(** [sep.join(values)]: every element has to be a [str]. *)
Fixpoint join_values (values : list pyval) : result (list pystr) :=
  match values with
  | [] => Ok []
  | VStr s :: rest => let? l := join_values rest in Ok (s :: l)
  | _ :: _ => Raise TypeError
  end.

(** Lines 110 and 111: the location segment of the path. *)
Definition city_or_voivodeship (region_data : pydict) : result pyval :=
  if dict_mem (u "city") region_data
  then dict_getitem (u "city") region_data
  else if dict_mem (u "voivodeship") region_data
  then dict_getitem (u "voivodeship") region_data
  else Ok (VStr []).

(** Lines 113 to 117: the district and street ids of the resolved region
    are written into the filters. *)
Definition promote_ids (region_data filters : pydict) : result pydict :=
  let? filters :=
    if dict_mem (u "[district_id]") region_data
    then let? v := dict_getitem (u "[district_id]") region_data in
         Ok (dict_set (u "[district_id]") v filters)
    else Ok filters in
  if dict_mem (u "[street_id]") region_data
  then let? v := dict_getitem (u "[street_id]") region_data in
       Ok (dict_set (u "[street_id]") v filters)
  else Ok filters.

(** Lines 119 to 128: base url, categories and location joined with [/],
    then the building type and the description fragment. *)
Definition url_path (E : Env) (main_category detail_category : pystr)
    (location : pyval) (filters : pydict) : result pystr :=
  let? parts :=
    join_values [VStr (BASE_URL E); VStr main_category; VStr detail_category;
                 location] in
  let url := join (u "/") parts in
  let? url :=
    if dict_mem (u "building_type") filters
    then let? v := dict_getitem (u "building_type") filters in
         match v with
         | VStr b => Ok (url ++ u "/" ++ b)
         | _ => Raise TypeError
         end
    else Ok url in
  if dict_mem (u "description_fragment") filters
  then let? v := dict_getitem (u "description_fragment") filters in
       match v with
       | VStr d => Ok (url ++ u "/q-" ++ join (u "-") (split_ws d))
       | _ => Raise AttributeError
       end
  else Ok url.

(** Lines 110 to 139 of [get_url]: everything between the resolution of
    the region and the log line.  [page] is already the page fragment. *)
Definition build_url (E : Env) (main_category detail_category : pystr)
    (ads_per_page page : pystr) (filters region_data : pydict)
    : result pystr :=
  let? location := city_or_voivodeship region_data in
  let? filters := promote_ids region_data filters in
  let? url := url_path E main_category detail_category location filters in
  let? filter_list := append_filters (ucd E) filters [] in
  Ok (url ++ join (u "&") (ads_per_page :: page :: filter_list)).

(** Line 102: ["page={0}".format(page)], or the empty string when [page]
    is [None]. *)
Definition page_fragment (db : UnicodeData) (page : pyval) : pystr :=
  match page with
  | VNone => []
  | _ => u "page=" ++ py_str db page
  end.

(** [any([region_key in filters for region_key in REGION_DATA_KEYS])]. *)
Definition has_region_key (filters : pydict) : bool :=
  existsb (fun region_key => dict_mem region_key filters) REGION_DATA_KEYS.

(** Lines 110 to 141 of [get_url], for a resolved region. *)
Definition finish_url (E : Env) (main_category detail_category : pystr)
    (ads_per_page : pystr) (page : pyval) (filters region_data : pydict)
    : M pystr :=
  url <- lift (build_url E main_category detail_category ads_per_page
                         (page_fragment (ucd E) page) filters region_data) ;;
  emit (EvLog url) ;;
  ret url.

(** [get_url(main_category, detail_category, region, ads_per_page, page,
    **filters)]. *)
Definition get_url (E : Env) (main_category detail_category region : pystr)
    (ads_per_page : pystr) (page : pyval) (filters : pydict) : M pystr :=
  region_data <-
    (if has_region_key filters
     then ret (get_region_from_filters filters)
     else get_region_from_autosuggest E region) ;;
  finish_url E main_category detail_category ads_per_page page filters
             region_data.

(** *** [get_csrf_token] *)

(** The argument of [get_csrf_token]: body text, or the [bytes] of
    [response.content]. *)
Inductive content :=
| Text (s : pystr)
| Bytes (b : list N).

(** [str(html_content)]. *)
Definition str_of_content (c : content) : pystr :=
  match c with
  | Text s => s
  | Bytes b => repr_bytes b
  end.

Definition any_char : regex := Class (fun c => negb (c =? 10)%N).
Definition space_char : regex := Class isspace.
Definition word_char (db : UnicodeData) : regex :=
  Class (fun c => isalnum db c || (c =? 95)%N).

(** [r".*csrfToken\s+=(\\|\s)+'(?P<csrf_token>\w+).*"]. *)
Definition csrf_pattern (db : UnicodeData) : regex :=
  Seq (Star any_char)
  (Seq (Lit (u "csrfToken"))
  (Seq (Plus space_char)
  (Seq (Lit (u "="))
  (Seq (Plus (Group 1 (Alt (Class (N.eqb 92)) space_char)))
  (Seq (Lit (u "'"))
  (Seq (Group 2 (Plus (word_char db)))
       (Star any_char))))))).

(** [get_csrf_token(html_content)]; [found.groupdict()] has the single key
    [csrf_token], bound to group 2. *)
Definition get_csrf_token (db : UnicodeData) (html_content : content)
    : result (option pystr) :=
  match re_match (csrf_pattern db) (str_of_content html_content) with
  | None => Raise AttributeError
  | Some found => Ok (group 2 found)
  end.

(** ** Concrete collaborators

    The closed statements of Part II run the module against these. *)

(** The address of the site, standing in for [otodom.BASE_URL]. *)
Definition otodom_url : pystr := u "https://www.otodom.pl".

Definition dquote (s : pystr) : pystr := 34%N :: s ++ [34%N].

(** The JSON text of a value whose strings need no escaping. *)
Fixpoint dumps (v : pyval) : pystr :=
  match v with
  | VNone => u "null"
  | VBool true => u "true"
  | VBool false => u "false"
  | VInt z => str_of_Z z
  | VFloat r => r
  | VStr s => dquote s
  | VList items => u "[" ++ join (u ", ") (map dumps items) ++ u "]"
  | VDict entries =>
    u "{" ++ join (u ", ")
               (map (fun e => match e with
                              | (k, w) => dquote k ++ u ": " ++ dumps w
                              end) entries)
      ++ u "}"
  end.

(** An interpreter whose network is down. *)
Definition offline : Env := {|
  ucd := ucd_excerpt;
  BASE_URL := otodom_url;
  http_get := fun _ => Raise RequestException;
  json_loads := fun _ => Raise JSONDecodeError
|}.

(** An interpreter whose autosuggest endpoint answers every request with
    the JSON text of [doc]. *)
Definition answering (doc : pyval) : Env := {|
  ucd := ucd_excerpt;
  BASE_URL := otodom_url;
  http_get := fun _ => Ok (dumps doc);
  json_loads := fun body =>
    if str_eqb body (dumps doc) then Ok doc else Raise JSONDecodeError
|}.

(** Filters with a list value, and the URL they give for flats on sale
    with the network down. *)
Definition rooms_filters : pydict :=
  [(u "city", VStr (u "warszawa_1")); (u "[rooms]", VList [VInt 1; VInt 2])].

Definition rooms_url : pystr :=
  u "https://www.otodom.pl/sprzedaz/mieszkanie/warszawa_1&&searchcity=warszawa_1&search%5Brooms%5D=1&search%5Brooms%5D=2".

(** The first suggestion for a query that names a country. *)
Definition country_suggestion : pyval :=
  VDict [(u "level", VStr (u "COUNTRY")); (u "text", VStr (u "Polska"))].

(** A suggestion for a district that lacks its [district_id]. *)
Definition district_suggestion : pyval :=
  VDict [(u "level", VStr (u "DISTRICT"));
         (u "text", VStr (u "<strong>Wola</strong>, Warszawa, mazowieckie"));
         (u "city_id", VInt 26)].

(** ** Vocabulary of the statements *)

(** [key] is one of the four recognised region keys. *)
Definition is_region_key (key : pystr) : bool :=
  existsb (str_eqb key) REGION_DATA_KEYS.

(** The event leaves the module: the resolver is entered or a URL is
    requested. *)
Definition is_lookup (e : event) : bool :=
  match e with
  | EvLog _ => false
  | _ => true
  end.

(** One query fragment, for a key that is already escaped. *)
Definition fragment (db : UnicodeData) (k : pystr) (v : pyval) : pystr :=
  u "search" ++ k ++ u "=" ++ py_str db v.

(** The values an entry contributes: the elements of a list, or the value
    itself. *)
Definition entry_values (v : pyval) : list pyval :=
  match v with
  | VList items => items
  | _ => [v]
  end.

(** [fs] are the fragments of the entry [e]: one per value, each with the
    escaped key. *)
Definition expands (db : UnicodeData) (e : pystr * pyval) (fs : list pystr)
    : Prop :=
  exists k, (entry_values (snd e) = [] \/ quote (fst e) = Ok k)
            /\ fs = map (fragment db k) (entry_values (snd e)).

(** The first suggestion the endpoint returns for a fragment:
    [json.loads(get_response_for_url(url).text)[0]]. *)
Definition first_suggestion (E : Env) (region_part : pystr) : result pyval :=
  let? body := http_get E (autosuggest_url ++ region_part) in
  let? doc := json_loads E body in
  getitem_0 doc.

(** [level] is one of [CITY], [DISTRICT], [REGION], [STREET]. *)
Definition known_level (level : pyval) : bool :=
  eq_str level (u "CITY") || eq_str level (u "DISTRICT")
  || eq_str level (u "REGION") || eq_str level (u "STREET").

(** The branch of [level] reads [city_id]. *)
Definition reads_city_id (level : pyval) : bool :=
  eq_str level (u "CITY") || eq_str level (u "DISTRICT")
  || eq_str level (u "STREET").

(** A suggestion from which no region can be read: a field that the code
    reaches is missing or has the wrong shape. *)
Inductive unusable (response : pyval) : Prop :=
| no_level e :
    getitem_str response (u "level") = Raise e -> unusable response
| no_text e :
    getitem_str response (u "text") = Raise e -> unusable response
| text_not_str v :
    getitem_str response (u "text") = Ok v -> (forall s, v <> VStr s) ->
    unusable response
| no_city_id level e :
    getitem_str response (u "level") = Ok level ->
    reads_city_id level = true ->
    getitem_str response (u "city_id") = Raise e -> unusable response
| no_district_id level e :
    getitem_str response (u "level") = Ok level ->
    eq_str level (u "DISTRICT") = true ->
    getitem_str response (u "district_id") = Raise e -> unusable response
| no_street_id level e :
    getitem_str response (u "level") = Ok level ->
    eq_str level (u "STREET") = true ->
    getitem_str response (u "street_id") = Raise e -> unusable response
| no_city_component level raw text :
    getitem_str response (u "level") = Ok level ->
    eq_str level (u "DISTRICT") = true ->
    getitem_str response (u "text") = Ok raw ->
    strip_and_split raw = Ok text ->
    List.length text < 2 -> unusable response.

(** Every match of [r] binds group [i]: a syntactic criterion. *)
Fixpoint binds (i : nat) (r : regex) : bool :=
  match r with
  | Eps | Class _ | Star _ => false
  | Seq a b => binds i a || binds i b
  | Alt a b => binds i a && binds i b
  | Group j a => Nat.eqb j i || binds i a
  end.

(** Group [i] is bound in [m]. *)
Definition bound (i : nat) (m : captures) : Prop :=
  exists x, group i m = Some x.

(** A continuation is reached with what is left of the input and with the
    groups bound on the way. *)
Definition reaches (r : regex) (s : pystr) (cs : captures) (k : cont)
    (m : captures) : Prop :=
  exists s' pre,
    k s' (pre ++ cs) = Some m
    /\ (exists p, s = p ++ s')
    /\ (forall i, binds i r = true -> bound i pre).

(** An ASCII capital letter. *)
Definition is_capital (c : N) : bool := ((0x41 <=? c) && (c <=? 0x5A))%N.

(** What every version of the Unicode database says about ASCII: no
    decomposition, combining class zero, and [A-Z] the only code points
    that [str.lower] changes. *)
Definition ascii_faithful (db : UnicodeData) : Prop :=
  forall c, (c < 128)%N ->
    decomposition db c = [c]
    /\ combining db c = 0%N
    /\ lowercase db c = [if is_capital c then (c + 32)%N else c].

(** The value of [key], when the filters have it, is a [str]. *)
Definition str_valued (key : pystr) (filters : pydict) : Prop :=
  forall v, dict_lookup key filters = Some v -> exists s, v = VStr s.

(** ** [get_cookie_from] *)

(** A [requests] response as [get_cookie_from] reads it:
    [response.headers[name]], absent for a header the response lacks. *)
Record Response := {
  headers : pystr -> option pystr
}.

(** [get_cookie_from(response)]. *)
Definition get_cookie_from (response : Response) : result pystr :=
  let? header :=
    match headers response (u "Set-Cookie") with
    | Some h => Ok h
    | None => Raise KeyError
    end in
  list_getitem (split (u ";") header) 0.

(** ** Further vocabulary *)

(** [old] occurs in [s]. *)
Definition occurs (old s : pystr) : Prop :=
  exists p q, s = p ++ old ++ q.

(** What [normalize_text] does to one ASCII character. *)
Definition ascii_slug_char (c : N) : N :=
  if is_capital c then (c + 32)%N
  else if (c =? 32)%N then 45%N else c.

(** The replacements of [dic] applied in turn to one character, for a
    [dic] whose keys and values are single characters. *)
Definition substitute (dic : list (pystr * pystr)) (c : N) : N :=
  fold_left (fun c e =>
               match fst e, snd e with
               | [k], [v] => if (k =? c)%N then v else c
               | _, _ => c
               end) dic c.

(** Key and value of the entry are single characters. *)
Definition single_chars (e : pystr * pystr) : Prop :=
  List.length (fst e) = 1 /\ List.length (snd e) = 1.

(** A response whose only header is [Set-Cookie]. *)
Definition cookie_response (value : pystr) : Response := {|
  headers := fun name =>
    if str_eqb name (u "Set-Cookie") then Some value else None
|}.

(** The entry of [key] in [filters], as a list of no or one entry. *)
Definition entry_of (filters : pydict) (key : pystr) : pydict :=
  match dict_lookup key filters with
  | Some v => [(key, v)]
  | None => []
  end.

(** The five shapes of the mapping that the autosuggest resolver can
    return. *)
Inductive region_shape : pydict -> Prop :=
| shape_empty : region_shape []
| shape_city s : region_shape [(u "city", VStr s)]
| shape_district s v :
    region_shape [(u "city", VStr s); (u "[district_id]", v)]
| shape_voivodeship s : region_shape [(u "voivodeship", VStr s)]
| shape_street s v :
    region_shape [(u "city", VStr s); (u "[street_id]", v)].

(** The same filters, passed in two different orders. *)
Definition filters_city_first : pydict :=
  [(u "city", VStr (u "warszawa_1")); (u "[rooms]", VInt 2);
   (u "[district_id]", VInt 39)].

Definition filters_city_last : pydict :=
  [(u "[district_id]", VInt 39); (u "[rooms]", VInt 2);
   (u "city", VStr (u "warszawa_1"))].

(** A suggestion for a city, as the endpoint marks the matched part. *)
Definition city_suggestion : pyval :=
  VDict [(u "level", VStr (u "CITY"));
         (u "text", VStr (u "<strong>War</strong>szawa, mazowieckie"));
         (u "city_id", VInt 26)].

Definition warszawa_region : pydict := [(u "city", VStr (u "warszawa_26"))].

(** The lines a computation logged. *)
Definition log_lines (t : list event) : list pystr :=
  flat_map (fun e => match e with EvLog msg => [msg] | _ => [] end) t.

(** The URLs a computation requested. *)
Definition http_requests (t : list event) : list pystr :=
  flat_map (fun e => match e with EvHttpGet url => [url] | _ => [] end) t.

(** The value is not a [str]. *)
Definition not_str (v : pyval) : Prop := forall s, v <> VStr s.

(** The value is not a [list]. *)
Definition not_list (v : pyval) : Prop := forall items, v <> VList items.

(** The location segment that filters with string values give: the city,
    else the voivodeship, else nothing. *)
Definition location_of (filters : pydict) : pystr :=
  match dict_lookup (u "city") filters with
  | Some (VStr c) => c
  | Some _ => []
  | None =>
    match dict_lookup (u "voivodeship") filters with
    | Some (VStr v) => v
    | _ => []
    end
  end.

(** The path segments after the location: building type, then description
    fragment. *)
Definition path_segments (filters : pydict) : pystr :=
  match dict_lookup (u "building_type") filters with
  | Some (VStr b) => u "/" ++ b
  | _ => []
  end
  ++ match dict_lookup (u "description_fragment") filters with
     | Some (VStr d) => u "/q-" ++ join (u "-") (split_ws d)
     | _ => []
     end.

(** Filters for blocks of flats near the underground in Warsaw. *)
Definition blok_filters : pydict :=
  [(u "city", VStr (u "warszawa_1")); (u "voivodeship", VStr (u "mazowieckie"));
   (u "building_type", VStr (u "blok"));
   (u "description_fragment", VStr (u " blisko  metra "))].

Definition blok_url : pystr :=
  u "https://www.otodom.pl/sprzedaz/mieszkanie/warszawa_1/blok/q-blisko-metra?nrAdsPerPage=72&page=2&searchcity=warszawa_1&searchvoivodeship=mazowieckie&searchbuilding_type=blok&searchdescription_fragment= blisko  metra ".

(** Filters whose building type is a list. *)
Definition bad_building_filters : pydict :=
  [(u "city", VStr (u "warszawa_1"));
   (u "building_type", VList [VStr (u "blok"); VStr (u "dom")])].

(** A suggestion for a district, complete. *)
Definition wola_suggestion : pyval :=
  VDict [(u "level", VStr (u "DISTRICT"));
         (u "text", VStr (u "<strong>Wola</strong>, Warszawa, mazowieckie"));
         (u "city_id", VInt 26);
         (u "district_id", VInt 117)].

Definition wola_url : pystr :=
  u "https://www.otodom.pl/wynajem/mieszkanie/warszawa_26&&search%5Brooms%5D=2&search%5Bdistrict_id%5D=117".

(** An interpreter whose endpoint suggests the district Wola. *)
Definition wola_env : Env := answering (VList [wola_suggestion]).

(** Line 55 without the split: the text with both [strong] tags removed. *)
Definition strip_tags (s : pystr) : pystr :=
  replace (u "</strong>") [] (replace (u "<strong>") [] s).

(** A piece of text without [<] and without a comma. *)
Definition plain (s : pystr) : Prop := ~ In 60%N s /\ ~ In 44%N s.

(** A name in which the endpoint has marked the part [mid]. *)
Definition marked (pre mid post : pystr) : pystr :=
  pre ++ u "<strong>" ++ mid ++ u "</strong>" ++ post.

(** An interpreter whose endpoint suggests the city of Warsaw. *)
Definition warszawa_env : Env := answering (VList [city_suggestion]).

(** Greedy repetition of one character class followed by [k]: the longest
    run is tried first, then the shorter ones. *)
Fixpoint greedy (p : N -> bool) (s : pystr) (cs : captures) (k : cont)
    : option captures :=
  match s with
  | [] => k [] cs
  | c :: t =>
    if p c then
      match greedy p t cs k with
      | Some m => Some m
      | None => k s cs
      end
    else k s cs
  end.

(** The classes of [.] and of [\w]. *)
Definition any_class (c : N) : bool := negb (c =? 10)%N.

Definition word_class (db : UnicodeData) (c : N) : bool :=
  isalnum db c || (c =? 95)%N.

(** The parts of the CSRF pattern after its first [.*]. *)
Definition csrf_separator : regex :=
  Group 1 (Alt (Class (N.eqb 92)) space_char).

Definition csrf_token_group (db : UnicodeData) : regex :=
  Seq (Group 2 (Plus (word_char db))) (Star any_char).

Definition csrf_assignment (db : UnicodeData) : regex :=
  Seq (Lit (u "csrfToken"))
  (Seq (Plus space_char)
  (Seq (Lit (u "="))
  (Seq (Plus csrf_separator)
  (Seq (Lit (u "'")) (csrf_token_group db))))).

(** A character that [(\\|\s)] accepts. *)
Definition separator_char (c : N) : Prop := c = 92%N \/ isspace c = true.

(** A byte that [repr] prints as itself, whichever quote it chooses. *)
Definition plain_byte (c : N) : bool :=
  (32 <=? c)%N && (c <? 127)%N
  && negb (c =? 34)%N && negb (c =? 39)%N && negb (c =? 92)%N.

(** The characters that follow the backslash of an escape in the [repr] of
    [bytes] quoted with [q]. *)
Definition escape_char (q ch : N) : Prop :=
  (ch = q \/ ch = 92 \/ ch = 116 \/ ch = 110 \/ ch = 114 \/ ch = 120
   \/ 48 <= ch <= 57 \/ 97 <= ch <= 102)%N.

(* ===================================================================== *)
(** * Part II.  Properties                                                *)
(* ===================================================================== *)

(** ** Strings and dicts *)

Lemma str_eqb_eq (a b : pystr) : str_eqb a b = true <-> a = b.
Proof.
  revert b; induction a as [|x a IH]; intros [|y b]; simpl;
    try (split; [discriminate | discriminate]); try tauto.
  rewrite andb_true_iff, N.eqb_eq, IH.
  split; [intros [-> ->]; reflexivity | intros H; inversion H; auto].
Qed.

Lemma str_eqb_refl (a : pystr) : str_eqb a a = true.
Proof. apply str_eqb_eq; reflexivity. Qed.

Lemma str_eqb_sym (a b : pystr) : str_eqb a b = str_eqb b a.
Proof.
  destruct (str_eqb a b) eqn:Hab, (str_eqb b a) eqn:Hba; try reflexivity.
  - apply str_eqb_eq in Hab; subst. rewrite str_eqb_refl in Hba; discriminate.
  - apply str_eqb_eq in Hba; subst. rewrite str_eqb_refl in Hab; discriminate.
Qed.

Lemma str_eqb_neq (a b : pystr) : str_eqb a b = false <-> a <> b.
Proof.
  split.
  - intros H ->. rewrite str_eqb_refl in H; discriminate.
  - intros H. destruct (str_eqb a b) eqn:E; [|reflexivity].
    apply str_eqb_eq in E; contradiction.
Qed.

Lemma dict_lookup_set (key k : pystr) (v : pyval) (d : pydict) :
  dict_lookup key (dict_set k v d) =
  if str_eqb k key then Some v else dict_lookup key d.
Proof.
  unfold dict_lookup.
  induction d as [|[k0 w] rest IH]; simpl.
  - destruct (str_eqb k key); reflexivity.
  - destruct (str_eqb k0 k) eqn:E0; simpl.
    + apply str_eqb_eq in E0; subst k0.
      destruct (str_eqb k key); reflexivity.
    + destruct (str_eqb k0 key) eqn:E1; simpl.
      * apply str_eqb_eq in E1; subst k0.
        rewrite str_eqb_sym, E0; reflexivity.
      * exact IH.
Qed.

Lemma dict_mem_lookup (key : pystr) (d : pydict) :
  dict_mem key d = true -> dict_lookup key d = Some (dict_get key d).
Proof.
  unfold dict_mem, dict_get, dict_lookup.
  induction d as [|[k0 w] rest IH]; simpl; [discriminate|].
  destruct (str_eqb k0 key); simpl; auto.
Qed.

Lemma dict_not_mem_lookup (key : pystr) (d : pydict) :
  dict_mem key d = false -> dict_lookup key d = None.
Proof.
  unfold dict_mem, dict_lookup.
  induction d as [|[k0 w] rest IH]; simpl; [reflexivity|].
  destruct (str_eqb k0 key); simpl; [discriminate | auto].
Qed.

Lemma dict_lookup_mem (key : pystr) (d : pydict) (v : pyval) :
  dict_lookup key d = Some v -> dict_mem key d = true.
Proof.
  intros H. destruct (dict_mem key d) eqn:E; [reflexivity|].
  rewrite (dict_not_mem_lookup _ _ E) in H; discriminate.
Qed.

(** Writing the value a key already has changes nothing. *)
Lemma dict_set_same (key : pystr) (v : pyval) (d : pydict) :
  dict_lookup key d = Some v -> dict_set key v d = d.
Proof.
  unfold dict_lookup.
  induction d as [|[k0 w] rest IH]; simpl; [discriminate|].
  destruct (str_eqb k0 key) eqn:E; simpl.
  - intros H; inversion H; reflexivity.
  - intros H. rewrite (IH H); reflexivity.
Qed.

(** Writing a new key appends it. *)
Lemma dict_set_fresh (key : pystr) (v : pyval) (d : pydict) :
  dict_mem key d = false -> dict_set key v d = d ++ [(key, v)].
Proof.
  unfold dict_mem.
  induction d as [|[k0 w] rest IH]; simpl; [reflexivity|].
  destruct (str_eqb k0 key); simpl; [discriminate|].
  intros H. rewrite (IH H); reflexivity.
Qed.

Lemma dict_mem_app (key : pystr) (d d' : pydict) :
  dict_mem key (d ++ d') = dict_mem key d || dict_mem key d'.
Proof. unfold dict_mem. apply existsb_app. Qed.

(** ** Region from the filters *)

Lemma lookup_region_from_filters (filters : pydict) (key : pystr) :
  dict_lookup key (get_region_from_filters filters) =
  if is_region_key key then dict_lookup key filters else None.
Proof.
  unfold get_region_from_filters, is_region_key, REGION_DATA_KEYS.
  cbn [fold_left existsb].
  rewrite !(str_eqb_sym key).
  destruct (dict_mem (u "city") filters) eqn:M1,
           (dict_mem (u "voivodeship") filters) eqn:M2,
           (dict_mem (u "[district_id]") filters) eqn:M3,
           (dict_mem (u "[street_id]") filters) eqn:M4;
    rewrite ?dict_lookup_set;
    destruct (str_eqb (u "[street_id]") key) eqn:E4;
    try (apply str_eqb_eq in E4; subst key;
         first [ rewrite (dict_mem_lookup _ _ M4)
               | rewrite (dict_not_mem_lookup _ _ M4) ];
         rewrite ?orb_true_r; reflexivity);
    destruct (str_eqb (u "[district_id]") key) eqn:E3;
    try (apply str_eqb_eq in E3; subst key;
         first [ rewrite (dict_mem_lookup _ _ M3)
               | rewrite (dict_not_mem_lookup _ _ M3) ];
         rewrite ?orb_true_r; reflexivity);
    destruct (str_eqb (u "voivodeship") key) eqn:E2;
    try (apply str_eqb_eq in E2; subst key;
         first [ rewrite (dict_mem_lookup _ _ M2)
               | rewrite (dict_not_mem_lookup _ _ M2) ];
         rewrite ?orb_true_r; reflexivity);
    destruct (str_eqb (u "city") key) eqn:E1;
    try (apply str_eqb_eq in E1; subst key;
         first [ rewrite (dict_mem_lookup _ _ M1)
               | rewrite (dict_not_mem_lookup _ _ M1) ];
         rewrite ?orb_true_r; reflexivity);
    reflexivity.
Qed.

(** C3.  [get_region_from_filters] returns the restriction of the filters
    to the four recognised region keys: a recognised key is bound in the
    result exactly as it is in the filters, no other key is bound, and no
    key is bound twice.  On [{"city": "warszawa_1", "unused": "x"}] the
    result is [{"city": "warszawa_1"}]. *)
Theorem get_region_from_filters_restriction (filters : pydict) :
  (forall key,
      dict_lookup key (get_region_from_filters filters) =
      if is_region_key key then dict_lookup key filters else None)
  /\ NoDup (map fst (get_region_from_filters filters))
  /\ get_region_from_filters
       [(u "city", VStr (u "warszawa_1")); (u "unused", VStr (u "x"))]
     = [(u "city", VStr (u "warszawa_1"))].
Proof.
  split; [intros key; apply lookup_region_from_filters|].
  split; [|reflexivity].
  unfold get_region_from_filters, REGION_DATA_KEYS.
  cbn [fold_left].
  destruct (dict_mem (u "city") filters),
           (dict_mem (u "voivodeship") filters),
           (dict_mem (u "[district_id]") filters),
           (dict_mem (u "[street_id]") filters);
    cbn; repeat constructor; cbn; intuition discriminate.
Qed.

(** ** Effects *)

Lemma rbind_ok {A B} (r : result A) (k : A -> result B) (b : B) :
  rbind r k = Ok b -> exists a, r = Ok a /\ k a = Ok b.
Proof. destruct r; simpl; [eauto | discriminate]. Qed.

Lemma outcome_bind_ok {A B} (m : M A) (k : A -> M B) (b : B) :
  outcome (bind m k) = Ok b ->
  exists a, outcome m = Ok a /\ outcome (k a) = Ok b.
Proof.
  destruct m as [t [a|e]]; simpl; [|discriminate].
  destruct (k a) as [t' r] eqn:E; simpl. intros ->.
  exists a; rewrite E; auto.
Qed.

Lemma trace_bind {A B} (m : M A) (k : A -> M B) :
  trace (bind m k) =
  match outcome m with
  | Ok a => trace m ++ trace (k a)
  | Raise _ => trace m
  end.
Proof.
  destruct m as [t [a|e]]; simpl; [|reflexivity].
  destruct (k a); reflexivity.
Qed.

Lemma bind_ret {A B} (a : A) (k : A -> M B) : bind (ret a) k = k a.
Proof. unfold bind, ret. destruct (k a); reflexivity. Qed.

(** ** The autosuggest resolver *)

Lemma autosuggest_trace (E : Env) (region_part : pystr) :
  region_part <> [] ->
  trace (get_region_from_autosuggest E region_part)
  = [EvAutosuggest region_part; EvHttpGet (autosuggest_url ++ region_part)].
Proof.
  intros Hne. destruct region_part as [|c t]; [contradiction|].
  unfold get_region_from_autosuggest, get_response_for_url.
  rewrite !trace_bind. cbn [emit lift outcome trace fst snd].
  destruct (http_get E _); reflexivity.
Qed.

(** C8.  Called with the empty string, [get_region_from_autosuggest]
    returns the empty mapping and requests no URL. *)
Theorem autosuggest_empty_region (E : Env) :
  outcome (get_region_from_autosuggest E []) = Ok []
  /\ forall url, ~ In (EvHttpGet url) (trace (get_region_from_autosuggest E [])).
Proof.
  split; [reflexivity|].
  intros url [H|[]]; discriminate.
Qed.

(** C9, as amended.  For a non-empty fragment the URL that the resolver
    builds and passes to [get_response_for_url] is the autosuggest template
    with the fragment put in as it is, without URL-escaping. *)
Theorem autosuggest_requests_raw_fragment (E : Env) (region_part : pystr) :
  region_part <> [] ->
  (forall url,
      In (EvHttpGet url) (trace (get_region_from_autosuggest E region_part))
      <-> url = autosuggest_url ++ region_part)
  /\ autosuggest_url = u "https://www.otodom.pl/ajax/geo6/autosuggest/?data=".
Proof.
  intros Hne. split; [|reflexivity].
  intros url. rewrite (autosuggest_trace E region_part Hne). split.
  - intros [H|[H|[]]]; [discriminate|]. injection H as <-. reflexivity.
  - intros ->. right. left. reflexivity.
Qed.

Lemma autosuggest_requests_raw_fragment_witness :
  u "a&b" <> []
  /\ In (EvHttpGet (u "https://www.otodom.pl/ajax/geo6/autosuggest/?data=a&b"))
        (trace (get_region_from_autosuggest offline (u "a&b"))).
Proof.
  assert (Hne : u "a&b" <> []) by discriminate.
  split; [exact Hne|].
  destruct (autosuggest_requests_raw_fragment offline (u "a&b") Hne)
    as [Hurl _].
  apply Hurl. vm_compute. reflexivity.
Defined.

(** C9, as stated, fails: the fragment [a&b] escapes to [a%26b], and the
    URL with the escaped fragment is not the one passed on; the URL built
    holds the bare ampersand. *)
Lemma autosuggest_fragment_not_escaped :
  ~ (forall (E : Env) (region_part escaped : pystr),
        region_part <> [] ->
        quote region_part = Ok escaped ->
        In (EvHttpGet (autosuggest_url ++ escaped))
           (trace (get_region_from_autosuggest E region_part))).
Proof.
  intros H.
  specialize (H offline (u "a&b") (u "a%26b")).
  assert (Hne : u "a&b" <> []) by discriminate.
  assert (Hq : quote (u "a&b") = Ok (u "a%26b")) by (vm_compute; reflexivity).
  specialize (H Hne Hq).
  vm_compute in H.
  destruct H as [H|[H|[]]]; discriminate.
Qed.

(** ** Choice of the region source *)

Lemma has_region_key_spec (filters : pydict) :
  has_region_key filters = true <->
  exists key, In key REGION_DATA_KEYS /\ dict_mem key filters = true.
Proof. unfold has_region_key. apply existsb_exists. Qed.

Lemma no_region_key (filters : pydict) (key : pystr) :
  has_region_key filters = false -> In key REGION_DATA_KEYS ->
  dict_mem key filters = false.
Proof.
  intros H Hin. destruct (dict_mem key filters) eqn:E; [|reflexivity].
  assert (has_region_key filters = true)
    by (apply has_region_key_spec; eauto).
  congruence.
Qed.

Lemma region_from_filters_empty (filters : pydict) :
  has_region_key filters = false -> get_region_from_filters filters = [].
Proof.
  intros H. unfold get_region_from_filters, REGION_DATA_KEYS. cbn [fold_left].
  rewrite !(no_region_key filters _ H) by (cbn; tauto).
  reflexivity.
Qed.

Lemma finish_url_trace (E : Env) (mc dc app : pystr) (page : pyval)
    (filters region_data : pydict) :
  existsb is_lookup (trace (finish_url E mc dc app page filters region_data))
  = false.
Proof.
  unfold finish_url.
  destruct (build_url E mc dc app (page_fragment (ucd E) page) filters
                      region_data); reflexivity.
Qed.

Lemma dict_mem_In (key : pystr) (d : pydict) :
  dict_mem key d = true <-> In key (map fst d).
Proof.
  unfold dict_mem. rewrite existsb_exists, in_map_iff.
  split; intros (e & H1 & H2).
  - exists e. apply str_eqb_eq in H2. auto.
  - exists e. split; [exact H2 | apply str_eqb_eq; exact H1].
Qed.

Lemma has_region_key_present (filters : pydict) :
  has_region_key filters = true <->
  exists key,
    In key [u "city"; u "voivodeship"; u "[district_id]"; u "[street_id]"]
    /\ In key (map fst filters).
Proof.
  rewrite has_region_key_spec. unfold REGION_DATA_KEYS.
  split; intros (key & Hk & Hm); exists key; (split; [exact Hk|]);
    apply dict_mem_In; exact Hm.
Qed.

(** C2.  When the filters hold at least one of the four region keys
    ([city], [voivodeship], [[district_id]], [[street_id]]), [get_url]
    resolves the region with [get_region_from_filters] alone: the resolver
    [get_region_from_autosuggest] is not entered and no URL is requested.
    When they hold none of the four, the region is the one that
    [get_region_from_autosuggest] returns for the [region] argument,
    entered first, and the filters contribute no region data.  The rest of
    [get_url] runs on that one region. *)
Theorem get_url_region_source (E : Env) (main_category detail_category
    region ads_per_page : pystr) (page : pyval) (filters : pydict) :
  let call :=
    get_url E main_category detail_category region ads_per_page page filters in
  let finish :=
    finish_url E main_category detail_category ads_per_page page filters in
  let region_keys :=
    [u "city"; u "voivodeship"; u "[district_id]"; u "[street_id]"] in
  ((exists key, In key region_keys /\ In key (map fst filters)) ->
   call = finish (get_region_from_filters filters)
   /\ existsb is_lookup (trace call) = false
   /\ forall region', call = get_url E main_category detail_category region'
                                     ads_per_page page filters)
  /\ ((forall key, In key region_keys -> ~ In key (map fst filters)) ->
      call = (region_data <- get_region_from_autosuggest E region ;;
              finish region_data)
      /\ hd_error (trace call) = Some (EvAutosuggest region)
      /\ get_region_from_filters filters = []).
Proof.
  intros call finish region_keys. subst call finish region_keys. split.
  - intros Hsome. apply has_region_key_present in Hsome.
    unfold get_url. rewrite Hsome, bind_ret.
    split; [reflexivity|]. split; [apply finish_url_trace | reflexivity].
  - intros Hnone.
    assert (Hk : has_region_key filters = false).
    { destruct (has_region_key filters) eqn:Hk; [exfalso | reflexivity].
      apply has_region_key_present in Hk. destruct Hk as (key & Hin & Hm).
      exact (Hnone key Hin Hm). }
    unfold get_url. rewrite Hk.
    split; [reflexivity|]. split; [|apply region_from_filters_empty; exact Hk].
    rewrite trace_bind.
    destruct (get_region_from_autosuggest E region) as [t r] eqn:Ha.
    assert (Ht : hd_error t = Some (EvAutosuggest region)).
    { change t with (trace (t, r)). rewrite <- Ha.
      destruct region as [|c s]; [reflexivity|].
      rewrite autosuggest_trace by discriminate. reflexivity. }
    cbn [outcome trace fst snd].
    destruct r; [|exact Ht].
    destruct t; [discriminate | exact Ht].
Qed.

Lemma get_url_region_source_witness :
  existsb is_lookup
    (trace (get_url offline (u "sprzedaz") (u "mieszkanie") (u "wola") []
                    VNone [(u "[street_id]", VInt 7)]))
  = false
  /\ hd_error
       (trace (get_url offline (u "sprzedaz") (u "mieszkanie") (u "wola") []
                       VNone [(u "building_type", VStr (u "blok"))]))
     = Some (EvAutosuggest (u "wola")).
Proof.
  split.
  - apply (proj1 (get_url_region_source offline (u "sprzedaz")
                    (u "mieszkanie") (u "wola") [] VNone
                    [(u "[street_id]", VInt 7)])).
    exists (u "[street_id]"). split; [|left; reflexivity].
    right. right. right. left. reflexivity.
  - apply (proj2 (get_url_region_source offline (u "sprzedaz")
                    (u "mieszkanie") (u "wola") [] VNone
                    [(u "building_type", VStr (u "blok"))])).
    intros key Hin [Hkey|[]]. cbn [fst] in Hkey. subst key.
    vm_compute in Hin. intuition discriminate.
Defined.

(** ** The query fragments *)

Lemma append_items_spec (db : UnicodeData) (key : pystr) (items : list pyval) :
  forall (acc fl : list pystr),
    append_items db key items acc = Ok fl ->
    exists k, (items = [] \/ quote key = Ok k)
              /\ fl = acc ++ map (fragment db k) items.
Proof.
  induction items as [|item rest IH]; intros acc fl H; simpl in H.
  - inversion H; subst. exists []. rewrite app_nil_r. auto.
  - apply rbind_ok in H. destruct H as (k & Hq & H).
    apply IH in H. destruct H as (k' & Hk' & ->).
    exists k. split; [auto|].
    rewrite <- app_assoc. simpl. unfold fragment at 2.
    destruct Hk' as [-> | Hq']; [reflexivity|].
    rewrite Hq in Hq'. inversion Hq'; reflexivity.
Qed.

Lemma append_filters_spec (db : UnicodeData) (entries : pydict) :
  forall (acc fl : list pystr),
    append_filters db entries acc = Ok fl ->
    exists frags, fl = acc ++ List.concat frags
                  /\ Forall2 (expands db) entries frags.
Proof.
  induction entries as [|[key value] rest IH]; intros acc fl H; simpl in H.
  - inversion H; subst. exists []. simpl. rewrite app_nil_r. auto.
  - assert (Hstep : exists fs, expands db (key, value) fs
                               /\ append_filters db rest (acc ++ fs) = Ok fl).
    { destruct value;
        try (apply rbind_ok in H; destruct H as (k & Hq & H);
             eexists; split; [exists k; split; [right; exact Hq | reflexivity]
                             | exact H]).
      apply rbind_ok in H. destruct H as (fl' & Hitems & H).
      apply append_items_spec in Hitems. destruct Hitems as (k & Hk & ->).
      eexists; split; [exists k; split; [exact Hk | reflexivity] | exact H]. }
    destruct Hstep as (fs & Hfs & Hrest).
    apply IH in Hrest. destruct Hrest as (frags & -> & Hall).
    exists (fs :: frags). simpl. rewrite app_assoc. auto.
Qed.

(** In filter mode the promoted ids are already where they are written. *)
Lemma promote_ids_from_filters (filters : pydict) :
  promote_ids (get_region_from_filters filters) filters = Ok filters.
Proof.
  unfold promote_ids, dict_getitem.
  assert (Hstep : forall key, is_region_key key = true ->
            (if dict_mem key (get_region_from_filters filters)
             then let? v := match dict_lookup key (get_region_from_filters filters) with
                            | Some v => Ok v
                            | None => Raise KeyError
                            end in
                  Ok (dict_set key v filters)
             else Ok filters) = Ok filters).
  { intros key Hkey.
    destruct (dict_mem key (get_region_from_filters filters)) eqn:Hm;
      [|reflexivity].
    apply dict_mem_lookup in Hm.
    pose proof (lookup_region_from_filters filters key) as Hl.
    rewrite Hkey, Hm in Hl. rewrite Hm. simpl.
    rewrite dict_set_same; [reflexivity | symmetry; exact Hl]. }
  rewrite (Hstep (u "[district_id]") eq_refl). simpl.
  apply (Hstep (u "[street_id]") eq_refl).
Qed.

(** In autosuggest mode the promoted ids are new entries, after the
    caller's. *)
Lemma promote_ids_fresh (region_data filters filters' : pydict) :
  has_region_key filters = false ->
  promote_ids region_data filters = Ok filters' ->
  exists extra,
    filters' = filters ++ extra
    /\ forall e, In e extra ->
                 fst e = u "[district_id]" \/ fst e = u "[street_id]".
Proof.
  intros Hk H. unfold promote_ids in H.
  pose proof (no_region_key filters (u "[district_id]") Hk) as Hd.
  pose proof (no_region_key filters (u "[street_id]") Hk) as Hs.
  specialize (Hd ltac:(cbn; tauto)). specialize (Hs ltac:(cbn; tauto)).
  apply rbind_ok in H. destruct H as (f1 & H1 & H2).
  assert (E1 : exists x1, f1 = filters ++ x1
                 /\ (forall e, In e x1 -> fst e = u "[district_id]")).
  { destruct (dict_mem (u "[district_id]") region_data).
    - apply rbind_ok in H1. destruct H1 as (v & _ & H1). inversion H1; subst.
      rewrite dict_set_fresh by exact Hd.
      eexists; split; [reflexivity|]. intros e [<-|[]]; reflexivity.
    - inversion H1; subst. exists []. rewrite app_nil_r.
      split; [reflexivity | intros e []]. }
  destruct E1 as (x1 & -> & Hx1).
  destruct (dict_mem (u "[street_id]") region_data).
  - apply rbind_ok in H2. destruct H2 as (v & _ & H2). inversion H2; subst.
    assert (Hfresh : dict_mem (u "[street_id]") (filters ++ x1) = false).
    { rewrite dict_mem_app, Hs. simpl. unfold dict_mem.
      destruct (existsb _ x1) eqn:Ex; [|reflexivity].
      apply existsb_exists in Ex. destruct Ex as (e & Hin & He).
      apply str_eqb_eq in He. rewrite (Hx1 e Hin) in He. discriminate. }
    rewrite dict_set_fresh by exact Hfresh. rewrite <- app_assoc.
    eexists; split; [reflexivity|].
    intros e Hin. apply in_app_or in Hin. destruct Hin as [Hin|[<-|[]]];
      [left; apply Hx1; exact Hin | right; reflexivity].
  - inversion H2; subst. exists x1. split; [reflexivity|]. auto.
Qed.

(** C4.  In the URL [get_url] returns, every entry of the filters (and of
    the ids promoted from the region, which follow them) contributes its
    fragments in order: one [search<key>=<value>] per element for a list,
    exactly one for any other value, the key URL-escaped in each.  They
    follow the ads-per-page and page fragments, all joined with [&]; an
    unset ads-per-page leaves a leading [&], an unset page an [&] of its
    own before the first fragment. *)
Theorem get_url_query_fragments (E : Env) (main_category detail_category
    region ads_per_page : pystr) (page : pyval) (filters : pydict)
    (url : pystr) :
  outcome (get_url E main_category detail_category region ads_per_page page
                   filters) = Ok url ->
  exists (path : pystr) (extra : pydict) (frags : list (list pystr)),
    url = path ++ join (u "&")
                    (ads_per_page :: page_fragment (ucd E) page :: List.concat frags)
    /\ (exists location,
           url_path E main_category detail_category location (filters ++ extra)
           = Ok path)
    /\ Forall2 (expands (ucd E)) (filters ++ extra) frags
    /\ (has_region_key filters = true -> extra = [])
    /\ (forall e, In e extra ->
                  fst e = u "[district_id]" \/ fst e = u "[street_id]")
    /\ (ads_per_page = [] ->
        url = path ++ u "&"
                   ++ join (u "&")
                        (page_fragment (ucd E) page :: List.concat frags))
    /\ (page = VNone ->
        url = path ++ ads_per_page ++ u "&"
                   ++ match List.concat frags with
                      | [] => []
                      | fl => u "&" ++ join (u "&") fl
                      end).
Proof.
  intros H. unfold get_url in H.
  apply outcome_bind_ok in H. destruct H as (region_data & Hr & H).
  unfold finish_url in H.
  apply outcome_bind_ok in H. destruct H as (url' & Hb & H).
  cbn in H. inversion H; subst url'; clear H.
  cbn [lift outcome snd] in Hb. unfold build_url in Hb.
  apply rbind_ok in Hb. destruct Hb as (location & _ & Hb).
  apply rbind_ok in Hb. destruct Hb as (filters' & Hp & Hb).
  apply rbind_ok in Hb. destruct Hb as (path & Hpath & Hb).
  apply rbind_ok in Hb. destruct Hb as (filter_list & Hf & Hb).
  inversion Hb; subst url; clear Hb.
  apply append_filters_spec in Hf. destruct Hf as (frags & -> & Hall).
  rewrite app_nil_l.
  assert (Hx : exists extra, filters' = filters ++ extra
             /\ (has_region_key filters = true -> extra = [])
             /\ (forall e, In e extra ->
                   fst e = u "[district_id]" \/ fst e = u "[street_id]")).
  { destruct (has_region_key filters) eqn:Hk.
    - change (Ok (get_region_from_filters filters) = Ok region_data) in Hr.
      inversion Hr; subst region_data.
      rewrite promote_ids_from_filters in Hp. inversion Hp; subst.
      exists []. rewrite app_nil_r. split; [reflexivity|].
      split; [reflexivity | intros e []].
    - destruct (promote_ids_fresh _ _ _ Hk Hp) as (extra & -> & Hkeys).
      exists extra. split; [reflexivity|]. split; [discriminate | exact Hkeys]. }
  destruct Hx as (extra & -> & Hnone & Hkeys).
  exists path, extra, frags.
  split; [reflexivity|]. split; [exists location; exact Hpath|].
  split; [exact Hall|]. split; [exact Hnone|]. split; [exact Hkeys|].
  split; [intros ->; reflexivity|].
  intros ->. destruct (List.concat frags); reflexivity.
Qed.

(** *** When [get_url] returns *)

Lemma location_from_filters (filters : pydict) :
  str_valued (u "city") filters ->
  str_valued (u "voivodeship") filters ->
  exists s,
    city_or_voivodeship (get_region_from_filters filters) = Ok (VStr s).
Proof.
  intros Hc Hv. unfold city_or_voivodeship, dict_getitem.
  assert (Hkey : forall key, is_region_key key = true ->
            str_valued key filters ->
            dict_mem key (get_region_from_filters filters) = true ->
            exists s, dict_lookup key (get_region_from_filters filters)
                      = Some (VStr s)).
  { intros key Hk Hs Hm. apply dict_mem_lookup in Hm.
    pose proof (lookup_region_from_filters filters key) as Hl.
    rewrite Hk in Hl. rewrite Hm in Hl.
    destruct (Hs _ (eq_sym Hl)) as (s & Hv').
    exists s. rewrite Hm, Hv'. reflexivity. }
  destruct (dict_mem (u "city") (get_region_from_filters filters)) eqn:Mc.
  - destruct (Hkey (u "city") eq_refl Hc Mc) as (s & ->). eauto.
  - destruct (dict_mem (u "voivodeship") (get_region_from_filters filters))
      eqn:Mv; [|eauto].
    destruct (Hkey (u "voivodeship") eq_refl Hv Mv) as (s & ->). eauto.
Qed.

Lemma url_path_returns (E : Env) (mc dc location : pystr) (filters : pydict) :
  str_valued (u "building_type") filters ->
  str_valued (u "description_fragment") filters ->
  exists path, url_path E mc dc (VStr location) filters = Ok path.
Proof.
  intros Hb Hd. unfold url_path, dict_getitem. cbn [join_values rbind].
  set (url := join (u "/") _).
  assert (H1 : exists url1,
            (if dict_mem (u "building_type") filters
             then let? v := match dict_lookup (u "building_type") filters with
                            | Some v => Ok v
                            | None => Raise KeyError
                            end in
                  match v with
                  | VStr b => Ok (url ++ u "/" ++ b)
                  | _ => Raise TypeError
                  end
             else Ok url) = Ok url1).
  { destruct (dict_mem (u "building_type") filters) eqn:M; [|eauto].
    apply dict_mem_lookup in M. destruct (Hb _ M) as (b & Hv).
    rewrite M, Hv. cbn [rbind]. eauto. }
  destruct H1 as (url1 & ->). cbn [rbind].
  destruct (dict_mem (u "description_fragment") filters) eqn:M; [|eauto].
  apply dict_mem_lookup in M. destruct (Hd _ M) as (d & Hv).
  rewrite M, Hv. cbn [rbind]. eauto.
Qed.

Lemma append_items_returns (db : UnicodeData) (key k : pystr)
    (items : list pyval) :
  quote key = Ok k ->
  forall acc, exists fl, append_items db key items acc = Ok fl.
Proof.
  intros Hq. induction items as [|item rest IH]; intros acc; simpl; [eauto|].
  rewrite Hq. cbn [rbind]. apply IH.
Qed.

Lemma append_filters_returns (db : UnicodeData) (entries : pydict) :
  Forall (fun e => exists k, quote (fst e) = Ok k) entries ->
  forall acc, exists fl, append_filters db entries acc = Ok fl.
Proof.
  induction 1 as [|[key value] rest (k & Hq) _ IH]; intros acc; simpl;
    [eauto|].
  simpl in Hq.
  destruct value; try (rewrite Hq; cbn [rbind]; apply IH).
  destruct (append_items_returns db key k items Hq acc) as (fl & ->).
  cbn [rbind]. apply IH.
Qed.

(** In filter mode [get_url] returns, and only logs, as soon as the values
    it uses as path segments are strings and the keys can be encoded. *)
Lemma get_url_returns (E : Env) (main_category detail_category region
    ads_per_page : pystr) (page : pyval) (filters : pydict) :
  has_region_key filters = true ->
  str_valued (u "city") filters ->
  str_valued (u "voivodeship") filters ->
  str_valued (u "building_type") filters ->
  str_valued (u "description_fragment") filters ->
  Forall (fun e => exists k, quote (fst e) = Ok k) filters ->
  exists url,
    get_url E main_category detail_category region ads_per_page page filters
    = ([EvLog url], Ok url).
Proof.
  intros Hk Hc Hv Hb Hd Hq. unfold get_url. rewrite Hk, bind_ret.
  unfold finish_url, build_url.
  destruct (location_from_filters filters Hc Hv) as (location & ->).
  cbn [rbind]. rewrite promote_ids_from_filters. cbn [rbind].
  destruct (url_path_returns E main_category detail_category location filters
                             Hb Hd) as (path & ->).
  cbn [rbind].
  destruct (append_filters_returns (ucd E) filters Hq []) as (fl & ->).
  cbn [rbind]. eexists. reflexivity.
Qed.

Lemma get_url_query_fragments_witness :
  outcome (get_url offline (u "sprzedaz") (u "mieszkanie") [] [] VNone
                   rooms_filters)
  = Ok rooms_url
  /\ exists (path : pystr) (extra : pydict) (frags : list (list pystr)),
       rooms_url
       = path ++ join (u "&")
                   ([] :: page_fragment ucd_excerpt VNone :: List.concat frags)
       /\ (exists location,
              url_path offline (u "sprzedaz") (u "mieszkanie") location
                       (rooms_filters ++ extra) = Ok path)
       /\ Forall2 (expands ucd_excerpt) (rooms_filters ++ extra) frags
       /\ (has_region_key rooms_filters = true -> extra = [])
       /\ (forall e, In e extra ->
                     fst e = u "[district_id]" \/ fst e = u "[street_id]")
       /\ (@nil N = [] ->
           rooms_url
           = path ++ u "&"
                  ++ join (u "&")
                       (page_fragment ucd_excerpt VNone :: List.concat frags))
       /\ (VNone = VNone ->
           rooms_url
           = path ++ [] ++ u "&"
                  ++ match List.concat frags with
                     | [] => []
                     | fl => u "&" ++ join (u "&") fl
                     end).
Proof.
  split; [vm_compute; reflexivity|].
  apply (get_url_query_fragments offline (u "sprzedaz") (u "mieszkanie")
                                 [] [] VNone rooms_filters rooms_url).
  vm_compute; reflexivity.
Defined.

(** C5, on the example of the specification.  With the filters
    [city="warszawa_1"] and [description_fragment="blisko metra"], the path
    ends in [/warszawa_1/q-blisko-metra], and both entries, although
    consumed by the path, come back as query fragments. *)
Theorem get_url_repeats_path_filters (E : Env) (region : pystr) :
  outcome (get_url E (u "sprzedaz") (u "mieszkanie") region [] VNone
                   [(u "city", VStr (u "warszawa_1"));
                    (u "description_fragment", VStr (u "blisko metra"))])
  = Ok (BASE_URL E
        ++ u "/sprzedaz/mieszkanie/warszawa_1/q-blisko-metra"
        ++ u "&&searchcity=warszawa_1&searchdescription_fragment=blisko metra").
Proof.
  unfold get_url.
  change (has_region_key _) with true. cbv iota.
  rewrite bind_ret. unfold finish_url.
  match goal with
  | |- outcome (bind (lift ?b) _) = Ok ?x =>
    assert (Hb : b = Ok x); [|rewrite Hb; reflexivity]
  end.
  unfold build_url.
  change (get_region_from_filters _)
    with [(u "city", VStr (u "warszawa_1"))].
  cbn. rewrite <- !app_assoc. reflexivity.
Qed.

(** ** Failures of the autosuggest resolver *)

Lemma autosuggest_outcome (E : Env) (region_part : pystr) :
  region_part <> [] ->
  outcome (get_region_from_autosuggest E region_part)
  = (let? response := first_suggestion E region_part in
     region_of_response E response).
Proof.
  intros Hne. destruct region_part as [|c t]; [contradiction|].
  unfold get_region_from_autosuggest, get_response_for_url, first_suggestion.
  cbn [emit lift bind].
  destruct (http_get E _) as [body|e]; [|reflexivity].
  cbn. destruct (json_loads E body); reflexivity.
Qed.

Lemma city_slug_no_city_id (E : Env) (response : pyval) (text : list pystr)
    (i : nat) (e : exn) :
  getitem_str response (u "city_id") = Raise e ->
  exists e', city_slug E response text i = Raise e'.
Proof.
  intros H. unfold city_slug.
  destruct (list_getitem text i) as [name|e1]; cbn [rbind];
    [rewrite H; cbn [rbind]|]; eauto.
Qed.

Ltac level_is H :=
  match type of H with
  | eq_str ?level _ = true =>
    destruct level; try discriminate H; simpl in H;
    apply str_eqb_eq in H; subst
  end.

Lemma region_of_unusable (E : Env) (response : pyval) :
  unusable response -> exists e, region_of_response E response = Raise e.
Proof.
  intros [e H | e H | v H Hv | level e Hl Hb H | level e Hl Hb H
         | level e Hl Hb H | level raw text Hl Hb Hr Hs Hlen];
    unfold region_of_response.
  - rewrite H. simpl. eauto.
  - rewrite H. destruct (getitem_str response (u "level")); simpl; eauto.
  - rewrite H. destruct (getitem_str response (u "level")); simpl; eauto.
    destruct v; simpl; eauto. exfalso. eapply Hv; reflexivity.
  - rewrite Hl. cbn [rbind].
    destruct (getitem_str response (u "text")) as [raw|]; cbn [rbind]; eauto.
    destruct (strip_and_split raw) as [text|]; cbn [rbind]; eauto.
    unfold reads_city_id in Hb.
    destruct (eq_str level (u "CITY")).
    { destruct (city_slug_no_city_id E response text 0 e H) as (e' & ->).
      simpl; eauto. }
    destruct (eq_str level (u "DISTRICT")).
    { destruct (city_slug_no_city_id E response text 1 e H) as (e' & ->).
      simpl; eauto. }
    simpl in Hb. level_is Hb.
    change (eq_str (VStr (u "STREET")) (u "REGION")) with false.
    change (eq_str (VStr (u "STREET")) (u "STREET")) with true.
    cbv iota.
    destruct (city_slug_no_city_id E response text 0 e H) as (e' & ->).
    simpl; eauto.
  - rewrite Hl. cbn [rbind].
    destruct (getitem_str response (u "text")) as [raw|]; cbn [rbind]; eauto.
    destruct (strip_and_split raw) as [text|]; cbn [rbind]; eauto.
    level_is Hb.
    change (eq_str (VStr (u "DISTRICT")) (u "CITY")) with false.
    change (eq_str (VStr (u "DISTRICT")) (u "DISTRICT")) with true.
    cbv iota.
    destruct (city_slug E response text 1); cbn [rbind]; eauto.
    rewrite H. cbn [rbind]. eauto.
  - rewrite Hl. cbn [rbind].
    destruct (getitem_str response (u "text")) as [raw|]; cbn [rbind]; eauto.
    destruct (strip_and_split raw) as [text|]; cbn [rbind]; eauto.
    level_is Hb.
    change (eq_str (VStr (u "STREET")) (u "CITY")) with false.
    change (eq_str (VStr (u "STREET")) (u "DISTRICT")) with false.
    change (eq_str (VStr (u "STREET")) (u "REGION")) with false.
    change (eq_str (VStr (u "STREET")) (u "STREET")) with true.
    cbv iota.
    destruct (city_slug E response text 0); cbn [rbind]; eauto.
    rewrite H. cbn [rbind]. eauto.
  - rewrite Hl, Hr. cbn [rbind]. rewrite Hs. cbn [rbind].
    level_is Hb.
    change (eq_str (VStr (u "DISTRICT")) (u "CITY")) with false.
    change (eq_str (VStr (u "DISTRICT")) (u "DISTRICT")) with true.
    cbv iota.
    unfold city_slug, list_getitem.
    assert (Hnth : nth_error text 1 = None) by (apply nth_error_None; lia).
    rewrite Hnth. cbn [rbind]. eauto.
Qed.

(** A level outside the four leaves the mapping empty. *)
Lemma region_of_unknown_level (E : Env) (response level : pyval)
    (raw : pystr) :
  getitem_str response (u "level") = Ok level ->
  getitem_str response (u "text") = Ok (VStr raw) ->
  known_level level = false ->
  region_of_response E response = Ok [].
Proof.
  intros Hl Hr Hk. unfold region_of_response.
  rewrite Hl, Hr. cbn [rbind strip_and_split].
  unfold known_level in Hk.
  destruct (eq_str level (u "CITY")); [discriminate|].
  destruct (eq_str level (u "DISTRICT")); [discriminate|].
  destruct (eq_str level (u "REGION")); [discriminate|].
  destruct (eq_str level (u "STREET")); [discriminate|].
  reflexivity.
Qed.

(** C6, as amended.  For a non-empty fragment, [get_region_from_autosuggest]
    raises, and returns no mapping, when the request fails, the body is not
    JSON or the document has no first element (the exception is passed on
    unchanged), and when the first suggestion is unusable: [level] or
    [text] is missing, [text] is not a string, or the branch of its level
    reads a field that is missing ([city_id] for CITY, DISTRICT and STREET,
    [district_id] and the second component of [text] for DISTRICT,
    [street_id] for STREET).  A [level] outside CITY, DISTRICT, REGION and
    STREET is not an error: the result is the empty mapping. *)
Theorem autosuggest_fails_fast (E : Env) (region_part : pystr) :
  region_part <> [] ->
  let result := outcome (get_region_from_autosuggest E region_part) in
  (forall e, first_suggestion E region_part = Raise e -> result = Raise e)
  /\ (forall response,
         first_suggestion E region_part = Ok response ->
         unusable response -> exists e, result = Raise e)
  /\ (forall response level raw,
         first_suggestion E region_part = Ok response ->
         getitem_str response (u "level") = Ok level ->
         getitem_str response (u "text") = Ok (VStr raw) ->
         known_level level = false ->
         result = Ok []).
Proof.
  intros Hne result. subst result.
  rewrite (autosuggest_outcome E region_part Hne).
  split; [|split].
  - intros e ->. reflexivity.
  - intros response -> Hu. cbn [rbind]. apply region_of_unusable; exact Hu.
  - intros response level raw -> Hl Hr Hk. cbn [rbind].
    eapply region_of_unknown_level; eauto.
Qed.

Lemma autosuggest_fails_fast_witness :
  u "wola" <> []
  /\ outcome (get_region_from_autosuggest offline (u "wola"))
     = Raise RequestException
  /\ (exists e,
         outcome (get_region_from_autosuggest
                    (answering (VList [district_suggestion])) (u "wola"))
         = Raise e)
  /\ outcome (get_region_from_autosuggest
                (answering (VList [country_suggestion])) (u "wola"))
     = Ok [].
Proof.
  assert (Hne : u "wola" <> []) by discriminate.
  split; [exact Hne|]. split; [|split].
  - apply (autosuggest_fails_fast offline (u "wola") Hne). reflexivity.
  - apply (autosuggest_fails_fast (answering (VList [district_suggestion]))
                                  (u "wola") Hne) with district_suggestion.
    + reflexivity.
    + apply no_district_id with (level := VStr (u "DISTRICT")) (e := KeyError);
        reflexivity.
  - apply (autosuggest_fails_fast (answering (VList [country_suggestion]))
                                  (u "wola") Hne)
      with country_suggestion (VStr (u "COUNTRY")) (u "Polska"); reflexivity.
Defined.

(** C6, as stated, fails: a suggestion whose level is [COUNTRY] makes the
    resolver return the empty mapping, not raise. *)
Lemma autosuggest_unknown_level_does_not_raise :
  ~ (forall (E : Env) (region_part : pystr) (response level : pyval),
        region_part <> [] ->
        first_suggestion E region_part = Ok response ->
        getitem_str response (u "level") = Ok level ->
        known_level level = false ->
        exists e,
          outcome (get_region_from_autosuggest E region_part) = Raise e).
Proof.
  intros H.
  destruct (H (answering (VList [country_suggestion])) (u "polska")
              country_suggestion (VStr (u "COUNTRY")))
    as (e & He); try reflexivity; [discriminate|].
  vm_compute in He. discriminate.
Qed.

(** ** The regular-expression engine *)

Lemma bound_app_l (i : nat) (a b : captures) : bound i a -> bound i (a ++ b).
Proof.
  unfold bound, group. intros (x & H).
  induction a as [|[j y] a IH]; simpl in *; [discriminate|].
  destruct (Nat.eqb j i); [eauto | auto].
Qed.

Lemma bound_app_r (i : nat) (a b : captures) : bound i b -> bound i (a ++ b).
Proof.
  unfold bound, group. intros H.
  induction a as [|[j y] a IH]; simpl; [exact H|].
  destruct (Nat.eqb j i); [eauto | exact IH].
Qed.

(** A successful run ends in its continuation. *)
Lemma star_loop_reaches
    (step : pystr -> captures -> cont -> option captures) :
  (forall s cs k m, step s cs k = Some m ->
     exists s' pre, k s' (pre ++ cs) = Some m /\ (exists p, s = p ++ s')) ->
  forall n s cs k m,
    star_loop step n s cs k = Some m ->
    exists s' pre, k s' (pre ++ cs) = Some m /\ (exists p, s = p ++ s').
Proof.
  intros Hstep. induction n as [|n IH]; intros s cs k m H; simpl in H.
  - exists s, []. split; [exact H | exists []; reflexivity].
  - match type of H with
    | match ?c with _ => _ end = _ => destruct c as [m'|] eqn:Ec
    end.
    + inversion H; subst m'; clear H.
      apply Hstep in Ec. destruct Ec as (s1 & pre1 & Hk & (p1 & ->)).
      destruct (List.length s1 <? List.length (p1 ++ s1)); [|discriminate].
      apply IH in Hk. destruct Hk as (s2 & pre2 & Hk & (p2 & ->)).
      exists s2, (pre2 ++ pre1). rewrite <- app_assoc.
      split; [exact Hk | exists (p1 ++ p2); rewrite <- app_assoc; reflexivity].
    + exists s, []. split; [exact H | exists []; reflexivity].
Qed.

Lemma run_reaches (r : regex) :
  forall s cs k m, run r s cs k = Some m -> reaches r s cs k m.
Proof.
  unfold reaches.
  induction r as [|p|a IHa b IHb|a IHa b IHb|a IHa|j a IHa];
    intros s cs k m H; simpl in H.
  - exists s, []. split; [exact H|]. split; [exists []; reflexivity|].
    discriminate.
  - destruct s as [|c t]; [discriminate|].
    destruct (p c); [|discriminate].
    exists t, []. split; [exact H|]. split; [exists [c]; reflexivity|].
    discriminate.
  - apply IHa in H. destruct H as (s1 & pre1 & H & (p1 & ->) & Ha).
    apply IHb in H. destruct H as (s2 & pre2 & H & (p2 & ->) & Hb).
    exists s2, (pre2 ++ pre1). rewrite <- app_assoc.
    split; [exact H|].
    split; [exists (p1 ++ p2); rewrite <- app_assoc; reflexivity|].
    intros i Hi. simpl in Hi. apply orb_true_iff in Hi.
    destruct Hi as [Hi|Hi];
      [apply bound_app_r, Ha, Hi | apply bound_app_l, Hb, Hi].
  - destruct (run a s cs k) as [m'|] eqn:Ea.
    + inversion H; subst m'.
      apply IHa in Ea. destruct Ea as (s1 & pre1 & Hk & Hp & Ha).
      exists s1, pre1. split; [exact Hk|]. split; [exact Hp|].
      intros i Hi. simpl in Hi. apply andb_true_iff in Hi. apply Ha, Hi.
    + apply IHb in H. destruct H as (s1 & pre1 & Hk & Hp & Hb).
      exists s1, pre1. split; [exact Hk|]. split; [exact Hp|].
      intros i Hi. simpl in Hi. apply andb_true_iff in Hi. apply Hb, Hi.
  - apply star_loop_reaches in H.
    + destruct H as (s1 & pre1 & Hk & Hp).
      exists s1, pre1. split; [exact Hk|]. split; [exact Hp|]. discriminate.
    + intros s0 cs0 k0 m0 H0. apply IHa in H0.
      destruct H0 as (s1 & pre1 & Hk & Hp & _). eauto.
  - apply IHa in H. destruct H as (s1 & pre1 & H & (p1 & ->) & Ha).
    eexists s1, (_ :: pre1). split; [exact H|].
    split; [exists p1; reflexivity|].
    intros i Hi. simpl in Hi. apply orb_true_iff in Hi.
    unfold bound, group. simpl.
    destruct (Nat.eqb j i); [eauto|].
    destruct Hi as [Hi|Hi]; [discriminate|]. apply Ha, Hi.
Qed.

Lemma run_seq (a b : regex) (s : pystr) (cs : captures) (k : cont) :
  run (Seq a b) s cs k = run a s cs (fun s' cs' => run b s' cs' k).
Proof. reflexivity. Qed.

(** A match of a pattern that binds group [i] has group [i]. *)
Lemma re_match_bound (r : regex) (s : pystr) (m : captures) (i : nat) :
  binds i r = true -> re_match r s = Some m -> bound i m.
Proof.
  intros Hb H. apply run_reaches in H.
  destruct H as (s' & pre & Hk & _ & Hpre).
  inversion Hk; subst m. apply bound_app_l, Hpre, Hb.
Qed.

(** The CSRF pattern matches only text that holds an apostrophe. *)
Lemma csrf_match_has_apostrophe (db : UnicodeData) (s : pystr) (m : captures) :
  re_match (csrf_pattern db) s = Some m -> In 39%N s.
Proof.
  unfold re_match, csrf_pattern. intros H.
  do 5 (rewrite run_seq in H; apply run_reaches in H;
        destruct H as (? & ? & H & (? & ->) & _); cbv beta in H).
  rewrite run_seq in H.
  change (Lit (u "'")) with (Seq (Class (N.eqb 39)) Eps) in H.
  cbn [run] in H.
  match type of H with
  | match ?s5 with _ => _ end = _ => destruct s5 as [|c t]; [discriminate|]
  end.
  destruct (N.eqb_spec 39 c) as [<-|]; [|discriminate].
  rewrite !in_app_iff. do 5 right. left; reflexivity.
Qed.

(** C7, as amended.  On [csrfToken = 'XYZ123'] the token extractor returns
    [XYZ123].  In general, when the pattern matches at the start of the
    text the extractor returns the text of the group [csrf_token], which is
    always bound; when it does not match, and in particular when the text
    holds no apostrophe, the extractor raises [AttributeError].  It never
    returns [None]. *)
Theorem get_csrf_token_outcome (db : UnicodeData) (html_content : content) :
  get_csrf_token ucd_excerpt (Text (u "csrfToken = 'XYZ123'"))
  = Ok (Some (u "XYZ123"))
  /\ (forall found,
         re_match (csrf_pattern db) (str_of_content html_content) = Some found ->
         exists token, group 2 found = Some token
                       /\ get_csrf_token db html_content = Ok (Some token))
  /\ (re_match (csrf_pattern db) (str_of_content html_content) = None ->
      get_csrf_token db html_content = Raise AttributeError)
  /\ (~ In 39%N (str_of_content html_content) ->
      get_csrf_token db html_content = Raise AttributeError)
  /\ get_csrf_token db html_content <> Ok None.
Proof.
  split; [vm_compute; reflexivity|].
  unfold get_csrf_token.
  destruct (re_match (csrf_pattern db) (str_of_content html_content))
    as [found|] eqn:Hm.
  - assert (Hb : bound 2 found)
      by (apply (re_match_bound (csrf_pattern db) _ _ 2 eq_refl Hm)).
    destruct Hb as (token & Htok).
    split; [intros found' Hf; inversion Hf; subst found';
            exists token; rewrite Htok; auto|].
    split; [discriminate|].
    split; [intros Hno; exfalso; apply Hno;
            eapply csrf_match_has_apostrophe; exact Hm|].
    rewrite Htok. discriminate.
  - split; [discriminate|]. split; [reflexivity|].
    split; [reflexivity | discriminate].
Qed.

Lemma get_csrf_token_outcome_witness :
  ~ In 39%N (str_of_content (Text (u "<html>no token here</html>")))
  /\ get_csrf_token ucd_excerpt (Text (u "<html>no token here</html>"))
     = Raise AttributeError.
Proof.
  assert (Hno : ~ In 39%N (str_of_content (Text (u "<html>no token here</html>")))).
  { vm_compute. intuition discriminate. }
  split; [exact Hno|].
  apply (get_csrf_token_outcome ucd_excerpt
           (Text (u "<html>no token here</html>"))).
  exact Hno.
Defined.

(** C7, as stated, fails: on text that the pattern does not match the
    extractor does not return [None]. *)
Lemma get_csrf_token_no_match_is_not_none :
  ~ (forall (db : UnicodeData) (html_content : content),
        re_match (csrf_pattern db) (str_of_content html_content) = None ->
        get_csrf_token db html_content = Ok None).
Proof.
  intros H.
  specialize (H ucd_excerpt (Text (u "<html>no token here</html>")) eq_refl).
  vm_compute in H. discriminate.
Qed.

(** ** Text normalisation *)

Lemma utf8_decode_ascii (bs : list N) :
  Forall (fun b => (b < 128)%N) bs -> utf8_decode bs = bs.
Proof.
  induction 1 as [|b bs Hb _ IH]; [reflexivity|].
  simpl. apply N.ltb_lt in Hb. change 128%N with 0x80%N in Hb.
  rewrite Hb, IH. reflexivity.
Qed.

Lemma encode_ascii_ignore_ascii (s : pystr) :
  Forall (fun b => (b < 128)%N) (encode_ascii_ignore s).
Proof.
  unfold encode_ascii_ignore. apply Forall_forall. intros c Hc.
  apply filter_In in Hc. apply N.ltb_lt. apply Hc.
Qed.

Lemma replace_from_Forall (P : N -> Prop) (old new : pystr) :
  Forall P new ->
  forall s skip, Forall P s -> Forall P (replace_from old new s skip).
Proof.
  intros Hnew. induction s as [|c t IH]; intros skip Hs; simpl; [constructor|].
  inversion Hs; subst.
  destruct skip; [|auto].
  destruct (startswith old (c :: t)).
  - apply Forall_app; auto.
  - constructor; auto.
Qed.

Lemma replace_space_no_space (s : pystr) :
  ~ In 32%N (replace (u " ") (u "-") s).
Proof.
  change (replace (u " ") (u "-") s) with (replace_from [32%N] [45%N] s 0).
  induction s as [|c t IH]; [simpl; tauto|].
  cbn [replace_from startswith List.length Nat.sub].
  destruct (N.eqb_spec 32 c) as [<-|Hc]; cbn [andb app In]; intros H.
  - destruct H as [H|H]; [discriminate H | exact (IH H)].
  - destruct H as [H|H]; [congruence | exact (IH H)].
Qed.

(** What does hold of [normalize_text] for every database and every
    input: the output is ASCII, it has no space, and the empty string is
    mapped to itself. *)
Lemma normalize_text_ascii (db : UnicodeData) (text : pystr) :
  Forall (fun c => (c < 128)%N) (normalize_text db text).
Proof.
  unfold normalize_text.
  rewrite utf8_decode_ascii by apply encode_ascii_ignore_ascii.
  apply replace_from_Forall.
  - repeat constructor.
  - apply encode_ascii_ignore_ascii.
Qed.

Lemma normalize_text_no_space (db : UnicodeData) (text : pystr) :
  ~ In 32%N (normalize_text db text).
Proof. unfold normalize_text. apply replace_space_no_space. Qed.

Lemma normalize_text_empty (db : UnicodeData) : normalize_text db [] = [].
Proof. reflexivity. Qed.

Lemma canonical_order_starters (db : UnicodeData) (s : pystr) :
  Forall (fun c => combining db c = 0%N) s -> canonical_order db s = s.
Proof.
  unfold canonical_order. intros H.
  assert (G : forall racc,
             fold_left (fun racc c => insert_mark db c racc) s racc
             = rev s ++ racc).
  { induction H as [|c t Hc _ IH]; intros racc; [reflexivity|].
    cbn [fold_left rev]. rewrite IH, <- app_assoc.
    destruct racc as [|p rest]; [reflexivity|].
    cbn [insert_mark]. rewrite Hc.
    rewrite andb_false_r. reflexivity. }
  rewrite G, app_nil_r. apply rev_involutive.
Qed.

Lemma flat_map_singletons {A} (f : A -> list A) (s : list A) :
  Forall (fun c => f c = [c]) s -> flat_map f s = s.
Proof.
  induction 1 as [|c t Hc _ IH]; [reflexivity|].
  simpl. rewrite Hc, IH. reflexivity.
Qed.

Lemma replace_space_absent (s : pystr) :
  ~ In 32%N s -> replace (u " ") (u "-") s = s.
Proof.
  change (replace (u " ") (u "-") s) with (replace_from [32%N] [45%N] s 0).
  induction s as [|c t IH]; [reflexivity|].
  intros Hno. cbn [replace_from startswith List.length Nat.sub].
  destruct (N.eqb_spec 32 c) as [<-|Hc]; cbn [andb].
  - exfalso. apply Hno. left; reflexivity.
  - rewrite IH; [reflexivity|]. intros Hin. apply Hno. right; exact Hin.
Qed.

(** A lowercase ASCII string without a space is left as it is. *)
Lemma normalize_text_fixed (db : UnicodeData) (s : pystr) :
  ascii_faithful db ->
  Forall (fun c => (c < 128)%N) s ->
  ~ In 32%N s ->
  existsb is_capital s = false ->
  normalize_text db s = s.
Proof.
  intros Hdb Hascii Hspace Hlow. unfold normalize_text, lower, nfkd.
  assert (Hl : flat_map (lowercase db) s = s).
  { apply flat_map_singletons. apply Forall_forall. intros c Hc.
    destruct (Hdb c) as (_ & _ & ->);
      [exact (proj1 (Forall_forall _ _) Hascii c Hc)|].
    assert (Hcap : is_capital c = false).
    { destruct (is_capital c) eqn:E; [|reflexivity].
      assert (existsb is_capital s = true)
        by (apply existsb_exists; eauto).
      congruence. }
    rewrite Hcap. reflexivity. }
  assert (Hd : flat_map (decomposition db) s = s).
  { apply flat_map_singletons. apply Forall_forall. intros c Hc.
    apply Hdb. exact (proj1 (Forall_forall _ _) Hascii c Hc). }
  assert (Hc : canonical_order db s = s).
  { apply canonical_order_starters. apply Forall_forall. intros c Hc.
    apply Hdb. exact (proj1 (Forall_forall _ _) Hascii c Hc). }
  rewrite Hl, Hd, Hc.
  assert (He : encode_ascii_ignore s = s).
  { unfold encode_ascii_ignore. apply forallb_filter_id.
    apply forallb_forall. intros c Hin. apply N.ltb_lt.
    exact (proj1 (Forall_forall _ _) Hascii c Hin). }
  rewrite He, (utf8_decode_ascii s Hascii).
  apply replace_space_absent; exact Hspace.
Qed.

(** The second application can only change a result that holds a capital
    letter. *)
Lemma normalize_text_idempotent_on_lowercase (db : UnicodeData) (text : pystr) :
  ascii_faithful db ->
  existsb is_capital (normalize_text db text) = false ->
  normalize_text db (normalize_text db text) = normalize_text db text.
Proof.
  intros Hdb Hlow. apply normalize_text_fixed; auto.
  - apply normalize_text_ascii.
  - apply normalize_text_no_space.
Qed.

Lemma ucd_excerpt_ascii_faithful : ascii_faithful ucd_excerpt.
Proof.
  assert (H : forallb (fun c =>
                str_eqb (decomposition ucd_excerpt c) [c]
                && (combining ucd_excerpt c =? 0)%N
                && str_eqb (lowercase ucd_excerpt c)
                           [if is_capital c then (c + 32)%N else c])
              (map N.of_nat (seq 0 128)) = true)
    by (vm_compute; reflexivity).
  intros c Hc.
  assert (Hin : In c (map N.of_nat (seq 0 128))).
  { apply in_map_iff. exists (N.to_nat c). split; [apply N2Nat.id|].
    apply in_seq. lia. }
  pose proof (proj1 (forallb_forall _ _) H c Hin) as Hc'.
  cbv beta in Hc'.
  apply andb_true_iff in Hc'. destruct Hc' as [Hc' H3].
  apply andb_true_iff in Hc'. destruct Hc' as [H1 H2].
  apply str_eqb_eq in H1. apply str_eqb_eq in H3. apply N.eqb_eq in H2.
  auto.
Qed.

(** *** Canonical ordering does not reach the output

    Only characters of non-zero combining class are moved, and only past
    such characters; none of them is ASCII. *)

Lemma insert_mark_ascii (db : UnicodeData) (c : N) (racc : pystr) :
  (forall a, (a < 128)%N -> combining db a = 0%N) ->
  encode_ascii_ignore (insert_mark db c racc)
  = encode_ascii_ignore (c :: racc).
Proof.
  intros Hccc. unfold encode_ascii_ignore.
  induction racc as [|p rest IH]; [reflexivity|].
  cbn [insert_mark].
  destruct ((combining db c <? combining db p)%N
            && negb (combining db c =? 0)%N) eqn:Hmove; [|reflexivity].
  apply andb_true_iff in Hmove. destruct Hmove as [Hlt Hnz].
  apply N.ltb_lt in Hlt. apply negb_true_iff, N.eqb_neq in Hnz.
  assert (Hp : (p <? 128)%N = false).
  { destruct (N.ltb_spec p 128) as [Hp|]; [|reflexivity].
    rewrite (Hccc p Hp) in Hlt. lia. }
  assert (Hc : (c <? 128)%N = false).
  { destruct (N.ltb_spec c 128) as [Hc|]; [|reflexivity].
    rewrite (Hccc c Hc) in Hnz. contradiction. }
  cbn [filter] in *. rewrite Hp, IH, Hc. reflexivity.
Qed.

Lemma canonical_order_ascii (db : UnicodeData) (s : pystr) :
  (forall a, (a < 128)%N -> combining db a = 0%N) ->
  encode_ascii_ignore (canonical_order db s) = encode_ascii_ignore s.
Proof.
  intros Hccc. unfold canonical_order.
  assert (G : forall racc,
             encode_ascii_ignore
               (fold_left (fun racc c => insert_mark db c racc) s racc)
             = rev (encode_ascii_ignore s) ++ encode_ascii_ignore racc).
  { induction s as [|c t IH]; intros racc; [reflexivity|].
    cbn [fold_left]. rewrite IH, (insert_mark_ascii db c racc Hccc).
    unfold encode_ascii_ignore. cbn [filter].
    destruct (c <? 128)%N; cbn [rev]; rewrite <- ?app_assoc; reflexivity. }
  unfold encode_ascii_ignore in *. rewrite filter_rev, G.
  cbn [filter]. rewrite app_nil_r. apply rev_involutive.
Qed.

(** The ASCII characters that one input character leaves in the output,
    before spaces are replaced. *)
Lemma normalize_text_charwise (db : UnicodeData) (text : pystr) :
  (forall a, (a < 128)%N -> combining db a = 0%N) ->
  normalize_text db text
  = replace (u " ") (u "-")
      (flat_map (fun c => encode_ascii_ignore
                            (flat_map (decomposition db) (lowercase db c)))
                text).
Proof.
  intros Hccc. unfold normalize_text, nfkd, lower.
  rewrite utf8_decode_ascii by apply encode_ascii_ignore_ascii.
  rewrite (canonical_order_ascii db _ Hccc). f_equal.
  induction text as [|c t IH]; [reflexivity|].
  cbn [flat_map]. rewrite flat_map_app.
  unfold encode_ascii_ignore in *. rewrite filter_app, IH. reflexivity.
Qed.

(** In every database in which the lowercase of [Ł] is [ł] and [ł] has no
    decomposition, a leading [Ł] leaves no trace in the result. *)
Lemma normalize_text_drops_l_stroke (db : UnicodeData) (text : pystr) :
  (forall a, (a < 128)%N -> combining db a = 0%N) ->
  lowercase db 0x141 = [0x142%N] ->
  decomposition db 0x142 = [0x142%N] ->
  normalize_text db (0x141%N :: text) = normalize_text db text.
Proof.
  intros Hccc Hl Hd. rewrite !(normalize_text_charwise db _ Hccc).
  cbn [flat_map]. rewrite Hl. cbn [flat_map]. rewrite Hd. reflexivity.
Qed.

(** C1, on the example of the specification.  The lowercase of [Ł] is
    [ł], which has no decomposition and is not ASCII: it is dropped, and
    [Łódź Wola] becomes [odz-wola], not [lodz-wola].  Nor is the output
    always lowercase: the sign [™] has no lowercase and decomposes to
    [TM]. *)
Theorem normalize_text_lodz_wola :
  covered (u "Łódź Wola") = true
  /\ normalize_text ucd_excerpt (u "Łódź Wola") = u "odz-wola"
  /\ lowercase ucd_excerpt 0x141 = [0x142%N]
  /\ decomposition ucd_excerpt 0x142 = [0x142%N]
  /\ covered (u "™") = true
  /\ normalize_text ucd_excerpt (u "™") = u "TM".
Proof. repeat split; vm_compute; reflexivity. Qed.

(** C10, at a failing input.  [normalize_text] maps [™] to [TM], and [TM]
    to [tm]: a second application changes the result. *)
Theorem normalize_text_twice :
  covered (u "™") = true
  /\ normalize_text ucd_excerpt (u "™") = u "TM"
  /\ normalize_text ucd_excerpt (normalize_text ucd_excerpt (u "™")) = u "tm"
  /\ normalize_text ucd_excerpt (normalize_text ucd_excerpt (u "™"))
     <> normalize_text ucd_excerpt (u "™").
Proof.
  repeat split; try (vm_compute; reflexivity).
  vm_compute. discriminate.
Qed.

(* ===================================================================== *)
(** * Part III.  Further properties of the module                          *)
(* ===================================================================== *)

(** ** [normalize_text] *)

Lemma replace_space_map (s : pystr) :
  replace (u " ") (u "-") s
  = map (fun c => if (c =? 32)%N then 45%N else c) s.
Proof.
  change (replace (u " ") (u "-") s) with (replace_from [32%N] [45%N] s 0).
  induction s as [|c t IH]; [reflexivity|].
  cbn [replace_from startswith List.length Nat.sub map].
  rewrite (N.eqb_sym 32 c).
  destruct (c =? 32)%N; cbn [andb app]; rewrite IH; reflexivity.
Qed.

Lemma ascii_faithful_combining (db : UnicodeData) :
  ascii_faithful db -> forall a, (a < 128)%N -> combining db a = 0%N.
Proof. intros H a Ha. apply (H a Ha). Qed.

Lemma is_capital_bounds (c : N) :
  is_capital c = true -> (65 <= c <= 90)%N.
Proof.
  unfold is_capital. intros H. apply andb_true_iff in H.
  destruct H as [H1 H2]. apply N.leb_le in H1. apply N.leb_le in H2.
  change 0x41%N with 65%N in H1. change 0x5A%N with 90%N in H2. lia.
Qed.

(** X1.  Whatever the text and the Unicode database, the result of
    [normalize_text] is made of ASCII characters and holds no space. *)
Theorem normalize_text_url_safe (db : UnicodeData) (text : pystr) :
  Forall (fun c => (c < 128)%N /\ c <> 32%N) (normalize_text db text).
Proof.
  apply Forall_forall. intros c Hc. split.
  - exact (proj1 (Forall_forall _ _) (normalize_text_ascii db text) c Hc).
  - intros ->. exact (normalize_text_no_space db text Hc).
Qed.

Lemma normalize_text_ascii_map (db : UnicodeData) (text : pystr) :
  ascii_faithful db ->
  Forall (fun c => (c < 128)%N) text ->
  normalize_text db text = map ascii_slug_char text.
Proof.
  intros Hdb Hascii.
  rewrite (normalize_text_charwise db text (ascii_faithful_combining db Hdb)).
  rewrite replace_space_map.
  induction Hascii as [|c t Hc _ IH]; [reflexivity|].
  cbn [flat_map]. rewrite map_app, IH. clear IH.
  destruct (Hdb c Hc) as (_ & _ & Hl). rewrite Hl. cbn [flat_map].
  rewrite app_nil_r. cbn [map]. unfold ascii_slug_char at 2.
  destruct (is_capital c) eqn:Hcap.
  - pose proof (is_capital_bounds c Hcap) as Hb.
    assert (Hlow : (c + 32 < 128)%N) by lia.
    destruct (Hdb _ Hlow) as (Hd & _ & _). rewrite Hd.
    unfold encode_ascii_ignore. cbn [filter].
    rewrite (proj2 (N.ltb_lt _ _) Hlow). cbn [map app].
    destruct (N.eqb_spec (c + 32) 32) as [Heq|]; [lia | reflexivity].
  - destruct (Hdb _ Hc) as (Hd & _ & _). rewrite Hd.
    unfold encode_ascii_ignore. cbn [filter].
    rewrite (proj2 (N.ltb_lt _ _) Hc). reflexivity.
Qed.

(** X2.  On ASCII text [normalize_text] works character by character: a
    capital letter becomes the small one, a space becomes a hyphen, every
    other character stays; the length does not change. *)
Theorem normalize_text_on_ascii (db : UnicodeData) (text : pystr) :
  ascii_faithful db ->
  Forall (fun c => (c < 128)%N) text ->
  normalize_text db text = map ascii_slug_char text
  /\ List.length (normalize_text db text) = List.length text.
Proof.
  intros Hdb Hascii.
  rewrite (normalize_text_ascii_map db text Hdb Hascii).
  split; [reflexivity | apply length_map].
Qed.

Lemma normalize_text_on_ascii_witness :
  normalize_text ucd_excerpt (u "Nowy Targ") = u "nowy-targ"
  /\ List.length (normalize_text ucd_excerpt (u "Nowy Targ")) = 9.
Proof.
  apply (normalize_text_on_ascii ucd_excerpt (u "Nowy Targ")
           ucd_excerpt_ascii_faithful).
  vm_compute. repeat constructor.
Defined.

(** X3.  [normalize_text] distributes over concatenation, in every
    database that gives the ASCII characters combining class zero. *)
Theorem normalize_text_app (db : UnicodeData) (a b : pystr) :
  (forall c, (c < 128)%N -> combining db c = 0%N) ->
  normalize_text db (a ++ b) = normalize_text db a ++ normalize_text db b.
Proof.
  intros Hccc. rewrite !(normalize_text_charwise db _ Hccc).
  rewrite !replace_space_map, flat_map_app, map_app. reflexivity.
Qed.

Lemma normalize_text_app_witness :
  normalize_text ucd_excerpt (u "Zielona " ++ u "Góra")
  = normalize_text ucd_excerpt (u "Zielona ")
    ++ normalize_text ucd_excerpt (u "Góra").
Proof.
  apply (normalize_text_app ucd_excerpt (u "Zielona ") (u "Góra")).
  apply ascii_faithful_combining, ucd_excerpt_ascii_faithful.
Defined.

(** X4.  A result of [normalize_text] that holds no capital letter is a
    fixed point: normalising it again returns it unchanged. *)
Theorem normalize_text_stable (db : UnicodeData) (text : pystr) :
  ascii_faithful db ->
  existsb is_capital (normalize_text db text) = false ->
  normalize_text db (normalize_text db text) = normalize_text db text.
Proof.
  intros Hdb Hlow.
  rewrite (normalize_text_ascii_map db (normalize_text db text) Hdb
             (normalize_text_ascii db text)).
  pose proof (normalize_text_no_space db text) as Hsp.
  induction (normalize_text db text) as [|c t IH]; [reflexivity|].
  cbn [existsb] in Hlow. apply orb_false_iff in Hlow. destruct Hlow as [Hc Ht].
  cbn [map]. rewrite IH; [|exact Ht|intros Hin; apply Hsp; right; exact Hin].
  unfold ascii_slug_char. rewrite Hc.
  destruct (N.eqb_spec c 32) as [->|]; [|reflexivity].
  exfalso. apply Hsp. left; reflexivity.
Qed.

Lemma normalize_text_stable_witness :
  normalize_text ucd_excerpt (normalize_text ucd_excerpt (u "Łódź Wola"))
  = normalize_text ucd_excerpt (u "Łódź Wola").
Proof.
  apply (normalize_text_stable ucd_excerpt (u "Łódź Wola")
           ucd_excerpt_ascii_faithful).
  vm_compute. reflexivity.
Defined.

(** ** [replace_all] *)

Lemma startswith_true (p s : pystr) :
  startswith p s = true -> exists q, s = p ++ q.
Proof.
  revert s. induction p as [|x p IH]; intros s H; [exists s; reflexivity|].
  destruct s as [|y s]; [discriminate|].
  simpl in H. apply andb_true_iff in H. destruct H as [Hxy H].
  apply N.eqb_eq in Hxy. subst y.
  destruct (IH s H) as (q & ->). exists q. reflexivity.
Qed.

Lemma replace_absent (old new s : pystr) :
  ~ occurs old s -> replace old new s = s.
Proof.
  intros Hno. destruct old as [|x old].
  - exfalso. apply Hno. exists [], s. reflexivity.
  - cbn [replace]. induction s as [|c t IH]; [reflexivity|].
    cbn [replace_from].
    destruct (startswith (x :: old) (c :: t)) eqn:Hs.
    + exfalso. apply Hno. apply startswith_true in Hs.
      destruct Hs as (q & ->). exists [], q. reflexivity.
    + rewrite IH; [reflexivity|].
      intros (p & q & ->). apply Hno. exists (c :: p), q. reflexivity.
Qed.

(** X5.  [replace_all] returns the text unchanged when none of the keys
    of the dictionary occurs in it. *)
Theorem replace_all_absent (text : pystr) (dic : list (pystr * pystr)) :
  Forall (fun e => ~ occurs (fst e) text) dic ->
  replace_all text dic = text.
Proof.
  unfold replace_all. induction 1 as [|e rest He _ IH]; [reflexivity|].
  cbn [fold_left]. rewrite (replace_absent _ _ _ He). exact IH.
Qed.

Lemma no_occurrence_of_char (c : N) (s : pystr) :
  ~ In c s -> ~ occurs [c] s.
Proof.
  intros Hno (p & q & ->). apply Hno.
  apply in_or_app. right. left. reflexivity.
Qed.

Lemma replace_all_absent_witness :
  replace_all (u "gdansk") [(u "ń", u "n"); (u "ó", u "o")] = u "gdansk".
Proof.
  apply (replace_all_absent (u "gdansk") [(u "ń", u "n"); (u "ó", u "o")]).
  repeat constructor; apply no_occurrence_of_char; vm_compute;
    intuition discriminate.
Defined.

Lemma replace_single_map (k v : N) (s : pystr) :
  replace [k] [v] s = map (fun c => if (k =? c)%N then v else c) s.
Proof.
  cbn [replace]. induction s as [|c t IH]; [reflexivity|].
  cbn [replace_from startswith List.length Nat.sub map].
  destruct (k =? c)%N; cbn [andb app]; rewrite IH; reflexivity.
Qed.

(** X6.  With a dictionary of single characters, [replace_all] acts on
    each character of the text separately: the character goes through the
    replacements in the order of the dictionary, so that a replacement can
    be replaced again by a later entry.  The length of the text is kept. *)
Theorem replace_all_single_chars (text : pystr) (dic : list (pystr * pystr)) :
  Forall single_chars dic ->
  replace_all text dic = map (substitute dic) text
  /\ List.length (replace_all text dic) = List.length text.
Proof.
  intros Hdic.
  assert (E : replace_all text dic = map (substitute dic) text).
  { unfold replace_all, substitute. revert text.
    induction Hdic as [|[key val] rest [Hk Hv] _ IH]; intros text.
    - cbn [fold_left]. rewrite map_id. reflexivity.
    - cbn [fst snd] in Hk, Hv.
      destruct key as [|k [|? ?]]; try discriminate.
      destruct val as [|v [|? ?]]; try discriminate.
      cbn [fold_left fst snd]. rewrite replace_single_map, IH, map_map.
      reflexivity. }
  split; [exact E|]. rewrite E. apply length_map.
Qed.

Lemma replace_all_single_chars_witness :
  replace_all (u "abba") [(u "a", u "b"); (u "b", u "c")] = u "cccc"
  /\ List.length (replace_all (u "abba") [(u "a", u "b"); (u "b", u "c")]) = 4.
Proof.
  apply (replace_all_single_chars (u "abba")
           [(u "a", u "b"); (u "b", u "c")]).
  repeat constructor.
Defined.

(** ** [get_cookie_from] *)

Lemma split_semicolon_head (s cur : pystr) :
  exists cookie rest,
    hd_error (split_from (u ";") s 0 cur) = Some (rev cur ++ cookie)
    /\ s = cookie ++ rest
    /\ ~ In 59%N cookie
    /\ (rest = [] \/ exists r, rest = 59%N :: r).
Proof.
  change (u ";") with [59%N].
  revert cur. induction s as [|c t IH]; intros cur.
  - exists [], []. cbn. rewrite app_nil_r. auto.
  - cbn [split_from startswith List.length Nat.sub].
    destruct (N.eqb_spec 59 c) as [<-|Hc]; cbn [andb].
    + exists [], (59%N :: t). cbn [hd_error]. rewrite app_nil_r.
      repeat split; eauto.
    + destruct (IH (c :: cur)) as (cookie & rest & Hh & -> & Hno & Hrest).
      exists (c :: cookie), rest. rewrite Hh. cbn [rev].
      rewrite <- app_assoc. repeat split; auto.
      intros [H|H]; [congruence | exact (Hno H)].
Qed.

(** X7.  With a [Set-Cookie] header, [get_cookie_from] returns what the
    header holds before its first semicolon: a prefix of the header
    without a semicolon, followed in the header by nothing or by a
    semicolon.  It does not raise. *)
Theorem get_cookie_from_prefix (response : Response) (header : pystr) :
  headers response (u "Set-Cookie") = Some header ->
  exists cookie rest,
    get_cookie_from response = Ok cookie
    /\ header = cookie ++ rest
    /\ ~ In 59%N cookie
    /\ (rest = [] \/ exists r, rest = 59%N :: r).
Proof.
  intros Hh. unfold get_cookie_from. rewrite Hh. cbn [rbind].
  destruct (split_semicolon_head header []) as (cookie & rest & H & Hrest).
  exists cookie, rest. split; [|exact Hrest].
  unfold list_getitem, split.
  destruct (split_from (u ";") header 0 []) as [|x l]; [discriminate|].
  cbn in H. inversion H. reflexivity.
Qed.

Lemma get_cookie_from_prefix_witness :
  exists cookie rest,
    get_cookie_from (cookie_response (u "id=abc; Path=/")) = Ok cookie
    /\ u "id=abc; Path=/" = cookie ++ rest
    /\ ~ In 59%N cookie
    /\ (rest = [] \/ exists r, rest = 59%N :: r).
Proof.
  apply (get_cookie_from_prefix (cookie_response (u "id=abc; Path=/"))).
  reflexivity.
Defined.

(** Without a [Set-Cookie] header, [get_cookie_from] raises [KeyError]; a
    header that is empty or begins with a semicolon gives the empty
    cookie. *)
Remark get_cookie_from_edges (response : Response) :
  (headers response (u "Set-Cookie") = None ->
   get_cookie_from response = Raise KeyError)
  /\ (forall rest,
        headers response (u "Set-Cookie") = Some (59%N :: rest) ->
        get_cookie_from response = Ok [])
  /\ (headers response (u "Set-Cookie") = Some [] ->
      get_cookie_from response = Ok []).
Proof.
  unfold get_cookie_from. repeat split.
  - intros ->. reflexivity.
  - intros rest ->. reflexivity.
  - intros ->. reflexivity.
Qed.

(** ** [get_region_from_filters] *)

Lemma region_from_filters_entries (filters : pydict) :
  get_region_from_filters filters
  = flat_map (entry_of filters) REGION_DATA_KEYS.
Proof.
  unfold get_region_from_filters, REGION_DATA_KEYS, entry_of.
  cbn [fold_left flat_map].
  destruct (dict_mem (u "city") filters) eqn:M1,
           (dict_mem (u "voivodeship") filters) eqn:M2,
           (dict_mem (u "[district_id]") filters) eqn:M3,
           (dict_mem (u "[street_id]") filters) eqn:M4;
    repeat match goal with
           | H : dict_mem ?k filters = true |- _ =>
             rewrite (dict_mem_lookup k filters H); clear H
           | H : dict_mem ?k filters = false |- _ =>
             rewrite (dict_not_mem_lookup k filters H); clear H
           end;
    reflexivity.
Qed.

(** X8.  [get_region_from_filters] is a projection: applied to its own
    result it returns that result. *)
Theorem get_region_from_filters_idempotent (filters : pydict) :
  get_region_from_filters (get_region_from_filters filters)
  = get_region_from_filters filters.
Proof.
  rewrite (region_from_filters_entries (get_region_from_filters filters)).
  rewrite (region_from_filters_entries filters) at 2.
  unfold entry_of, REGION_DATA_KEYS. cbn [flat_map].
  rewrite !lookup_region_from_filters.
  reflexivity.
Qed.

Lemma entries_keys (filters : pydict) (keys : list pystr) :
  map fst (flat_map (entry_of filters) keys)
  = filter (fun key => dict_mem key filters) keys.
Proof.
  induction keys as [|key keys IH]; [reflexivity|].
  cbn [flat_map filter]. rewrite map_app, IH. unfold entry_of.
  destruct (dict_mem key filters) eqn:M.
  - rewrite (dict_mem_lookup _ _ M). reflexivity.
  - rewrite (dict_not_mem_lookup _ _ M). reflexivity.
Qed.

(** X9.  The result of [get_region_from_filters] depends on the filters
    only through the values of the four region keys: filters that agree on
    them give the same result, in whatever order the caller passed them.
    The result lists the entries of the region keys that the filters hold
    in the order [city], [voivodeship], [[district_id]], [[street_id]]. *)
Theorem get_region_from_filters_by_lookup (filters filters' : pydict) :
  let region_keys :=
    [u "city"; u "voivodeship"; u "[district_id]"; u "[street_id]"] in
  (forall key, In key region_keys ->
               dict_lookup key filters = dict_lookup key filters') ->
  get_region_from_filters filters = get_region_from_filters filters'
  /\ get_region_from_filters filters = flat_map (entry_of filters) region_keys
  /\ map fst (get_region_from_filters filters)
     = filter (fun key => dict_mem key filters) region_keys.
Proof.
  intros region_keys H. subst region_keys.
  rewrite !region_from_filters_entries.
  unfold REGION_DATA_KEYS.
  split; [|split; [reflexivity|]].
  - unfold entry_of. cbn [flat_map].
    rewrite !H by (cbn [In]; tauto). reflexivity.
  - apply entries_keys.
Qed.

Lemma get_region_from_filters_by_lookup_witness :
  get_region_from_filters filters_city_last
  = get_region_from_filters filters_city_first
  /\ get_region_from_filters filters_city_last
     = [(u "city", VStr (u "warszawa_1")); (u "[district_id]", VInt 39)].
Proof.
  destruct (get_region_from_filters_by_lookup filters_city_last
              filters_city_first) as (Hsame & Hentries & _).
  - intros key Hkey. cbn [In] in Hkey.
    destruct Hkey as [<-|[<-|[<-|[<-|[]]]]]; vm_compute; reflexivity.
  - split; [exact Hsame|]. rewrite Hentries. vm_compute. reflexivity.
Defined.

(** ** Shape of the resolved region *)

Lemma city_slug_is_str (E : Env) (response : pyval) (text : list pystr)
    (i : nat) (v : pyval) :
  city_slug E response text i = Ok v -> exists s, v = VStr s.
Proof.
  unfold city_slug. intros H.
  apply rbind_ok in H. destruct H as (name & _ & H).
  apply rbind_ok in H. destruct H as (cid & _ & H).
  inversion H. eauto.
Qed.

Lemma region_of_response_shape (E : Env) (response : pyval)
    (region_dict : pydict) :
  region_of_response E response = Ok region_dict ->
  region_shape region_dict.
Proof.
  unfold region_of_response. intros H.
  apply rbind_ok in H. destruct H as (level & _ & H).
  apply rbind_ok in H. destruct H as (raw & _ & H).
  apply rbind_ok in H. destruct H as (text & _ & H).
  destruct (eq_str level (u "CITY")).
  { apply rbind_ok in H. destruct H as (city & Hc & H).
    apply city_slug_is_str in Hc. destruct Hc as (s & ->).
    inversion H. apply shape_city. }
  destruct (eq_str level (u "DISTRICT")).
  { apply rbind_ok in H. destruct H as (city & Hc & H).
    apply city_slug_is_str in Hc. destruct Hc as (s & ->).
    apply rbind_ok in H. destruct H as (id & _ & H).
    inversion H. apply shape_district. }
  destruct (eq_str level (u "REGION")).
  { apply rbind_ok in H. destruct H as (name & _ & H).
    inversion H. apply shape_voivodeship. }
  destruct (eq_str level (u "STREET")).
  { apply rbind_ok in H. destruct H as (city & Hc & H).
    apply city_slug_is_str in Hc. destruct Hc as (s & ->).
    apply rbind_ok in H. destruct H as (id & _ & H).
    inversion H. apply shape_street. }
  inversion H. apply shape_empty.
Qed.

Lemma autosuggest_shape (E : Env) (region_part : pystr)
    (region_dict : pydict) :
  outcome (get_region_from_autosuggest E region_part) = Ok region_dict ->
  region_shape region_dict.
Proof.
  destruct region_part as [|c t].
  - intros H. inversion H. apply shape_empty.
  - rewrite autosuggest_outcome by discriminate. intros H.
    apply rbind_ok in H. destruct H as (response & _ & H).
    eapply region_of_response_shape; exact H.
Qed.

(** X10.  A mapping returned by [get_region_from_autosuggest] is empty or
    has one of four shapes: a city; a city and a district id; a
    voivodeship; a city and a street id.  So its keys are region keys, it
    never holds both a city and a voivodeship, an id never comes without
    its city, and the city and the voivodeship are strings. *)
Theorem autosuggest_region_shape (E : Env) (region_part : pystr)
    (region_dict : pydict) :
  outcome (get_region_from_autosuggest E region_part) = Ok region_dict ->
  region_shape region_dict
  /\ (forall key, dict_mem key region_dict = true -> is_region_key key = true)
  /\ dict_mem (u "city") region_dict && dict_mem (u "voivodeship") region_dict
     = false
  /\ (dict_mem (u "[district_id]") region_dict
      || dict_mem (u "[street_id]") region_dict = true ->
      dict_mem (u "city") region_dict = true)
  /\ str_valued (u "city") region_dict
  /\ str_valued (u "voivodeship") region_dict.
Proof.
  intros H. apply autosuggest_shape in H.
  split; [exact H|].
  assert (Hkeys : forall key, dict_mem key region_dict = true ->
                              is_region_key key = true).
  { intros key Hm. unfold dict_mem in Hm.
    apply existsb_exists in Hm. destruct Hm as ([k v] & Hin & Hk).
    apply str_eqb_eq in Hk. cbn [fst] in Hk. subst k.
    destruct H; cbn [In] in Hin;
      repeat match goal with
             | H : _ \/ _ |- _ => destruct H
             | H : False |- _ => destruct H
             | H : (_, _) = (_, _) |- _ => inversion H; clear H; subst
             end; reflexivity. }
  split; [exact Hkeys|].
  destruct H; repeat split; try reflexivity; try discriminate;
    intros w Hw; vm_compute in Hw; inversion Hw; eauto.
Qed.

Lemma autosuggest_region_shape_witness :
  region_shape warszawa_region
  /\ (forall key, dict_mem key warszawa_region = true ->
                  is_region_key key = true)
  /\ dict_mem (u "city") warszawa_region
     && dict_mem (u "voivodeship") warszawa_region = false
  /\ (dict_mem (u "[district_id]") warszawa_region
      || dict_mem (u "[street_id]") warszawa_region = true ->
      dict_mem (u "city") warszawa_region = true)
  /\ str_valued (u "city") warszawa_region
  /\ str_valued (u "voivodeship") warszawa_region.
Proof.
  apply (autosuggest_region_shape
           (answering (VList [city_suggestion])) (u "war") warszawa_region).
  vm_compute. reflexivity.
Defined.

(** ** What [get_url] logs and requests *)

Lemma autosuggest_no_log (E : Env) (region_part : pystr) :
  log_lines (trace (get_region_from_autosuggest E region_part)) = [].
Proof.
  destruct region_part as [|c t]; [reflexivity|].
  rewrite autosuggest_trace by discriminate. reflexivity.
Qed.

Lemma log_lines_app (t t' : list event) :
  log_lines (t ++ t') = log_lines t ++ log_lines t'.
Proof. apply flat_map_app. Qed.

Lemma http_requests_app (t t' : list event) :
  http_requests (t ++ t') = http_requests t ++ http_requests t'.
Proof. apply flat_map_app. Qed.

Lemma finish_url_events (E : Env) (mc dc app : pystr) (page : pyval)
    (filters region_data : pydict) :
  let call := finish_url E mc dc app page filters region_data in
  log_lines (trace call)
  = match outcome call with Ok url => [url] | Raise _ => [] end
  /\ http_requests (trace call) = [].
Proof.
  unfold finish_url.
  destruct (build_url E mc dc app (page_fragment (ucd E) page) filters
                      region_data); split; reflexivity.
Qed.

(** X11.  A call of [get_url] that returns has logged one line, the URL it
    returns; a call that raises has logged nothing. *)
Theorem get_url_logs_its_result (E : Env) (main_category detail_category
    region ads_per_page : pystr) (page : pyval) (filters : pydict) :
  let call :=
    get_url E main_category detail_category region ads_per_page page filters in
  log_lines (trace call)
  = match outcome call with
    | Ok url => [url]
    | Raise _ => []
    end.
Proof.
  intros call. subst call. unfold get_url.
  destruct (has_region_key filters).
  - rewrite bind_ret. apply finish_url_events.
  - pose proof (autosuggest_no_log E region) as Hlog.
    destruct (get_region_from_autosuggest E region) as [t [rd|e]];
      cbn [trace fst] in Hlog; [|exact Hlog].
    pose proof (finish_url_events E main_category detail_category
                  ads_per_page page filters rd) as [Hf _].
    cbn [bind].
    destruct (finish_url E main_category detail_category ads_per_page page
                         filters rd) as [t' r].
    cbn [trace outcome fst snd] in *.
    rewrite log_lines_app, Hlog. exact Hf.
Qed.

(** X12.  [get_url] requests at most one URL: none when the filters hold a
    region key or the region is empty, otherwise the autosuggest URL of the
    region.  When the resolver raises, [get_url] raises the same exception. *)
Theorem get_url_requests (E : Env) (main_category detail_category
    region ads_per_page : pystr) (page : pyval) (filters : pydict) :
  let call :=
    get_url E main_category detail_category region ads_per_page page filters in
  http_requests (trace call)
  = (if has_region_key filters then []
     else match region with
          | [] => []
          | _ :: _ => [autosuggest_url ++ region]
          end)
  /\ (has_region_key filters = false ->
      forall e, outcome (get_region_from_autosuggest E region) = Raise e ->
                outcome call = Raise e).
Proof.
  intros call. subst call. unfold get_url.
  destruct (has_region_key filters).
  - rewrite bind_ret. split; [apply finish_url_events | discriminate].
  - assert (Hreq : http_requests (trace (get_region_from_autosuggest E region))
                   = match region with
                     | [] => []
                     | _ :: _ => [autosuggest_url ++ region]
                     end).
    { destruct region as [|c t]; [reflexivity|].
      rewrite autosuggest_trace by discriminate. reflexivity. }
    destruct (get_region_from_autosuggest E region) as [t [rd|e]];
      cbn [trace outcome fst snd] in *.
    + split; [|discriminate].
      pose proof (finish_url_events E main_category detail_category
                    ads_per_page page filters rd) as [_ Hf].
      cbn [bind].
      destruct (finish_url E main_category detail_category ads_per_page page
                           filters rd) as [t' r].
      cbn [trace fst] in *.
      rewrite http_requests_app, Hf, app_nil_r. exact Hreq.
    + split; [exact Hreq|]. intros _ e' He'. cbn [bind outcome snd].
      inversion He'. reflexivity.
Qed.

Lemma get_url_requests_witness :
  outcome (get_url offline (u "sprzedaz") (u "mieszkanie") (u "wola") []
                   VNone [])
  = Raise RequestException.
Proof.
  assert (Hdown : outcome (get_region_from_autosuggest offline (u "wola"))
                  = Raise RequestException) by (vm_compute; reflexivity).
  exact (proj2 (get_url_requests offline (u "sprzedaz") (u "mieszkanie")
                  (u "wola") [] VNone [])
               eq_refl RequestException Hdown).
Defined.

(** ** [get_url] without the network *)

(** X13.  When the filters hold a region key, the outcome of [get_url]
    depends neither on the [region] argument nor on the network: it is the
    same for every region and in every environment with the same Unicode
    database and base URL. *)
Theorem get_url_filter_mode_offline (E E' : Env) (main_category
    detail_category region region' ads_per_page : pystr) (page : pyval)
    (filters : pydict) :
  has_region_key filters = true ->
  ucd E = ucd E' ->
  BASE_URL E = BASE_URL E' ->
  get_url E main_category detail_category region ads_per_page page filters
  = get_url E' main_category detail_category region' ads_per_page page filters.
Proof.
  intros Hk Hu Hb. unfold get_url. rewrite Hk, !bind_ret.
  unfold finish_url, build_url, url_path. rewrite Hu, Hb. reflexivity.
Qed.

Lemma get_url_filter_mode_offline_witness :
  get_url offline (u "sprzedaz") (u "mieszkanie") (u "Kraków")
          (u "?nrAdsPerPage=72") (VInt 2) blok_filters
  = get_url (answering (VList [city_suggestion])) (u "sprzedaz")
            (u "mieszkanie") (u "war") (u "?nrAdsPerPage=72") (VInt 2)
            blok_filters.
Proof.
  apply (get_url_filter_mode_offline offline
           (answering (VList [city_suggestion])));
    [vm_compute; reflexivity | reflexivity | vm_compute; reflexivity].
Defined.

(** ** Layout of the URL *)

Lemma get_url_filter_outcome (E : Env) (mc dc region app : pystr)
    (page : pyval) (filters : pydict) :
  has_region_key filters = true ->
  outcome (get_url E mc dc region app page filters)
  = build_url E mc dc app (page_fragment (ucd E) page) filters
              (get_region_from_filters filters).
Proof.
  intros Hk. unfold get_url. rewrite Hk, bind_ret. unfold finish_url.
  destruct (build_url E mc dc app (page_fragment (ucd E) page) filters
                      (get_region_from_filters filters)); reflexivity.
Qed.

Lemma Ok_inj {A} (a b : A) : Ok a = Ok b -> a = b.
Proof. intros H. injection H. auto. Qed.

Lemma url_path_layout (E : Env) (mc dc : pystr) (location : pyval)
    (filters : pydict) (path : pystr) :
  url_path E mc dc location filters = Ok path ->
  exists l,
    location = VStr l
    /\ path = BASE_URL E ++ u "/" ++ mc ++ u "/" ++ dc ++ u "/" ++ l
              ++ path_segments filters.
Proof.
  unfold url_path, path_segments, dict_getitem. intros H.
  destruct location as [| | | |l| |]; try discriminate H.
  exists l. split; [reflexivity|].
  cbn [join_values rbind join] in H.
  destruct (dict_mem (u "building_type") filters) eqn:Mb.
  - rewrite (dict_mem_lookup _ _ Mb) in *. cbn [rbind] in H.
    destruct (dict_get (u "building_type") filters) as [| | | |b| |];
      try discriminate H.
    cbn [rbind] in H.
    destruct (dict_mem (u "description_fragment") filters) eqn:Md.
    + rewrite (dict_mem_lookup _ _ Md) in *. cbn [rbind] in H.
      destruct (dict_get (u "description_fragment") filters) as [| | | |d| |];
        try discriminate H.
      apply Ok_inj in H. subst path.
      rewrite <- ?app_assoc, ?app_nil_r. reflexivity.
    + rewrite (dict_not_mem_lookup _ _ Md). apply Ok_inj in H. subst path.
      rewrite <- ?app_assoc, ?app_nil_r. reflexivity.
  - rewrite (dict_not_mem_lookup _ _ Mb) in *. cbn [rbind] in H.
    destruct (dict_mem (u "description_fragment") filters) eqn:Md.
    + rewrite (dict_mem_lookup _ _ Md) in *. cbn [rbind] in H.
      destruct (dict_get (u "description_fragment") filters) as [| | | |d| |];
        try discriminate H.
      apply Ok_inj in H. subst path.
      rewrite <- ?app_assoc, ?app_nil_r. reflexivity.
    + rewrite (dict_not_mem_lookup _ _ Md). apply Ok_inj in H. subst path.
      rewrite <- ?app_assoc, ?app_nil_r. reflexivity.
Qed.

Lemma location_layout (filters : pydict) (l : pystr) :
  city_or_voivodeship (get_region_from_filters filters) = Ok (VStr l) ->
  l = location_of filters.
Proof.
  unfold city_or_voivodeship, location_of, dict_getitem.
  pose proof (lookup_region_from_filters filters (u "city")) as Hc.
  pose proof (lookup_region_from_filters filters (u "voivodeship")) as Hv.
  change (is_region_key (u "city")) with true in Hc.
  change (is_region_key (u "voivodeship")) with true in Hv.
  cbv iota in Hc, Hv. rewrite <- Hc, <- Hv.
  destruct (dict_mem (u "city") (get_region_from_filters filters)) eqn:Mc.
  - rewrite (dict_mem_lookup _ _ Mc). intros H. apply Ok_inj in H. rewrite H. reflexivity.
  - rewrite (dict_not_mem_lookup _ _ Mc).
    destruct (dict_mem (u "voivodeship") (get_region_from_filters filters))
      eqn:Mv.
    + rewrite (dict_mem_lookup _ _ Mv). intros H. apply Ok_inj in H. rewrite H. reflexivity.
    + rewrite (dict_not_mem_lookup _ _ Mv). intros H. apply Ok_inj in H. inversion H.
      reflexivity.
Qed.

(** X14.  When the filters hold a region key and [get_url] returns, the URL
    is the base URL, the two categories and the location joined with [/]
    (the location is the city, a voivodeship counts only without a city),
    then the building type, then the description fragment as [/q-] and its
    words joined with hyphens, then the query. *)
Theorem get_url_layout (E : Env) (main_category detail_category region
    ads_per_page : pystr) (page : pyval) (filters : pydict) (url : pystr) :
  has_region_key filters = true ->
  outcome (get_url E main_category detail_category region ads_per_page page
                   filters) = Ok url ->
  exists filter_list,
    append_filters (ucd E) filters [] = Ok filter_list
    /\ url = BASE_URL E ++ u "/" ++ main_category ++ u "/" ++ detail_category
             ++ u "/" ++ location_of filters ++ path_segments filters
             ++ join (u "&")
                  (ads_per_page :: page_fragment (ucd E) page :: filter_list).
Proof.
  intros Hk H. rewrite (get_url_filter_outcome _ _ _ _ _ _ _ Hk) in H.
  unfold build_url in H.
  apply rbind_ok in H. destruct H as (location & Hl & H).
  rewrite promote_ids_from_filters in H. cbn [rbind] in H.
  apply rbind_ok in H. destruct H as (path & Hp & H).
  apply rbind_ok in H. destruct H as (filter_list & Hf & H).
  apply Ok_inj in H. subst url.
  apply url_path_layout in Hp. destruct Hp as (l & -> & ->).
  apply location_layout in Hl. subst l.
  exists filter_list. split; [exact Hf|].
  rewrite <- !app_assoc. reflexivity.
Qed.

Lemma get_url_layout_witness :
  exists filter_list,
    append_filters (ucd offline) blok_filters [] = Ok filter_list
    /\ blok_url
       = BASE_URL offline ++ u "/" ++ u "sprzedaz" ++ u "/" ++ u "mieszkanie"
         ++ u "/" ++ location_of blok_filters ++ path_segments blok_filters
         ++ join (u "&")
              (u "?nrAdsPerPage=72" :: page_fragment (ucd offline) (VInt 2)
                 :: filter_list).
Proof.
  apply (get_url_layout offline (u "sprzedaz") (u "mieszkanie") []
           (u "?nrAdsPerPage=72") (VInt 2) blok_filters blok_url).
  - vm_compute. reflexivity.
  - vm_compute. reflexivity.
Defined.

(** ** Values that are not strings *)

Lemma join_values_not_str (parts : list pyval) (v : pyval) :
  not_str v ->
  Forall (fun p => exists s, p = VStr s) parts ->
  join_values (parts ++ [v]) = Raise TypeError.
Proof.
  intros Hv. induction 1 as [|p rest (s & ->) _ IH].
  - destruct v; try reflexivity. exfalso. eapply Hv; reflexivity.
  - cbn [app join_values]. rewrite IH. reflexivity.
Qed.

(** X15.  With a region key in the filters, [get_url] raises [TypeError]
    when the city is not a string, [TypeError] when the building type is
    not a string, and [AttributeError] when the description fragment is
    not a string (each provided the values used before it are strings). *)
Theorem get_url_type_errors (E : Env) (main_category detail_category region
    ads_per_page : pystr) (page : pyval) (filters : pydict) :
  has_region_key filters = true ->
  let result :=
    outcome (get_url E main_category detail_category region ads_per_page page
                     filters) in
  (forall v, dict_lookup (u "city") filters = Some v -> not_str v ->
             result = Raise TypeError)
  /\ (str_valued (u "city") filters -> str_valued (u "voivodeship") filters ->
      forall v, dict_lookup (u "building_type") filters = Some v ->
                not_str v -> result = Raise TypeError)
  /\ (str_valued (u "city") filters -> str_valued (u "voivodeship") filters ->
      str_valued (u "building_type") filters ->
      forall v, dict_lookup (u "description_fragment") filters = Some v ->
                not_str v -> result = Raise AttributeError).
Proof.
  intros Hk result. subst result.
  rewrite (get_url_filter_outcome _ _ _ _ _ _ _ Hk).
  unfold build_url. rewrite promote_ids_from_filters.
  split; [|split].
  - intros v Hv Hns.
    assert (Hl : city_or_voivodeship (get_region_from_filters filters) = Ok v).
    { unfold city_or_voivodeship, dict_getitem.
      pose proof (lookup_region_from_filters filters (u "city")) as Hc.
      change (is_region_key (u "city")) with true in Hc. cbv iota in Hc.
      rewrite Hv in Hc. rewrite (dict_lookup_mem _ _ _ Hc), Hc. reflexivity. }
    rewrite Hl. cbn [rbind]. unfold url_path.
    change [VStr (BASE_URL E); VStr main_category; VStr detail_category; v]
      with ([VStr (BASE_URL E); VStr main_category; VStr detail_category]
              ++ [v]).
    rewrite (join_values_not_str _ v Hns); [reflexivity|].
    repeat constructor; eauto.
  - intros Hc Hvv v Hv Hns.
    destruct (location_from_filters filters Hc Hvv) as (l & ->).
    cbn [rbind]. unfold url_path, dict_getitem. cbn [join_values rbind].
    rewrite (dict_lookup_mem _ _ _ Hv), Hv. cbn [rbind].
    destruct v; try reflexivity. exfalso. eapply Hns; reflexivity.
  - intros Hc Hvv Hb v Hv Hns.
    destruct (location_from_filters filters Hc Hvv) as (l & ->).
    cbn [rbind]. unfold url_path, dict_getitem. cbn [join_values rbind].
    assert (H1 : exists url1,
              (if dict_mem (u "building_type") filters
               then let? v := match dict_lookup (u "building_type") filters with
                              | Some v => Ok v
                              | None => Raise KeyError
                              end in
                    match v with
                    | VStr b =>
                      Ok (join (u "/")
                            [BASE_URL E; main_category; detail_category; l]
                          ++ u "/" ++ b)
                    | _ => Raise TypeError
                    end
               else Ok (join (u "/")
                          [BASE_URL E; main_category; detail_category; l]))
              = Ok url1).
    { destruct (dict_mem (u "building_type") filters) eqn:M; [|eauto].
      apply dict_mem_lookup in M. destruct (Hb _ M) as (b & Hbv).
      rewrite M, Hbv. cbn [rbind]. eauto. }
    destruct H1 as (url1 & ->). cbn [rbind].
    rewrite (dict_lookup_mem _ _ _ Hv), Hv. cbn [rbind].
    destruct v; try reflexivity. exfalso. eapply Hns; reflexivity.
Qed.

Lemma get_url_type_errors_witness :
  has_region_key bad_building_filters = true
  /\ outcome (get_url offline (u "sprzedaz") (u "mieszkanie") [] [] VNone
                      bad_building_filters)
     = Raise TypeError.
Proof.
  split; [reflexivity|].
  apply (get_url_type_errors offline (u "sprzedaz") (u "mieszkanie") [] []
           VNone bad_building_filters eq_refl)
    with (v := VList [VStr (u "blok"); VStr (u "dom")]).
  - intros v Hv. vm_compute in Hv. inversion Hv. eauto.
  - intros v Hv. vm_compute in Hv. discriminate.
  - reflexivity.
  - intros s Hs. discriminate.
Defined.

(** ** The promoted ids *)

Lemma append_filters_app (db : UnicodeData) (a b : pydict) :
  forall acc,
    append_filters db (a ++ b) acc
    = (let? filter_list := append_filters db a acc in
       append_filters db b filter_list).
Proof.
  induction a as [|[key value] rest IH]; intros acc; [reflexivity|].
  cbn [app append_filters].
  destruct value; try (destruct (quote key); cbn [rbind]; [apply IH|reflexivity]).
  destruct (append_items db key items acc); cbn [rbind];
    [apply IH | reflexivity].
Qed.

Lemma join_snoc (sep x p : pystr) (l : list pystr) :
  join sep ((p :: l) ++ [x]) = join sep (p :: l) ++ sep ++ x.
Proof.
  revert p. induction l as [|q l IH]; intros p; [reflexivity|].
  change ((p :: q :: l) ++ [x]) with (p :: ((q :: l) ++ [x])).
  change (join sep (p :: (q :: l) ++ [x]))
    with (p ++ sep ++ join sep ((q :: l) ++ [x])).
  rewrite IH.
  change (join sep (p :: q :: l)) with (p ++ sep ++ join sep (q :: l)).
  rewrite <- !app_assoc. reflexivity.
Qed.

Lemma rbind_Ok {A B} (a : A) (k : A -> result B) : rbind (Ok a) k = k a.
Proof. reflexivity. Qed.

Lemma get_url_autosuggest_outcome (E : Env) (mc dc region app : pystr)
    (page : pyval) (filters region_data : pydict) :
  has_region_key filters = false ->
  outcome (get_region_from_autosuggest E region) = Ok region_data ->
  outcome (get_url E mc dc region app page filters)
  = build_url E mc dc app (page_fragment (ucd E) page) filters region_data.
Proof.
  intros Hk Hr. unfold get_url. rewrite Hk.
  destruct (get_region_from_autosuggest E region) as [t r].
  cbn [outcome snd] in Hr. subst r. cbn [bind]. unfold finish_url.
  destruct (build_url E mc dc app (page_fragment (ucd E) page) filters
                      region_data); reflexivity.
Qed.

Lemma promote_district (city : pystr) (district_id : pyval)
    (filters : pydict) :
  has_region_key filters = false ->
  promote_ids [(u "city", VStr city); (u "[district_id]", district_id)]
              filters
  = Ok (filters ++ [(u "[district_id]", district_id)]).
Proof.
  intros Hk. unfold promote_ids.
  assert (M1 : dict_mem (u "[district_id]")
                 [(u "city", VStr city); (u "[district_id]", district_id)]
               = true) by (vm_compute; reflexivity).
  assert (M2 : dict_mem (u "[street_id]")
                 [(u "city", VStr city); (u "[district_id]", district_id)]
               = false) by (vm_compute; reflexivity).
  assert (G1 : dict_getitem (u "[district_id]")
                 [(u "city", VStr city); (u "[district_id]", district_id)]
               = Ok district_id) by (vm_compute; reflexivity).
  rewrite M1, M2, G1, !rbind_Ok. rewrite dict_set_fresh; [reflexivity|].
  apply (no_region_key filters _ Hk). right. right. left. reflexivity.
Qed.

Lemma append_district (db : UnicodeData) (district_id : pyval)
    (acc filter_list : list pystr) :
  not_list district_id ->
  append_filters db [(u "[district_id]", district_id)] acc = Ok filter_list ->
  filter_list
  = acc ++ [u "search%5Bdistrict_id%5D=" ++ py_str db district_id].
Proof.
  intros Hnl Hf.
  assert (Hq : quote (u "[district_id]") = Ok (u "%5Bdistrict_id%5D"))
    by (vm_compute; reflexivity).
  assert (Hfrag : forall x,
             u "search" ++ u "%5Bdistrict_id%5D" ++ u "=" ++ x
             = u "search%5Bdistrict_id%5D=" ++ x)
    by (intros x; vm_compute; reflexivity).
  unfold append_filters in Hf.
  destruct district_id;
    try (rewrite Hq, rbind_Ok, Hfrag in Hf; apply Ok_inj in Hf;
         symmetry; exact Hf).
  exfalso. eapply Hnl; reflexivity.
Qed.

Lemma district_fragment_amp (x : pystr) :
  u "&" ++ u "search%5Bdistrict_id%5D=" ++ x
  = u "&search%5Bdistrict_id%5D=" ++ x.
Proof. vm_compute. reflexivity. Qed.

(** X16.  When the region comes from the autosuggest resolver as a city
    with a district id (that is not a list), the URL that [get_url]
    returns starts with the base URL, the categories and that city, and
    ends with the district id as its last query fragment,
    [&search%5Bdistrict_id%5D=<id>]. *)
Theorem get_url_promotes_district (E : Env) (main_category detail_category
    region ads_per_page : pystr) (page : pyval) (filters : pydict)
    (city : pystr) (district_id : pyval) (url : pystr) :
  has_region_key filters = false ->
  outcome (get_region_from_autosuggest E region)
  = Ok [(u "city", VStr city); (u "[district_id]", district_id)] ->
  not_list district_id ->
  outcome (get_url E main_category detail_category region ads_per_page page
                   filters) = Ok url ->
  exists middle,
    url = BASE_URL E ++ u "/" ++ main_category ++ u "/" ++ detail_category
          ++ u "/" ++ city ++ middle
          ++ u "&search%5Bdistrict_id%5D=" ++ py_str (ucd E) district_id.
Proof.
  intros Hk Hr Hnl H.
  rewrite (get_url_autosuggest_outcome _ _ _ _ _ _ _ _ Hk Hr) in H.
  unfold build_url in H.
  apply rbind_ok in H. destruct H as (location & Hloc & H).
  apply rbind_ok in H. destruct H as (filters' & Hp & H).
  apply rbind_ok in H. destruct H as (path & Hpath & H).
  apply rbind_ok in H. destruct H as (filter_list & Hf & H).
  apply Ok_inj in H. subst url.
  assert (Hloc' : city_or_voivodeship
                    [(u "city", VStr city); (u "[district_id]", district_id)]
                  = Ok (VStr city)) by (vm_compute; reflexivity).
  rewrite Hloc' in Hloc. apply Ok_inj in Hloc. subst location.
  rewrite (promote_district city district_id filters Hk) in Hp.
  apply Ok_inj in Hp. subst filters'.
  apply url_path_layout in Hpath. destruct Hpath as (l & Hl & ->).
  apply eq_sym in Hl. injection Hl as Hl. subst l.
  rewrite append_filters_app in Hf.
  apply rbind_ok in Hf. destruct Hf as (fl0 & _ & Hf).
  rewrite (append_district _ _ _ _ Hnl Hf).
  change (ads_per_page :: page_fragment (ucd E) page
            :: fl0 ++ [u "search%5Bdistrict_id%5D="
                       ++ py_str (ucd E) district_id])
    with ((ads_per_page :: page_fragment (ucd E) page :: fl0)
            ++ [u "search%5Bdistrict_id%5D=" ++ py_str (ucd E) district_id]).
  rewrite join_snoc.
  exists (path_segments (filters ++ [(u "[district_id]", district_id)])
          ++ join (u "&") (ads_per_page :: page_fragment (ucd E) page :: fl0)).
  rewrite <- !app_assoc, district_fragment_amp. reflexivity.
Qed.

Lemma get_url_promotes_district_witness :
  exists middle,
    wola_url
    = BASE_URL wola_env ++ u "/" ++ u "wynajem" ++ u "/" ++ u "mieszkanie"
      ++ u "/" ++ u "warszawa_26" ++ middle
      ++ u "&search%5Bdistrict_id%5D=" ++ py_str (ucd wola_env) (VInt 117).
Proof.
  apply (get_url_promotes_district wola_env (u "wynajem") (u "mieszkanie")
           (u "wola") [] VNone [(u "[rooms]", VInt 2)]
           (u "warszawa_26") (VInt 117) wola_url).
  - vm_compute. reflexivity.
  - vm_compute. reflexivity.
  - intros items. discriminate.
  - vm_compute. reflexivity.
Defined.

(** ** The description segment *)

Lemma split_ws_from_words (s : pystr) :
  forall cur,
    Forall (fun c => isspace c = false) cur ->
    Forall (fun w => w <> [] /\ Forall (fun c => isspace c = false) w)
           (split_ws_from s cur)
    /\ List.concat (split_ws_from s cur)
       = rev cur ++ filter (fun c => negb (isspace c)) s.
Proof.
  induction s as [|c t IH]; intros cur Hcur.
  - cbn [split_ws_from filter]. rewrite app_nil_r.
    destruct cur as [|x cur']; [split; [constructor | reflexivity]|].
    split.
    + constructor; [|constructor]. split.
      * intros Hnil. apply (f_equal (@List.length N)) in Hnil.
        rewrite length_rev in Hnil. discriminate.
      * apply Forall_rev. exact Hcur.
    + cbn [List.concat]. apply app_nil_r.
  - cbn [split_ws_from filter].
    destruct (isspace c) eqn:Hc; cbn [negb].
    + destruct cur as [|x cur'].
      * apply (IH [] Hcur).
      * destruct (IH [] (Forall_nil _)) as [Hw Hcat]. split.
        -- constructor; [|exact Hw]. split.
           ++ intros Hnil. apply (f_equal (@List.length N)) in Hnil.
              rewrite length_rev in Hnil. discriminate.
           ++ apply Forall_rev. exact Hcur.
        -- cbn [List.concat]. rewrite Hcat. reflexivity.
    + destruct (IH (c :: cur) (Forall_cons _ Hc Hcur)) as [Hw Hcat].
      split; [exact Hw|]. rewrite Hcat. cbn [rev].
      rewrite <- app_assoc. reflexivity.
Qed.

Lemma join_hyphen_no_space (words : list pystr) :
  Forall (fun w => w <> [] /\ Forall (fun c => isspace c = false) w) words ->
  Forall (fun c => isspace c = false) (join (u "-") words).
Proof.
  induction 1 as [|w rest [_ Hw] Hrest IH]; [constructor|].
  destruct rest as [|w' rest']; [exact Hw|].
  change (join (u "-") (w :: w' :: rest'))
    with (w ++ u "-" ++ join (u "-") (w' :: rest')).
  apply Forall_app. split; [exact Hw|].
  apply Forall_app. split; [repeat constructor | exact IH].
Qed.

Lemma split_ws_no_space (d : pystr) :
  Forall (fun c => isspace c = false) d -> d <> [] -> split_ws d = [d].
Proof.
  unfold split_ws. intros Hd Hne.
  assert (G : forall s cur,
             Forall (fun c => isspace c = false) s -> rev cur ++ s <> [] ->
             split_ws_from s cur = [rev cur ++ s]).
  { induction s as [|c t IH]; intros cur Hs Hn.
    - cbn [split_ws_from]. rewrite app_nil_r in *.
      destruct cur; [contradiction | reflexivity].
    - inversion Hs; subst. cbn [split_ws_from].
      match goal with H : isspace c = false |- _ => rewrite H end.
      rewrite IH; [cbn [rev]; rewrite <- app_assoc; reflexivity | assumption|].
      cbn [rev]. rewrite <- app_assoc. exact Hn. }
  apply (G d [] Hd). exact Hne.
Qed.

Lemma split_ws_all_space (d : pystr) :
  Forall (fun c => isspace c = true) d -> split_ws d = [].
Proof.
  unfold split_ws. induction 1 as [|c t Hc _ IH]; [reflexivity|].
  cbn [split_ws_from]. rewrite Hc. exact IH.
Qed.

(** X17.  The description fragment enters the path as [/q-] followed by a
    segment that holds no whitespace and exactly the other characters of
    the fragment, in order, hyphens apart: a fragment without whitespace
    is taken as it is, and a blank fragment leaves the bare [/q-]. *)
Theorem get_url_description_segment (E : Env) (main_category detail_category
    location : pystr) (filters : pydict) (fragment_text : pystr) :
  dict_lookup (u "building_type") filters = None ->
  dict_lookup (u "description_fragment") filters = Some (VStr fragment_text) ->
  exists segment words,
    url_path E main_category detail_category (VStr location) filters
    = Ok (BASE_URL E ++ u "/" ++ main_category ++ u "/" ++ detail_category
          ++ u "/" ++ location ++ u "/q-" ++ segment)
    /\ segment = join (u "-") words
    /\ List.concat words = filter (fun c => negb (isspace c)) fragment_text
    /\ Forall (fun c => isspace c = false) segment
    /\ (Forall (fun c => isspace c = false) fragment_text ->
        fragment_text <> [] -> segment = fragment_text)
    /\ (Forall (fun c => isspace c = true) fragment_text -> segment = []).
Proof.
  intros Hb Hd.
  exists (join (u "-") (split_ws fragment_text)), (split_ws fragment_text).
  destruct (split_ws_from_words fragment_text [] (Forall_nil _)) as [Hw Hcat].
  split; [|split; [reflexivity|split; [exact Hcat|split; [|split]]]].
  - unfold url_path, dict_getitem. cbn [join_values rbind join].
    assert (Mb : dict_mem (u "building_type") filters = false).
    { destruct (dict_mem (u "building_type") filters) eqn:M; [|reflexivity].
      apply dict_mem_lookup in M. rewrite Hb in M. discriminate. }
    rewrite Mb. cbn [rbind].
    rewrite (dict_lookup_mem _ _ _ Hd), Hd. cbn [rbind].
    rewrite <- !app_assoc. reflexivity.
  - apply join_hyphen_no_space. exact Hw.
  - intros Hns Hne. rewrite (split_ws_no_space _ Hns Hne). reflexivity.
  - intros Hsp. rewrite (split_ws_all_space _ Hsp). reflexivity.
Qed.

Lemma get_url_description_segment_witness :
  exists segment words,
    url_path offline (u "sprzedaz") (u "mieszkanie") (VStr (u "warszawa_1"))
             [(u "description_fragment", VStr (u " blisko  metra "))]
    = Ok (BASE_URL offline ++ u "/" ++ u "sprzedaz" ++ u "/"
          ++ u "mieszkanie" ++ u "/" ++ u "warszawa_1" ++ u "/q-" ++ segment)
    /\ segment = join (u "-") words
    /\ List.concat words
       = filter (fun c => negb (isspace c)) (u " blisko  metra ")
    /\ Forall (fun c => isspace c = false) segment
    /\ (Forall (fun c => isspace c = false) (u " blisko  metra ") ->
        u " blisko  metra " <> [] -> segment = u " blisko  metra ")
    /\ (Forall (fun c => isspace c = true) (u " blisko  metra ") ->
        segment = []).
Proof.
  apply (get_url_description_segment offline (u "sprzedaz") (u "mieszkanie")
           (u "warszawa_1")
           [(u "description_fragment", VStr (u " blisko  metra "))]
           (u " blisko  metra ")); vm_compute; reflexivity.
Defined.

(** ** The text of a suggestion *)

Lemma startswith_prefix (p s : pystr) : startswith p (p ++ s) = true.
Proof.
  induction p as [|x p IH]; [reflexivity|].
  cbn [app startswith]. rewrite N.eqb_refl, IH. reflexivity.
Qed.

Lemma replace_from_skip (old new p s : pystr) :
  replace_from old new (p ++ s) (List.length p) = replace_from old new s 0.
Proof. induction p as [|c p IH]; [reflexivity | exact IH]. Qed.

Lemma replace_from_hit (x : N) (old new s : pystr) :
  replace_from (x :: old) new ((x :: old) ++ s) 0
  = new ++ replace_from (x :: old) new s 0.
Proof.
  change ((x :: old) ++ s) with (x :: (old ++ s)).
  cbn [replace_from].
  change (x :: old ++ s) with ((x :: old) ++ s).
  rewrite startswith_prefix.
  cbn [List.length Nat.sub]. rewrite Nat.sub_0_r, replace_from_skip.
  reflexivity.
Qed.

Lemma replace_from_pass (x : N) (old new a s : pystr) :
  ~ In x a ->
  replace_from (x :: old) new (a ++ s) 0
  = a ++ replace_from (x :: old) new s 0.
Proof.
  induction a as [|c a IH]; intros Hno; [reflexivity|].
  cbn [app replace_from startswith].
  destruct (N.eqb_spec x c) as [->|Hc].
  - exfalso. apply Hno. left; reflexivity.
  - cbn [andb]. rewrite IH; [reflexivity|].
    intros Hin. apply Hno. right; exact Hin.
Qed.

Lemma strip_tags_pass (a s : pystr) :
  ~ In 60%N a -> strip_tags (a ++ s) = a ++ strip_tags s.
Proof.
  intros Ha. unfold strip_tags.
  assert (E1 : u "<strong>" = 60%N :: u "strong>") by (vm_compute; reflexivity).
  assert (E2 : u "</strong>" = 60%N :: u "/strong>")
    by (vm_compute; reflexivity).
  rewrite E1, E2. cbn [replace].
  rewrite (replace_from_pass 60 _ _ a s Ha).
  rewrite (replace_from_pass 60 _ _ a _ Ha). reflexivity.
Qed.

Lemma strip_tags_plain (a : pystr) : ~ In 60%N a -> strip_tags a = a.
Proof.
  intros Ha. rewrite <- (app_nil_r a) at 1.
  rewrite (strip_tags_pass a [] Ha). apply app_nil_r.
Qed.

Lemma strip_tags_open (s : pystr) :
  strip_tags (u "<strong>" ++ s) = strip_tags s.
Proof.
  unfold strip_tags.
  assert (E1 : u "<strong>" = 60%N :: u "strong>") by (vm_compute; reflexivity).
  rewrite E1 at 1 2. cbn [replace]. rewrite replace_from_hit.
  rewrite <- E1. reflexivity.
Qed.

Lemma strip_tags_close (s : pystr) :
  strip_tags (u "</strong>" ++ s) = strip_tags s.
Proof.
  unfold strip_tags.
  assert (E1 : u "<strong>" = 60%N :: u "strong>") by (vm_compute; reflexivity).
  assert (E2 : u "</strong>" = 60%N :: u "/strong>")
    by (vm_compute; reflexivity).
  assert (Hmiss : forall t,
             replace_from (60%N :: u "strong>") [] (u "</strong>" ++ t) 0
             = u "</strong>" ++ replace_from (60%N :: u "strong>") [] t 0).
  { intros t. rewrite E2.
    change ((60%N :: u "/strong>") ++ t) with (60%N :: (u "/strong>" ++ t)).
    cbn [replace_from].
    assert (Hs : startswith (60%N :: u "strong>")
                            (60%N :: u "/strong>" ++ t) = false)
      by (vm_compute; reflexivity).
    rewrite Hs. rewrite (replace_from_pass 60 _ _ (u "/strong>") t);
      [reflexivity|].
    vm_compute. intuition discriminate. }
  rewrite E1 at 1. cbn [replace]. rewrite Hmiss.
  rewrite E2 at 1 2. cbn [replace]. rewrite replace_from_hit.
  rewrite <- E2. rewrite <- E1. reflexivity.
Qed.

Lemma strip_marked (pre mid rest : pystr) :
  ~ In 60%N pre -> ~ In 60%N mid ->
  strip_tags (marked pre mid rest) = pre ++ mid ++ strip_tags rest.
Proof.
  intros Hpre Hmid. unfold marked.
  rewrite (strip_tags_pass pre _ Hpre), strip_tags_open.
  rewrite (strip_tags_pass mid _ Hmid), strip_tags_close. reflexivity.
Qed.

(** X18.  Stripping the markup removes a pair of [strong] tags around any
    part of a name that holds no [<], and leaves text without [<] as it is:
    the tags of [pre<strong>mid</strong>rest] go, whatever follows is
    stripped in turn. *)
Theorem strip_tags_marked (pre mid rest : pystr) :
  ~ In 60%N pre -> ~ In 60%N mid ->
  strip_tags (marked pre mid rest) = pre ++ mid ++ strip_tags rest
  /\ (~ In 60%N rest -> strip_tags (marked pre mid rest) = pre ++ mid ++ rest)
  /\ strip_and_split (VStr (marked pre mid rest))
     = Ok (split (u ", ") (pre ++ mid ++ strip_tags rest)).
Proof.
  intros Hpre Hmid.
  pose proof (strip_marked pre mid rest Hpre Hmid) as E.
  split; [exact E|]. split.
  - intros Hrest. rewrite E, (strip_tags_plain rest Hrest). reflexivity.
  - unfold strip_and_split. fold (strip_tags (marked pre mid rest)).
    rewrite E. reflexivity.
Qed.

Lemma strip_tags_marked_witness :
  strip_tags (marked [] (u "War") (u "szawa, mazowieckie"))
  = [] ++ u "War" ++ strip_tags (u "szawa, mazowieckie")
  /\ (~ In 60%N (u "szawa, mazowieckie") ->
      strip_tags (marked [] (u "War") (u "szawa, mazowieckie"))
      = [] ++ u "War" ++ u "szawa, mazowieckie")
  /\ strip_and_split (VStr (marked [] (u "War") (u "szawa, mazowieckie")))
     = Ok (split (u ", ")
             ([] ++ u "War" ++ strip_tags (u "szawa, mazowieckie"))).
Proof.
  apply (strip_tags_marked [] (u "War") (u "szawa, mazowieckie")).
  - intros [].
  - vm_compute. intuition discriminate.
Defined.

Lemma split_comma_first (a t cur : pystr) :
  ~ In 44%N a ->
  split_from (u ", ") (a ++ u ", " ++ t) 0 cur
  = (rev cur ++ a) :: split_from (u ", ") t 0 [].
Proof.
  assert (E : u ", " = [44%N; 32%N]) by (vm_compute; reflexivity).
  rewrite E. clear E. revert cur.
  induction a as [|c a IH]; intros cur Hno.
  - cbn [app split_from startswith List.length Nat.sub].
    rewrite !N.eqb_refl. cbn [andb]. rewrite app_nil_r. reflexivity.
  - cbn [app split_from startswith].
    destruct (N.eqb_spec 44 c) as [<-|Hc].
    + exfalso. apply Hno. left; reflexivity.
    + cbn [andb]. rewrite IH; [|intros Hin; apply Hno; right; exact Hin].
      cbn [rev]. rewrite <- app_assoc. reflexivity.
Qed.

Lemma split_comma_last (a cur : pystr) :
  ~ In 44%N a -> split_from (u ", ") a 0 cur = [rev cur ++ a].
Proof.
  assert (E : u ", " = [44%N; 32%N]) by (vm_compute; reflexivity).
  rewrite E. clear E. revert cur.
  induction a as [|c a IH]; intros cur Hno.
  - cbn [split_from]. rewrite app_nil_r. reflexivity.
  - cbn [split_from startswith].
    destruct (N.eqb_spec 44 c) as [<-|Hc].
    + exfalso. apply Hno. left; reflexivity.
    + cbn [andb]. rewrite IH; [|intros Hin; apply Hno; right; exact Hin].
      cbn [rev]. rewrite <- app_assoc. reflexivity.
Qed.

Lemma strip_marked_name (pre mid post rest : pystr) :
  plain pre -> plain mid -> plain post ->
  strip_tags (marked pre mid (post ++ u ", " ++ rest))
  = (pre ++ mid ++ post) ++ u ", " ++ strip_tags rest
  /\ ~ In 44%N (pre ++ mid ++ post).
Proof.
  intros [Hpre Cpre] [Hmid Cmid] [Hpost Cpost].
  assert (Hsep : ~ In 60%N (u ", ")) by (vm_compute; intuition discriminate).
  split.
  - rewrite (strip_marked pre mid (post ++ u ", " ++ rest) Hpre Hmid), (strip_tags_pass post _ Hpost), (strip_tags_pass _ rest Hsep).
    rewrite <- !app_assoc. reflexivity.
  - rewrite !in_app_iff. tauto.
Qed.

Lemma text_first_component (pre mid post rest : pystr) :
  plain pre -> plain mid -> plain post ->
  exists others,
    strip_and_split (VStr (marked pre mid (post ++ u ", " ++ rest)))
    = Ok ((pre ++ mid ++ post) :: others).
Proof.
  intros Hpre Hmid Hpost. unfold strip_and_split.
  fold (strip_tags (marked pre mid (post ++ u ", " ++ rest))).
  destruct (strip_marked_name pre mid post rest Hpre Hmid Hpost) as [E Hc].
  rewrite E. unfold split. rewrite (split_comma_first _ _ [] Hc).
  eexists. reflexivity.
Qed.

Lemma level_tests :
  eq_str (VStr (u "CITY")) (u "CITY") = true
  /\ eq_str (VStr (u "DISTRICT")) (u "CITY") = false
  /\ eq_str (VStr (u "DISTRICT")) (u "DISTRICT") = true
  /\ eq_str (VStr (u "REGION")) (u "CITY") = false
  /\ eq_str (VStr (u "REGION")) (u "DISTRICT") = false
  /\ eq_str (VStr (u "REGION")) (u "REGION") = true
  /\ eq_str (VStr (u "STREET")) (u "CITY") = false
  /\ eq_str (VStr (u "STREET")) (u "DISTRICT") = false
  /\ eq_str (VStr (u "STREET")) (u "REGION") = false
  /\ eq_str (VStr (u "STREET")) (u "STREET") = true.
Proof. vm_compute. repeat split; reflexivity. Qed.

Lemma dict_set_two (k1 k2 : pystr) (v1 v2 : pyval) :
  str_eqb k1 k2 = false ->
  dict_set k2 v2 (dict_set k1 v1 []) = [(k1, v1); (k2, v2)].
Proof. intros H. cbn [dict_set]. rewrite H. reflexivity. Qed.

Lemma region_of_city_response (E : Env) (response city_id : pyval)
    (raw : pyval) (name : pystr) (others : list pystr) :
  getitem_str response (u "level") = Ok (VStr (u "CITY")) ->
  getitem_str response (u "text") = Ok raw ->
  strip_and_split raw = Ok (name :: others) ->
  getitem_str response (u "city_id") = Ok city_id ->
  region_of_response E response
  = Ok [(u "city",
         VStr (normalize_text (ucd E) name ++ u "_" ++ py_str (ucd E) city_id))].
Proof.
  intros Hl Ht Hs Hc. unfold region_of_response, city_slug.
  rewrite Hl, rbind_Ok, Ht, rbind_Ok, Hs, rbind_Ok.
  destruct level_tests as (T & _). rewrite T.
  unfold list_getitem. cbn [nth_error].
  rewrite rbind_Ok, Hc, !rbind_Ok. reflexivity.
Qed.

Lemma region_of_region_response (E : Env) (response : pyval)
    (raw : pyval) (name : pystr) (others : list pystr) :
  getitem_str response (u "level") = Ok (VStr (u "REGION")) ->
  getitem_str response (u "text") = Ok raw ->
  strip_and_split raw = Ok (name :: others) ->
  region_of_response E response
  = Ok [(u "voivodeship", VStr (normalize_text (ucd E) name))].
Proof.
  intros Hl Ht Hs. unfold region_of_response.
  rewrite Hl, rbind_Ok, Ht, rbind_Ok, Hs, rbind_Ok.
  destruct level_tests as (_ & _ & _ & T1 & T2 & T3 & _).
  rewrite T1, T2, T3. unfold list_getitem. cbn [nth_error].
  rewrite rbind_Ok. reflexivity.
Qed.

Lemma region_of_street_response (E : Env) (response city_id street_id : pyval)
    (raw : pyval) (name : pystr) (others : list pystr) :
  getitem_str response (u "level") = Ok (VStr (u "STREET")) ->
  getitem_str response (u "text") = Ok raw ->
  strip_and_split raw = Ok (name :: others) ->
  getitem_str response (u "city_id") = Ok city_id ->
  getitem_str response (u "street_id") = Ok street_id ->
  region_of_response E response
  = Ok [(u "city",
         VStr (normalize_text (ucd E) name ++ u "_" ++ py_str (ucd E) city_id));
        (u "[street_id]", street_id)].
Proof.
  intros Hl Ht Hs Hc Hi. unfold region_of_response, city_slug.
  rewrite Hl, rbind_Ok, Ht, rbind_Ok, Hs, rbind_Ok.
  destruct level_tests as (_ & _ & _ & _ & _ & _ & T1 & T2 & T3 & T4).
  rewrite T1, T2, T3, T4. unfold list_getitem. cbn [nth_error].
  rewrite rbind_Ok, Hc, !rbind_Ok, Hi, rbind_Ok.
  rewrite dict_set_two; [reflexivity | vm_compute; reflexivity].
Qed.

Lemma region_of_district_response (E : Env)
    (response city_id district_id : pyval) (raw : pyval)
    (first name : pystr) (others : list pystr) :
  getitem_str response (u "level") = Ok (VStr (u "DISTRICT")) ->
  getitem_str response (u "text") = Ok raw ->
  strip_and_split raw = Ok (first :: name :: others) ->
  getitem_str response (u "city_id") = Ok city_id ->
  getitem_str response (u "district_id") = Ok district_id ->
  region_of_response E response
  = Ok [(u "city",
         VStr (normalize_text (ucd E) name ++ u "_" ++ py_str (ucd E) city_id));
        (u "[district_id]", district_id)].
Proof.
  intros Hl Ht Hs Hc Hi. unfold region_of_response, city_slug.
  rewrite Hl, rbind_Ok, Ht, rbind_Ok, Hs, rbind_Ok.
  destruct level_tests as (_ & T1 & T2 & _).
  rewrite T1, T2. unfold list_getitem. cbn [nth_error].
  rewrite rbind_Ok, Hc, !rbind_Ok, Hi, rbind_Ok.
  rewrite dict_set_two; [reflexivity | vm_compute; reflexivity].
Qed.

(** X19.  The levels CITY, REGION and STREET read the first component of
    the text.  When the text begins with a name free of commas, with one
    part marked by [strong] tags, followed by a comma and a space, the
    resolver returns for CITY the entry [city], the normalised name joined
    by [_] to the city id; for REGION the entry [voivodeship], the
    normalised name; for STREET the same [city] and the street id.  What
    follows the comma does not matter. *)
Theorem autosuggest_first_component (E : Env) (region_part : pystr)
    (response : pyval) (pre mid post rest : pystr) :
  region_part <> [] ->
  first_suggestion E region_part = Ok response ->
  getitem_str response (u "text")
  = Ok (VStr (marked pre mid (post ++ u ", " ++ rest))) ->
  plain pre -> plain mid -> plain post ->
  let name := normalize_text (ucd E) (pre ++ mid ++ post) in
  let result := outcome (get_region_from_autosuggest E region_part) in
  (getitem_str response (u "level") = Ok (VStr (u "CITY")) ->
   forall city_id,
     getitem_str response (u "city_id") = Ok city_id ->
     result = Ok [(u "city",
                   VStr (name ++ u "_" ++ py_str (ucd E) city_id))])
  /\ (getitem_str response (u "level") = Ok (VStr (u "REGION")) ->
      result = Ok [(u "voivodeship", VStr name)])
  /\ (getitem_str response (u "level") = Ok (VStr (u "STREET")) ->
      forall city_id street_id,
        getitem_str response (u "city_id") = Ok city_id ->
        getitem_str response (u "street_id") = Ok street_id ->
        result = Ok [(u "city",
                      VStr (name ++ u "_" ++ py_str (ucd E) city_id));
                     (u "[street_id]", street_id)]).
Proof.
  intros Hne Hf Ht Hpre Hmid Hpost name result. subst name result.
  rewrite (autosuggest_outcome E region_part Hne), Hf, rbind_Ok.
  destruct (text_first_component pre mid post rest Hpre Hmid Hpost)
    as (others & Hs).
  split; [|split].
  - intros Hl cid Hc.
    exact (region_of_city_response E response cid _ _ others Hl Ht Hs Hc).
  - intros Hl.
    exact (region_of_region_response E response _ _ others Hl Ht Hs).
  - intros Hl cid sid Hc Hi.
    exact (region_of_street_response E response cid sid _ _ others
             Hl Ht Hs Hc Hi).
Qed.

Lemma autosuggest_first_component_witness :
  outcome (get_region_from_autosuggest warszawa_env (u "war"))
  = Ok [(u "city",
         VStr (normalize_text (ucd warszawa_env) ([] ++ u "War" ++ u "szawa")
               ++ u "_" ++ py_str (ucd warszawa_env) (VInt 26)))].
Proof.
  assert (Hne : u "war" <> []) by (vm_compute; discriminate).
  assert (Hpl : forall s, forallb (fun c => negb (c =? 60)%N && negb (c =? 44)%N) s = true -> plain s).
  { intros s Hs. split; intros Hin;
      apply (proj1 (forallb_forall _ _) Hs) in Hin;
      vm_compute in Hin; discriminate. }
  apply (autosuggest_first_component warszawa_env (u "war") city_suggestion
           [] (u "War") (u "szawa") (u "mazowieckie") Hne).
  - vm_compute. reflexivity.
  - vm_compute. reflexivity.
  - apply Hpl. vm_compute. reflexivity.
  - apply Hpl. vm_compute. reflexivity.
  - apply Hpl. vm_compute. reflexivity.
  - vm_compute. reflexivity.
  - vm_compute. reflexivity.
Defined.

(** X20.  The level DISTRICT reads the second component of the text: for
    a text that holds a district name, a comma and a space, then a city
    name free of [<] and of commas, the resolver returns the entry [city],
    made of that second name and the city id, and the district id. *)
Theorem autosuggest_district (E : Env) (region_part : pystr)
    (response city_id district_id : pyval) (pre mid post city tail : pystr) :
  region_part <> [] ->
  first_suggestion E region_part = Ok response ->
  getitem_str response (u "level") = Ok (VStr (u "DISTRICT")) ->
  getitem_str response (u "text")
  = Ok (VStr (marked pre mid (post ++ u ", " ++ city ++ tail))) ->
  plain pre -> plain mid -> plain post -> plain city ->
  tail = [] \/ (exists t, tail = u ", " ++ t) ->
  getitem_str response (u "city_id") = Ok city_id ->
  getitem_str response (u "district_id") = Ok district_id ->
  outcome (get_region_from_autosuggest E region_part)
  = Ok [(u "city",
         VStr (normalize_text (ucd E) city ++ u "_" ++ py_str (ucd E) city_id));
        (u "[district_id]", district_id)].
Proof.
  intros Hne Hf Hl Ht Hpre Hmid Hpost [Hcity Ccity] Htail Hc Hi.
  rewrite (autosuggest_outcome E region_part Hne), Hf, rbind_Ok.
  assert (Hs : exists others,
             strip_and_split
               (VStr (marked pre mid (post ++ u ", " ++ city ++ tail)))
             = Ok ((pre ++ mid ++ post) :: city :: others)).
  { unfold strip_and_split.
    fold (strip_tags (marked pre mid (post ++ u ", " ++ city ++ tail))).
    destruct (strip_marked_name pre mid post (city ++ tail) Hpre Hmid Hpost)
      as [E0 Hc0].
    rewrite E0, (strip_tags_pass city tail Hcity).
    unfold split. rewrite (split_comma_first _ _ [] Hc0).
    assert (Hsep : ~ In 60%N (u ", ")) by (vm_compute; intuition discriminate).
    destruct Htail as [->|(t & ->)].
    - assert (E1 : strip_tags [] = []) by reflexivity.
      rewrite E1, app_nil_r, (split_comma_last city [] Ccity).
      exists []. reflexivity.
    - rewrite (strip_tags_pass _ t Hsep), (split_comma_first city _ [] Ccity).
      eexists. reflexivity. }
  destruct Hs as (others & Hs).
  exact (region_of_district_response E response city_id district_id _ _ _
           others Hl Ht Hs Hc Hi).
Qed.

Lemma autosuggest_district_witness :
  outcome (get_region_from_autosuggest wola_env (u "wola"))
  = Ok [(u "city",
         VStr (normalize_text (ucd wola_env) (u "Warszawa") ++ u "_"
               ++ py_str (ucd wola_env) (VInt 26)));
        (u "[district_id]", VInt 117)].
Proof.
  assert (Hne : u "wola" <> []) by (vm_compute; discriminate).
  assert (Hpl : forall s, forallb (fun c => negb (c =? 60)%N && negb (c =? 44)%N) s = true -> plain s).
  { intros s Hs. split; intros Hin;
      apply (proj1 (forallb_forall _ _) Hs) in Hin;
      vm_compute in Hin; discriminate. }
  apply (autosuggest_district wola_env (u "wola") wola_suggestion
           (VInt 26) (VInt 117) [] (u "Wola") [] (u "Warszawa")
           (u ", mazowieckie") Hne).
  - vm_compute. reflexivity.
  - vm_compute. reflexivity.
  - vm_compute. reflexivity.
  - apply Hpl. vm_compute. reflexivity.
  - apply Hpl. vm_compute. reflexivity.
  - apply Hpl. vm_compute. reflexivity.
  - apply Hpl. vm_compute. reflexivity.
  - right. exists (u "mazowieckie"). vm_compute. reflexivity.
  - vm_compute. reflexivity.
  - vm_compute. reflexivity.
Defined.

(** ** The CSRF pattern at work *)

Lemma run_class_cons (p : N -> bool) (c : N) (t : pystr) (cs : captures)
    (k : cont) :
  run (Class p) (c :: t) cs k = if p c then k t cs else None.
Proof. reflexivity. Qed.

Lemma run_plus (r : regex) (s : pystr) (cs : captures) (k : cont) :
  run (Plus r) s cs k = run r s cs (fun s' cs' => run (Star r) s' cs' k).
Proof. reflexivity. Qed.

Lemma star_class (p : N -> bool) (cs : captures) (k : cont) :
  forall n s, List.length s <= n ->
              star_loop (run (Class p)) n s cs k = greedy p s cs k.
Proof.
  induction n as [|n IH]; intros s Hlen.
  - destruct s; [reflexivity | simpl in Hlen; lia].
  - destruct s as [|c t]; [reflexivity|].
    cbn [star_loop greedy]. rewrite run_class_cons.
    destruct (p c); [|reflexivity].
    assert (Hlt : (List.length t <? List.length (c :: t)) = true)
      by (apply Nat.ltb_lt; simpl; lia).
    rewrite Hlt, IH by (simpl in Hlen; lia). reflexivity.
Qed.

Lemma run_star_class (p : N -> bool) (s : pystr) (cs : captures) (k : cont) :
  run (Star (Class p)) s cs k = greedy p s cs k.
Proof. cbn [run]. apply star_class. lia. Qed.

Lemma star_loop_stop (step : pystr -> captures -> cont -> option captures)
    (n : nat) (s : pystr) (cs : captures) (k : cont) :
  (forall K, step s cs K = None) -> star_loop step n s cs k = k s cs.
Proof. intros H. destruct n; [reflexivity|]. cbn [star_loop]. rewrite H. reflexivity. Qed.

Lemma run_lit_hit (l s : pystr) (cs : captures) (k : cont) :
  run (Lit l) (l ++ s) cs k = k s cs.
Proof.
  induction l as [|x l IH]; [reflexivity|].
  change (Lit (x :: l)) with (Seq (Class (N.eqb x)) (Lit l)).
  rewrite run_seq. cbn [app]. rewrite run_class_cons, N.eqb_refl. exact IH.
Qed.

Lemma run_lit_miss (l : pystr) :
  forall s cs k, startswith l s = false -> run (Lit l) s cs k = None.
Proof.
  induction l as [|x l IH]; intros s cs k H; [discriminate|].
  change (Lit (x :: l)) with (Seq (Class (N.eqb x)) (Lit l)).
  rewrite run_seq. destruct s as [|c t]; [reflexivity|].
  rewrite run_class_cons. cbn [startswith] in H.
  destruct (x =? c)%N; [|reflexivity]. cbn [andb] in H. apply IH. exact H.
Qed.

Lemma run_lit_reaches (l s : pystr) (cs m : captures) (k : cont) :
  run (Lit l) s cs k = Some m -> exists s', s = l ++ s' /\ k s' cs = Some m.
Proof.
  intros H. destruct (startswith l s) eqn:Hs.
  - apply startswith_true in Hs. destruct Hs as (q & ->).
    rewrite run_lit_hit in H. eauto.
  - rewrite (run_lit_miss l s cs k Hs) in H. discriminate.
Qed.

Lemma greedy_reaches (p : N -> bool) (cs m : captures) (k : cont) :
  forall s, greedy p s cs k = Some m ->
            exists pre s', s = pre ++ s' /\ forallb p pre = true
                           /\ k s' cs = Some m.
Proof.
  induction s as [|c t IH]; intros H.
  - exists [], []. auto.
  - cbn [greedy] in H. destruct (p c) eqn:Hc.
    + destruct (greedy p t cs k) as [m'|] eqn:Hg.
      * injection H as H. subst m'.
        destruct (IH eq_refl) as (pre & s' & -> & Hp & Hk).
        exists (c :: pre), s'. cbn [forallb app]. rewrite Hc, Hp. auto.
      * exists [], (c :: t). auto.
    + exists [], (c :: t). auto.
Qed.

Lemma greedy_prefix (p : N -> bool) (cs m : captures) (k : cont)
    (pre s : pystr) :
  forallb p pre = true -> greedy p s cs k = Some m ->
  greedy p (pre ++ s) cs k = Some m.
Proof.
  intros Hp Hs. induction pre as [|c pre IH]; [exact Hs|].
  cbn [forallb] in Hp. apply andb_true_iff in Hp. destruct Hp as [Hc Hp].
  cbn [app greedy]. rewrite Hc, (IH Hp). reflexivity.
Qed.

Lemma greedy_none (p : N -> bool) (cs : captures) (k : cont) :
  forall s, (forall pfx s', s = pfx ++ s' -> k s' cs = None) ->
            greedy p s cs k = None.
Proof.
  induction s as [|c t IH]; intros H.
  - apply (H [] []). reflexivity.
  - cbn [greedy]. rewrite IH.
    + destruct (p c); apply (H [] (c :: t)); reflexivity.
    + intros pfx s' ->. apply (H (c :: pfx) s'). reflexivity.
Qed.

Lemma greedy_stop (p : N -> bool) (c : N) (t : pystr) (cs : captures)
    (k : cont) :
  p c = false -> greedy p (c :: t) cs k = k (c :: t) cs.
Proof. intros H. cbn [greedy]. rewrite H. reflexivity. Qed.

Lemma greedy_always (p : N -> bool) (cs m : captures) (k : cont) :
  (forall s, k s cs = Some m) -> forall s, greedy p s cs k = Some m.
Proof.
  intros H. induction s as [|c t IH]; [apply H|].
  cbn [greedy]. rewrite IH. destruct (p c); [reflexivity | apply H].
Qed.

Lemma any_class_no_newline (pre : pystr) :
  forallb any_class pre = true <-> ~ In 10%N pre.
Proof.
  unfold any_class. induction pre as [|c pre IH]; [cbn; tauto|].
  cbn [forallb In]. rewrite andb_true_iff, IH, negb_true_iff, N.eqb_neq.
  split.
  - intros [Hc Hp] [H|H]; [congruence | exact (Hp H)].
  - intros H. split; [intros ->; apply H; left; reflexivity|].
    intros Hin. apply H. right; exact Hin.
Qed.

Lemma csrf_pattern_parts (db : UnicodeData) :
  csrf_pattern db = Seq (Star (Class any_class)) (csrf_assignment db).
Proof. reflexivity. Qed.

Lemma run_csrf_pattern (db : UnicodeData) (s : pystr) (cs : captures)
    (k : cont) :
  run (csrf_pattern db) s cs k
  = greedy any_class s cs (fun s' cs' => run (csrf_assignment db) s' cs' k).
Proof. rewrite csrf_pattern_parts, run_seq, run_star_class. reflexivity. Qed.

Lemma csrf_assignment_reaches (db : UnicodeData) (s : pystr)
    (cs m : captures) (k : cont) :
  run (csrf_assignment db) s cs k = Some m ->
  exists rest, s = u "csrfToken" ++ rest.
Proof.
  unfold csrf_assignment. rewrite run_seq. intros H.
  apply run_lit_reaches in H. destruct H as (rest & -> & _). eauto.
Qed.

Lemma csrf_match_shape (db : UnicodeData) (s : pystr) (m : captures) :
  re_match (csrf_pattern db) s = Some m ->
  exists pre rest, s = pre ++ u "csrfToken" ++ rest /\ ~ In 10%N pre.
Proof.
  unfold re_match. rewrite run_csrf_pattern.
  intros H. apply greedy_reaches in H.
  destruct H as (pre & s' & -> & Hp & Hk).
  apply csrf_assignment_reaches in Hk. destruct Hk as (rest & ->).
  exists pre, rest. split; [reflexivity|].
  apply any_class_no_newline. exact Hp.
Qed.

(** X21.  [get_csrf_token] looks for the token in the first line of a text
    only: when [csrfToken] does not occur before the first line break, it
    raises [AttributeError], whatever the later lines hold. *)
Theorem get_csrf_token_first_line (db : UnicodeData) (line tail : pystr) :
  ~ occurs (u "csrfToken") line ->
  tail = [] \/ (exists rest, tail = 10%N :: rest) ->
  get_csrf_token db (Text (line ++ tail)) = Raise AttributeError.
Proof.
  intros Hno Htail. unfold get_csrf_token. cbn [str_of_content].
  destruct (re_match (csrf_pattern db) (line ++ tail)) as [m|] eqn:Hm;
    [|reflexivity].
  exfalso. apply csrf_match_shape in Hm.
  destruct Hm as (pre & rest & Heq & Hpre).
  rewrite app_assoc in Heq. apply app_eq_app in Heq.
  destruct Heq as (l & [[Hl _] | [Hw Ht]]).
  - apply Hno. exists pre, l. rewrite Hl, <- app_assoc. reflexivity.
  - destruct l as [|x l].
    + apply Hno. exists pre, []. rewrite app_nil_r in *. symmetry; exact Hw.
    + destruct Htail as [->|(rest0 & ->)]; [discriminate|].
      injection Ht as Hx _. subst x.
      assert (Hin : In 10%N (pre ++ u "csrfToken"))
        by (rewrite Hw; apply in_or_app; right; left; reflexivity).
      apply in_app_or in Hin. destruct Hin as [Hin|Hin]; [exact (Hpre Hin)|].
      vm_compute in Hin. intuition discriminate.
Qed.

Lemma get_csrf_token_first_line_witness :
  get_csrf_token ucd_excerpt
    (Text (u "<html>" ++ 10%N :: u "csrfToken = 'XYZ123'"))
  = Raise AttributeError.
Proof.
  apply (get_csrf_token_first_line ucd_excerpt (u "<html>")
           (10%N :: u "csrfToken = 'XYZ123'")).
  - intros (p & q & H). vm_compute in H.
    repeat (destruct p as [|? p]; [discriminate|
            injection H as _ H]).
    destruct p; discriminate.
  - right. eexists. reflexivity.
Defined.

Lemma firstn_consumed (a b : pystr) :
  firstn (List.length (a ++ b) - List.length b) (a ++ b) = a.
Proof.
  rewrite length_app, Nat.add_sub, firstn_app, firstn_all, Nat.sub_diag.
  cbn [firstn]. apply app_nil_r.
Qed.

Lemma separator_step (c : N) (t : pystr) (cs : captures) (k : cont) :
  separator_char c ->
  run csrf_separator (c :: t) cs k
  = k t ((1, firstn (List.length (c :: t) - List.length t) (c :: t)) :: cs).
Proof.
  intros Hc. unfold csrf_separator, space_char. cbn [run].
  destruct (N.eqb_spec 92 c) as [<-|Hne].
  - replace (isspace 92) with false by (vm_compute; reflexivity).
    destruct (k t _); reflexivity.
  - destruct Hc as [->|Hs]; [congruence|]. rewrite Hs. reflexivity.
Qed.

Lemma separator_stop (t : pystr) (cs : captures) (k : cont) :
  run csrf_separator (u "'" ++ t) cs k = None.
Proof. reflexivity. Qed.

Lemma separators_loop (k : cont) (s : pystr) (P : captures -> Prop) :
  (forall cs K, run csrf_separator s cs K = None) ->
  (forall cs, exists m, k s cs = Some m /\ P m) ->
  forall seps, Forall separator_char seps ->
  forall n cs, List.length seps <= n ->
    exists m, star_loop (run csrf_separator) n (seps ++ s) cs k = Some m
              /\ P m.
Proof.
  intros Hstop Hk seps Hseps.
  induction Hseps as [|c seps Hc _ IH]; intros n cs Hn.
  - cbn [app]. rewrite star_loop_stop by (intros K; apply Hstop). apply Hk.
  - destruct n as [|n]; [simpl in Hn; lia|].
    cbn [star_loop app]. rewrite separator_step by exact Hc.
    assert (Hlt : (List.length (seps ++ s) <? List.length (c :: seps ++ s))
                  = true) by (apply Nat.ltb_lt; simpl; lia).
    rewrite Hlt.
    destruct (IH n ((1, firstn (List.length (c :: seps ++ s)
                                - List.length (seps ++ s))
                         (c :: seps ++ s)) :: cs)) as (m & Hm & HP);
      [simpl in Hn; lia|].
    rewrite Hm. eauto.
Qed.

Lemma token_group_match (db : UnicodeData) (tok post : pystr)
    (cs : captures) :
  tok <> [] ->
  Forall (fun c => word_class db c = true) tok ->
  (forall c t, post = c :: t -> word_class db c = false) ->
  exists m, run (csrf_token_group db) (tok ++ post) cs (fun _ cs' => Some cs')
            = Some m
            /\ group 2 m = Some tok.
Proof.
  intros Hne Hw Hpost.
  exists ((2, tok) :: cs). split; [|reflexivity].
  unfold csrf_token_group. rewrite run_seq. cbn [run]. fold (Plus (word_char db)).
  rewrite run_plus. unfold word_char at 1. fold (word_class db).
  destruct tok as [|w tok]; [congruence|].
  inversion Hw as [|? ? Hw0 Hw']; subst.
  change ((w :: tok) ++ post) with (w :: tok ++ post) at 1.
  rewrite run_class_cons, Hw0.
  unfold word_char. fold (word_class db). rewrite run_star_class.
  apply greedy_prefix; [apply forallb_forall; apply Forall_forall; exact Hw'|].
  assert (Hend : forall s,
             run (Star any_char) s
                 ((2, firstn (List.length ((w :: tok) ++ post)
                              - List.length post) ((w :: tok) ++ post)) :: cs)
                 (fun _ cs' => Some cs')
             = Some ((2, w :: tok) :: cs)).
  { intros s. rewrite firstn_consumed. unfold any_char. fold any_class.
    rewrite run_star_class. apply greedy_always. reflexivity. }
  destruct post as [|c t].
  - cbn [greedy]. apply Hend.
  - rewrite greedy_stop by (apply (Hpost c t eq_refl)). apply Hend.
Qed.

Lemma assignment_match (db : UnicodeData) (ws seps tok post : pystr)
    (cs : captures) :
  ws <> [] -> Forall (fun c => isspace c = true) ws ->
  seps <> [] -> Forall separator_char seps ->
  tok <> [] -> Forall (fun c => word_class db c = true) tok ->
  (forall c t, post = c :: t -> word_class db c = false) ->
  exists m,
    run (csrf_assignment db)
        (u "csrfToken" ++ ws ++ u "=" ++ seps ++ u "'" ++ tok ++ post) cs
        (fun _ cs' => Some cs')
    = Some m
    /\ group 2 m = Some tok.
Proof.
  intros Hws Hsp Hseps Hsc Htok Hw Hpost.
  unfold csrf_assignment. rewrite run_seq, run_lit_hit, run_seq, run_plus.
  destruct ws as [|w0 ws]; [congruence|].
  inversion Hsp as [|? ? Hw0 Hsp']; subst.
  unfold space_char at 1.
  change ((w0 :: ws) ++ ?x) with (w0 :: ws ++ x).
  rewrite run_class_cons, Hw0. unfold space_char. rewrite run_star_class.
  destruct seps as [|c0 seps]; [congruence|].
  inversion Hsc as [|? ? Hc0 Hsc']; subst.
  assert (Hrest : forall cs0, exists m,
             run (Seq (Lit (u "="))
                   (Seq (Plus csrf_separator)
                     (Seq (Lit (u "'")) (csrf_token_group db))))
                 (u "=" ++ (c0 :: seps) ++ u "'" ++ tok ++ post) cs0
                 (fun _ cs' => Some cs')
             = Some m /\ group 2 m = Some tok).
  { intros cs0. rewrite run_seq, run_lit_hit, run_seq, run_plus.
    change ((c0 :: seps) ++ ?x) with (c0 :: seps ++ x).
    rewrite separator_step by exact Hc0.
    cbn [run].
    apply (separators_loop
             (fun s' cs' =>
                run (Seq (Lit (u "'")) (csrf_token_group db)) s' cs'
                    (fun _ cs'' => Some cs''))
             (u "'" ++ tok ++ post) (fun m => group 2 m = Some tok)).
    - intros cs1 K. apply separator_stop.
    - intros cs1. rewrite run_seq, run_lit_hit.
      apply token_group_match; assumption.
    - exact Hsc'.
    - rewrite length_app. lia. }
  destruct (Hrest cs) as (m & Hm & Hg).
  exists m. split; [|exact Hg].
  apply greedy_prefix; [apply forallb_forall; apply Forall_forall; exact Hsp'|].
  change (u "=" ++ ?x) with (61%N :: x) in *.
  rewrite greedy_stop by (vm_compute; reflexivity). exact Hm.
Qed.

Lemma no_c_before_token (ws seps : pystr) :
  Forall (fun c => isspace c = true) ws -> Forall separator_char seps ->
  ~ In 99%N (u "srfToken" ++ ws ++ u "=" ++ seps ++ u "'").
Proof.
  intros Hws Hseps Hin.
  rewrite !in_app_iff in Hin.
  destruct Hin as [H|[H|[H|[H|H]]]].
  - vm_compute in H. intuition discriminate.
  - rewrite Forall_forall in Hws. specialize (Hws _ H). discriminate.
  - vm_compute in H. intuition discriminate.
  - rewrite Forall_forall in Hseps. destruct (Hseps _ H); discriminate.
  - vm_compute in H. intuition discriminate.
Qed.

Lemma csrf_last_match (db : UnicodeData) (pre ws seps tok post : pystr) :
  ~ In 10%N pre ->
  ws <> [] -> Forall (fun c => isspace c = true) ws ->
  seps <> [] -> Forall separator_char seps ->
  tok <> [] -> Forall (fun c => word_class db c = true) tok ->
  (forall c t, post = c :: t -> word_class db c = false) ->
  ~ occurs (u "csrfToken") (tok ++ post) ->
  exists m,
    re_match (csrf_pattern db)
      (pre ++ u "csrfToken" ++ ws ++ u "=" ++ seps ++ u "'" ++ tok ++ post)
    = Some m
    /\ group 2 m = Some tok.
Proof.
  intros Hpre Hws Hsp Hseps Hsc Htok Hw Hpost Hlast.
  destruct (assignment_match db ws seps tok post [] Hws Hsp Hseps Hsc Htok Hw
              Hpost) as (m & Hm & Hg).
  exists m. split; [|exact Hg].
  unfold re_match. rewrite run_csrf_pattern.
  apply greedy_prefix; [apply any_class_no_newline; exact Hpre|].
  replace (u "csrfToken") with (99%N :: u "srfToken") in *
    by (vm_compute; reflexivity).
  cbn [app greedy]. replace (any_class 99) with true by reflexivity.
  rewrite greedy_none; [exact Hm|].
  intros pfx s' Heq.
  destruct (run (csrf_assignment db) s' [] (fun _ cs' => Some cs'))
    as [m'|] eqn:Hrun; [exfalso | reflexivity].
  apply csrf_assignment_reaches in Hrun. destruct Hrun as (rest & ->).
  replace (u "csrfToken") with (99%N :: u "srfToken") in Heq
    by (vm_compute; reflexivity).
  pose proof (no_c_before_token ws seps Hsp Hsc) as Hnoc.
  assert (Heq' : (u "srfToken" ++ ws ++ u "=" ++ seps ++ u "'") ++ (tok ++ post)
                 = pfx ++ (99%N :: u "srfToken") ++ rest)
    by (rewrite <- Heq, <- !app_assoc; reflexivity).
  apply app_eq_app in Heq'.
  destruct Heq' as (l & [[Hl Hr] | [Hl Hr]]).
  - destruct l as [|x l].
    + apply Hlast. exists [], rest. cbn [app] in Hr |- *. symmetry; exact Hr.
    + cbn [app] in Hr. injection Hr as Hx _. subst x.
      apply Hnoc. rewrite Hl. apply in_or_app. right. left. reflexivity.
  - apply Hlast. exists l, rest. exact Hr.
Qed.

(** X22.  [get_csrf_token] returns the token of the last assignment to
    [csrfToken]: when the first line holds [csrfToken], whitespace, [=],
    backslashes or whitespace, an apostrophe and a longest run of word
    characters, and the name does not come again after that, the run is
    returned, whatever assignments stand before it on the line. *)
Theorem get_csrf_token_last_assignment (db : UnicodeData)
    (pre ws seps tok post : pystr) :
  ~ In 10%N pre ->
  ws <> [] -> Forall (fun c => isspace c = true) ws ->
  seps <> [] -> Forall separator_char seps ->
  tok <> [] -> Forall (fun c => word_class db c = true) tok ->
  (forall c t, post = c :: t -> word_class db c = false) ->
  ~ occurs (u "csrfToken") (tok ++ post) ->
  get_csrf_token db
    (Text (pre ++ u "csrfToken" ++ ws ++ u "=" ++ seps ++ u "'" ++ tok ++ post))
  = Ok (Some tok).
Proof.
  intros Hpre Hws Hsp Hseps Hsc Htok Hw Hpost Hlast.
  destruct (csrf_last_match db pre ws seps tok post Hpre Hws Hsp Hseps Hsc
              Htok Hw Hpost Hlast) as (m & Hm & Hg).
  unfold get_csrf_token. cbn [str_of_content]. rewrite Hm, Hg. reflexivity.
Qed.

Lemma get_csrf_token_last_assignment_witness :
  get_csrf_token ucd_excerpt
    (Text (u "var csrfToken = 'old'; " ++ u "csrfToken" ++ u " " ++ u "="
             ++ u " " ++ u "'" ++ u "XYZ_123" ++ u "';"))
  = Ok (Some (u "XYZ_123")).
Proof.
  apply (get_csrf_token_last_assignment ucd_excerpt
           (u "var csrfToken = 'old'; ") (u " ") (u " ") (u "XYZ_123")
           (u "';")).
  - vm_compute. intuition discriminate.
  - discriminate.
  - repeat constructor.
  - discriminate.
  - constructor; [right; reflexivity | constructor].
  - discriminate.
  - apply Forall_forall.
    apply (proj1 (forallb_forall (word_class ucd_excerpt) (u "XYZ_123"))).
    vm_compute. reflexivity.
  - intros c t H. vm_compute in H. injection H as <- _. vm_compute. reflexivity.
  - intros (p & q & H). vm_compute in H.
    repeat (destruct p as [|? p]; [discriminate | injection H as _ H]).
    destruct p; discriminate.
Defined.

(** ** [str] of [bytes] under the CSRF pattern *)

Lemma quote_mark_cases (s : pystr) : quote_mark s = 39%N \/ quote_mark s = 34%N.
Proof. unfold quote_mark. destruct (_ && _); auto. Qed.

Lemma repr_plain_byte (q c : N) :
  q = 39%N \/ q = 34%N -> plain_byte c = true -> repr_byte q c = [c].
Proof.
  intros Hq Hc. unfold plain_byte in Hc.
  rewrite !andb_true_iff, !negb_true_iff, N.leb_le, N.ltb_lt, !N.eqb_neq in Hc.
  destruct Hc as ((((Hlo & Hhi) & H34) & H39) & H92).
  unfold repr_byte.
  replace (c =? q)%N with false
    by (symmetry; apply N.eqb_neq; destruct Hq; subst q; assumption).
  replace (c =? 92)%N with false by (symmetry; apply N.eqb_neq; assumption).
  replace (c =? 9)%N with false by (symmetry; apply N.eqb_neq; lia).
  replace (c =? 10)%N with false by (symmetry; apply N.eqb_neq; lia).
  replace (c =? 13)%N with false by (symmetry; apply N.eqb_neq; lia).
  replace (c <? 32)%N with false by (symmetry; apply N.ltb_ge; lia).
  replace (127 <=? c)%N with false by (symmetry; apply N.leb_gt; lia).
  reflexivity.
Qed.

Lemma repr_plain_bytes (q : N) (s : pystr) :
  q = 39%N \/ q = 34%N -> forallb plain_byte s = true ->
  flat_map (repr_byte q) s = s.
Proof.
  intros Hq. induction s as [|c s IH]; intros Hs; [reflexivity|].
  cbn [forallb] in Hs. apply andb_true_iff in Hs. destruct Hs as [Hc Hs].
  cbn [flat_map]. rewrite repr_plain_byte, IH by assumption. reflexivity.
Qed.

Lemma hex_digit_escape (q d : N) :
  (d < 16)%N -> escape_char q (hex_digit false d).
Proof.
  intros Hd. unfold escape_char, hex_digit.
  destruct (N.ltb_spec d 10); lia.
Qed.

(** A byte is printed as itself or as a backslash and escape characters. *)
Lemma repr_byte_shape (q c : N) :
  repr_byte q c = [c] /\ c <> 10%N
  \/ exists t, repr_byte q c = 92%N :: t /\ Forall (escape_char q) t.
Proof.
  unfold repr_byte.
  destruct ((c =? q)%N || (c =? 92)%N) eqn:H1.
  { right. exists [c]. split; [reflexivity|]. constructor; [|constructor].
    apply orb_true_iff in H1. rewrite !N.eqb_eq in H1.
    unfold escape_char. tauto. }
  destruct (c =? 9)%N.
  { right. exists [116%N]. split; [vm_compute; reflexivity|].
    constructor; [unfold escape_char; lia | constructor]. }
  destruct (N.eqb_spec c 10).
  { right. exists [110%N]. split; [vm_compute; reflexivity|].
    constructor; [unfold escape_char; lia | constructor]. }
  destruct (c =? 13)%N.
  { right. exists [114%N]. split; [vm_compute; reflexivity|].
    constructor; [unfold escape_char; lia | constructor]. }
  destruct ((c <? 32)%N || (127 <=? c)%N).
  { right.
    exists [120%N; hex_digit false ((c / 16) mod 16); hex_digit false (c mod 16)].
    split.
    - replace (u "\x") with [92%N; 120%N] by (vm_compute; reflexivity).
      reflexivity.
    - constructor; [unfold escape_char; lia|].
      constructor; [apply hex_digit_escape, N.mod_upper_bound; discriminate|].
      constructor; [apply hex_digit_escape, N.mod_upper_bound; discriminate|].
      constructor. }
  left. split; [reflexivity | assumption].
Qed.

(** [str] of [bytes] is a single line. *)
Lemma repr_no_newline (q : N) (l : pystr) :
  q = 39%N \/ q = 34%N -> ~ In 10%N (flat_map (repr_byte q) l).
Proof.
  intros Hq. induction l as [|c l IH]; [intros []|].
  cbn [flat_map]. rewrite in_app_iff. intros [H|H]; [|exact (IH H)].
  destruct (repr_byte_shape q c) as [[Hr Hc]|(t & Hr & Ht)]; rewrite Hr in H.
  - destruct H as [H|[]]. congruence.
  - destruct H as [H|H]; [discriminate|].
    rewrite Forall_forall in Ht. specialize (Ht _ H).
    unfold escape_char in Ht. destruct Hq; subst q; lia.
Qed.

(** A character that no escape holds stands for a byte of its own. *)
Lemma repr_find (q s : N) :
  s <> 92%N -> ~ escape_char q s ->
  forall l p y,
    flat_map (repr_byte q) l = p ++ s :: y ->
    exists l1 l2, l = l1 ++ s :: l2 /\ flat_map (repr_byte q) l2 = y.
Proof.
  intros Hs Hesc. induction l as [|c l IH]; intros p y H.
  - destruct p; discriminate.
  - cbn [flat_map] in H. apply app_eq_app in H.
    destruct H as (l0 & [[Hc Hy] | [Hp Hy]]).
    + destruct l0 as [|x l0].
      * cbn [app] in Hy. symmetry in Hy.
        destruct (IH [] y Hy) as (l1 & l2 & -> & Hl2).
        exists (c :: l1), l2. auto.
      * cbn [app] in Hy. injection Hy as Hx Hy. subst x.
        destruct (repr_byte_shape q c) as [[Hr _]|(t & Hr & Ht)];
          rewrite Hr in Hc.
        -- destruct p as [|? p]; [|destruct p; discriminate].
           cbn [app] in Hc. injection Hc as Hc Hl0. subst c l0.
           exists [], l. cbn [app] in Hy. auto.
        -- exfalso. assert (Hin : In s (92%N :: t))
             by (rewrite Hc; apply in_or_app; right; left; reflexivity).
           destruct Hin as [Hin|Hin]; [congruence|].
           rewrite Forall_forall in Ht. exact (Hesc (Ht _ Hin)).
    + destruct (IH l0 y Hy) as (l1 & l2 & -> & Hl2).
      exists (c :: l1), l2. auto.
Qed.

Lemma repr_follow (q : N) :
  forall x l rest,
    ~ In 92%N x -> flat_map (repr_byte q) l = x ++ rest ->
    exists l', l = x ++ l'.
Proof.
  induction x as [|ch x IH]; intros l rest Hx H; [exists l; reflexivity|].
  destruct l as [|c l]; [discriminate|].
  cbn [flat_map] in H.
  destruct (repr_byte_shape q c) as [[Hr _]|(t & Hr & _)]; rewrite Hr in H.
  - cbn [app] in H. injection H as Hc H. subst c.
    destruct (IH l rest) as (l' & ->);
      [intros Hin; apply Hx; right; exact Hin | exact H |].
    exists l'. reflexivity.
  - cbn [app] in H. injection H as Hc _. exfalso. apply Hx. left. symmetry. exact Hc.
Qed.

Lemma repr_occurs (q s : N) (x l : pystr) :
  s <> 92%N -> ~ escape_char q s -> ~ In 92%N x ->
  occurs (s :: x) (flat_map (repr_byte q) l) -> occurs (s :: x) l.
Proof.
  intros Hs Hesc Hx (p & r & H).
  cbn [app] in H.
  destruct (repr_find q s Hs Hesc l p (x ++ r) H) as (l1 & l2 & -> & Hl2).
  destruct (repr_follow q x l2 r Hx Hl2) as (l' & ->).
  exists l1, l'. reflexivity.
Qed.

Lemma occurs_split (x a b : pystr) (sep : N) :
  ~ In sep x -> occurs x (a ++ sep :: b) -> occurs x a \/ occurs x b.
Proof.
  intros Hsep (p & r & H). apply app_eq_app in H.
  destruct H as (l & [[Ha Hr] | [Hp Hb]]).
  - symmetry in Hr. apply app_eq_app in Hr.
    destruct Hr as (l2 & [[Hl Hr] | [Hx Hb]]).
    + left. exists p, l2. rewrite Ha, Hl. reflexivity.
    + destruct l2 as [|s l2].
      * left. exists p, []. rewrite Ha, Hx, !app_nil_r. reflexivity.
      * cbn [app] in Hb. injection Hb as <- _.
        exfalso. apply Hsep. rewrite Hx. apply in_or_app. right. left.
        reflexivity.
  - destruct l as [|s l].
    + cbn [app] in Hb. destruct x as [|s x].
      * left. exists [], a. reflexivity.
      * cbn [app] in Hb. injection Hb as <- _.
        exfalso. apply Hsep. left. reflexivity.
    + cbn [app] in Hb. injection Hb as _ Hb.
      right. exists l, r. exact Hb.
Qed.

Lemma occurs_tail (c : N) (x s : pystr) : occurs (c :: x) s -> occurs x s.
Proof.
  intros (p & r & ->). exists (p ++ [c]), r.
  rewrite <- app_assoc. reflexivity.
Qed.

Lemma occurs_nil (c : N) (x : pystr) : ~ occurs (c :: x) [].
Proof. intros (p & r & H). destruct p; discriminate. Qed.

(** The repetitions of the name that the hypotheses of the next theorem
    exclude. *)
Lemma no_later_name (q : N) (tok post close : pystr) :
  q = 39%N \/ q = 34%N ->
  close = [92%N; 39%N] \/ close = [39%N] ->
  ~ occurs (u "srfToken") tok -> ~ occurs (u "srfToken") post ->
  ~ occurs (u "csrfToken")
      (tok ++ close ++ flat_map (repr_byte q) post ++ [q]).
Proof.
  intros Hq Hclose Htok Hpost Hocc.
  replace (u "csrfToken") with (99%N :: u "srfToken") in Hocc
    by (vm_compute; reflexivity).
  apply occurs_tail in Hocc.
  assert (H92 : ~ In 92%N (u "srfToken")) by (vm_compute; intuition discriminate).
  assert (H39 : ~ In 39%N (u "srfToken")) by (vm_compute; intuition discriminate).
  assert (H34 : ~ In 34%N (u "srfToken")) by (vm_compute; intuition discriminate).
  assert (Hrest : ~ occurs (u "srfToken") (flat_map (repr_byte q) post ++ [q])).
  { intros H. apply occurs_split in H;
      [|destruct Hq; subst q; assumption].
    destruct H as [H|H].
    - apply Hpost.
      replace (u "srfToken") with (115%N :: u "rfToken") in *
        by (vm_compute; reflexivity).
      apply (repr_occurs q 115 (u "rfToken") post);
        [discriminate
        | unfold escape_char; destruct Hq; subst q; lia
        | vm_compute; intuition discriminate
        | exact H].
    - replace (u "srfToken") with (115%N :: u "rfToken") in H
        by (vm_compute; reflexivity).
      exact (occurs_nil _ _ H). }
  destruct Hclose; subst close; cbn [app] in Hocc.
  - apply occurs_split in Hocc; [|exact H92].
    destruct Hocc as [H|H]; [exact (Htok H)|].
    apply (occurs_split _ [] _ 39%N) in H; [|exact H39].
    destruct H as [H|H]; [|exact (Hrest H)].
    replace (u "srfToken") with (115%N :: u "rfToken") in H
      by (vm_compute; reflexivity).
    exact (occurs_nil _ _ H).
  - apply occurs_split in Hocc; [|exact H39].
    destruct Hocc as [H|H]; [exact (Htok H) | exact (Hrest H)].
Qed.

(** X23.  Given the [bytes] of a page, [get_csrf_token] matches their
    [repr], which is a single line: the token is found on whatever line of
    the page the assignment stands, and the backslash that [repr] may put
    before an apostrophe is skipped.  The name must not come again after
    the token, not even without its first letter. *)
Theorem get_csrf_token_bytes (db : UnicodeData) (pre tok post : list N) :
  word_class db 92 = false -> word_class db 39 = false ->
  tok <> [] ->
  forallb (word_class db) tok = true -> forallb plain_byte tok = true ->
  ~ occurs (u "srfToken") tok -> ~ occurs (u "srfToken") post ->
  get_csrf_token db
    (Bytes (pre ++ u "csrfToken = '" ++ tok ++ u "'" ++ post))
  = Ok (Some tok).
Proof.
  intros H92 H39 Htok Hword Hplain Hno_tok Hno_post.
  unfold get_csrf_token. cbn [str_of_content]. unfold repr_bytes. cbv zeta.
  set (q := quote_mark _).
  assert (Hq : q = 39%N \/ q = 34%N) by apply quote_mark_cases.
  clearbody q.
  set (close := repr_byte q 39).
  assert (Hclose : close = [92%N; 39%N] \/ close = [39%N])
    by (destruct Hq; subst q; [left | right]; reflexivity).
  assert (Hseps : exists seps,
             u " " ++ close = seps ++ u "'" /\ seps <> []
             /\ Forall separator_char seps).
  { destruct Hclose as [->| ->].
    - exists [32%N; 92%N]. split; [vm_compute; reflexivity|].
      split; [discriminate|].
      constructor; [right; reflexivity|].
      constructor; [left; reflexivity | constructor].
    - exists [32%N]. split; [vm_compute; reflexivity|].
      split; [discriminate|].
      constructor; [right; reflexivity | constructor]. }
  destruct Hseps as (seps & Hsepseq & Hsepsne & Hsepsok).
  assert (Htext :
            98%N :: q :: flat_map (repr_byte q)
                           (pre ++ u "csrfToken = '" ++ tok ++ u "'" ++ post)
                         ++ [q]
            = (98%N :: q :: flat_map (repr_byte q) pre)
                ++ u "csrfToken" ++ u " " ++ u "=" ++ seps ++ u "'" ++ tok
                ++ (close ++ flat_map (repr_byte q) post ++ [q])).
  { replace (u "csrfToken = '")
      with (u "csrfToken" ++ u " " ++ u "=" ++ u " " ++ [39%N])
      by (vm_compute; reflexivity).
    replace (u "'" ++ post) with ([39%N] ++ post) by reflexivity.
    rewrite !flat_map_app.
    rewrite (repr_plain_bytes q (u "csrfToken") Hq)
      by (vm_compute; reflexivity).
    rewrite (repr_plain_bytes q (u " ") Hq) by (vm_compute; reflexivity).
    rewrite (repr_plain_bytes q (u "=") Hq) by (vm_compute; reflexivity).
    rewrite (repr_plain_bytes q tok Hq) by exact Hplain.
    change (flat_map (repr_byte q) [39%N]) with (close ++ []).
    rewrite app_nil_r.
    cbn [app]. do 2 f_equal. rewrite <- !app_assoc. do 4 f_equal.
    rewrite !app_assoc. rewrite Hsepseq. rewrite <- !app_assoc. reflexivity. }
  rewrite Htext.
  destruct (csrf_last_match db (98%N :: q :: flat_map (repr_byte q) pre)
              (u " ") seps tok (close ++ flat_map (repr_byte q) post ++ [q]))
    as (m & Hm & Hg).
  - intros [H|[H|H]]; [discriminate | destruct Hq; subst q; discriminate|].
    exact (repr_no_newline q pre Hq H).
  - discriminate.
  - constructor; [reflexivity | constructor].
  - exact Hsepsne.
  - exact Hsepsok.
  - exact Htok.
  - apply Forall_forall. apply forallb_forall. exact Hword.
  - intros c t Hc. destruct Hclose as [->| ->]; cbn [app] in Hc;
      injection Hc as <- _; assumption.
  - apply (no_later_name q tok post close Hq Hclose Hno_tok Hno_post).
  - rewrite Hm, Hg. reflexivity.
Qed.

Lemma get_csrf_token_bytes_witness :
  get_csrf_token ucd_excerpt
    (Bytes ((u "<a href=#>" ++ [10%N]) ++ u "csrfToken = '" ++ u "XYZ_123"
              ++ u "'" ++ u ";"))
  = Ok (Some (u "XYZ_123")).
Proof.
  apply (get_csrf_token_bytes ucd_excerpt (u "<a href=#>" ++ [10%N])
           (u "XYZ_123") (u ";")).
  - vm_compute. reflexivity.
  - vm_compute. reflexivity.
  - discriminate.
  - vm_compute. reflexivity.
  - vm_compute. reflexivity.
  - intros (p & q & H). vm_compute in H.
    repeat (destruct p as [|? p]; [discriminate | injection H as _ H]).
    destruct p; discriminate.
  - intros (p & q & H). vm_compute in H.
    repeat (destruct p as [|? p]; [discriminate | injection H as _ H]).
    destruct p; discriminate.
Defined.
